(** * Hygraph content source: query compiler, paginated fetch, webhook reconciliation

    A shallow embedding of

    - [hygraph-api-client.ts]: [convertFieldsToQueryAST], [convertASTToQuery],
      [serializeQueryArgValue], [serializeQueryArgObject], [aliasForFieldName],
      [removeAliasFieldNames], [getEntries], and in the module [Client] the
      methods [getEntryById], [createEntry], [updateEntry], [deleteEntry],
      [publishEntry], [unpublishEntry], [getAssets] and [uploadAsset];
    - [hygraph-content-source.ts]: [isNewerVersion] and the retry loops of
      [onWebhook], and in the module [ContentSource] the methods
      [createWebhookIfNeeded], [init], [publishDocuments],
      [unpublishDocuments] and [uploadAsset].

    JavaScript values are kept the way the code has them: the query AST is a
    plain object with the magic keys [__on], [__alias] and [__arguments], the
    leaf marker is the number [1], an aliased leaf is a string. *)

From Stdlib Require Import String Ascii List ZArith Lia Bool DecimalString.
From stdpp Require Import gmap strings.
Import ListNotations.

Local Open Scope Z_scope.

(** ** JavaScript values and plain objects *)

(** The values that flow through the client.  Numbers are integers (the AST
    only ever holds [1], [first] and [skip]); a plain object is the list of
    its own enumerable entries in insertion order.  Keys are GraphQL names,
    so no key is a canonical array index and insertion order is enumeration
    order. *)
#[local] Unset Elimination Schemes.
Inductive jsval : Type :=
| JUndefined
| JNull
| JBool (b : bool)
| JNum (n : Z)
| JStr (s : string)
| JArr (items : list jsval)
| JObj (entries : list (string * jsval)).
#[local] Set Elimination Schemes.

Abbreviation obj := (list (string * jsval)).

(** Induction over values, through arrays and objects. *)
Section Induction.

Variable P : jsval -> Prop.
Hypothesis P_undefined : P JUndefined.
Hypothesis P_null : P JNull.
Hypothesis P_bool : forall b, P (JBool b).
Hypothesis P_num : forall n, P (JNum n).
Hypothesis P_str : forall s, P (JStr s).
Hypothesis P_arr : forall items, Forall P items -> P (JArr items).
Hypothesis P_obj : forall entries, Forall (fun kv => P (snd kv)) entries -> P (JObj entries).

Fixpoint jsval_ind (v : jsval) : P v :=
  match v with
  | JUndefined => P_undefined
  | JNull => P_null
  | JBool b => P_bool b
  | JNum n => P_num n
  | JStr s => P_str s
  | JArr items =>
      P_arr items
        ((fix all (l : list jsval) : Forall P l :=
            match l with
            | [] => List.Forall_nil P
            | x :: l' => @List.Forall_cons _ P x l' (jsval_ind x) (all l')
            end) items)
  | JObj entries =>
      P_obj entries
        ((fix all (l : obj) : Forall (fun kv => P (snd kv)) l :=
            match l with
            | [] => List.Forall_nil _
            | (k, x) :: l' =>
                @List.Forall_cons _ (fun kv => P (snd kv)) (k, x) l' (jsval_ind x) (all l')
            end) entries)
  end.

End Induction.

(** The leaf marker [1]. *)
Definition one : jsval := JNum 1.

Module Obj.

(** [o[k]], [None] standing for [undefined]. *)
Fixpoint get (k : string) (o : obj) : option jsval :=
  match o with
  | [] => None
  | (k', v) :: o' => if String.eqb k k' then Some v else get k o'
  end.

(** Defining the own property [k], as a spread, a computed key of an object
    literal and lodash's [baseAssignValue] do: an existing key keeps its
    position, a new key goes last. *)
Fixpoint define (k : string) (v : jsval) (o : obj) : obj :=
  match o with
  | [] => [(k, v)]
  | (k', v') :: o' =>
      if String.eqb k k' then (k', v) :: o' else (k', v') :: define k v o'
  end.

(** [o[k] = v] on an object whose prototype chain ends in
    [Object.prototype]: the assignment defines the own property [k], except
    for a key [__proto__] that is not an own property yet.  That key is the
    accessor of [Object.prototype]: assigning to it changes the prototype
    of [o] when [v] is an object, does nothing otherwise, and creates no
    property.  Where the key can be [__proto__], in [fieldAst] and in the
    accumulator of the branches, the object assigned to is afterwards only
    copied, by a spread or by [_.mapValues], which take the own properties
    and leave the prototype behind. *)
Definition set (k : string) (v : jsval) (o : obj) : obj :=
  match get k o with
  | Some _ => define k v o
  | None => if String.eqb k "__proto__" then o else define k v o
  end.

(** [{ ...target, ...src }] for an object [src]. *)
Definition assign (target src : obj) : obj :=
  fold_left (fun acc kv => define (fst kv) (snd kv) acc) src target.

Definition keys (o : obj) : list string := List.map fst o.

(** [_.mapValues(o, f)]; the callback receives value and key. *)
Definition mapValues (f : jsval -> string -> jsval) (o : obj) : obj :=
  List.map (fun kv => (fst kv, f (snd kv) (fst kv))) o.

(** [_.mapKeys(o, f)]: entries are re-inserted under their new key. *)
Definition mapKeys (f : string -> string) (o : obj) : obj :=
  fold_left (fun acc kv => define (f (fst kv)) (snd kv) acc) o [].

(** [_.pick(o, names)]: the named entries that exist, inserted in the
    order of [names]. *)
Definition pick (o : obj) (names : list string) : obj :=
  fold_left
    (fun acc n => match get n o with Some v => define n v acc | None => acc end)
    names [].

End Obj.

(** The property names that every object literal inherits from
    [Object.prototype]; all of them hold a function or, for [__proto__],
    the prototype itself: truthy values that are neither numbers nor
    arrays. *)
Definition objectPrototypeNames : list string :=
  [ "constructor"; "__defineGetter__"; "__defineSetter__"; "hasOwnProperty";
    "__lookupGetter__"; "__lookupSetter__"; "isPrototypeOf"; "propertyIsEnumerable";
    "toString"; "valueOf"; "__proto__"; "toLocaleString" ].

(** Reading [o[name]] on an object literal that has no own property
    [name] finds an inherited one. *)
Definition inherited (name : string) : bool :=
  existsb (String.eqb name) objectPrototypeNames.

(** JavaScript truthiness. *)
Definition truthy (v : jsval) : bool :=
  match v with
  | JUndefined | JNull => false
  | JBool b => b
  | JNum n => negb (n =? 0)
  | JStr s => negb (String.eqb s "")
  | JArr _ | JObj _ => true
  end.

(** ** The schema model *)

(** Modelled from the spec: the type [ModelWithContext] of
    [hygraph-schema-converter], of which the client reads [name], [type],
    [fields], [context.pluralId] and [context.fieldInfoMap[name].isMultiModel]
    (the back-reference table from field name to relation metadata). *)
Inductive FieldSpecificProps : Type :=
| FRichText
| FColor
| FImage
| FModel (models : list string)
| FReference (models : list string)
| FScalar (type : string).

Inductive FieldType : Type :=
| FList (items : FieldSpecificProps)
| FItem (props : FieldSpecificProps).

Record Field : Type := mkField {
  field_name : string;
  field_type : FieldType
}.

Record FieldInfo : Type := mkFieldInfo {
  isMultiModel : bool
}.

Record ModelContext : Type := mkContext {
  pluralId : string;
  fieldInfoMap : gmap string FieldInfo
}.

Record ModelWithContext : Type := mkModel {
  model_name : string;
  model_type : string;
  context : ModelContext;
  fields : option (list Field)
}.

(** [model.context!.fieldInfoMap[field.name]!], the table taken as an
    object literal: the own entry, or, for a name without one that every
    object inherits, a function or the prototype, whose [isMultiModel]
    reads [undefined]; [None] is [undefined]. *)
Definition fieldInfoOf (model : ModelWithContext) (name : string) : option FieldInfo :=
  match fieldInfoMap (context model) !! name with
  | Some fieldInfo => Some fieldInfo
  | None => if inherited name then Some (mkFieldInfo false) else None
  end.

(** [field.type === 'list' ? field.items : field] *)
Definition fieldOrListItem (f : Field) : FieldSpecificProps :=
  match field_type f with
  | FList items => items
  | FItem props => props
  end.

(** [model.fields ?? []] *)
Definition fieldsOf (m : ModelWithContext) : list Field :=
  match fields m with
  | Some fs => fs
  | None => []
  end.

(** ** Results of code that can throw *)

(** [Throw e] is a JavaScript exception whose [toString()] is [e];
    [OutOfFuel] is the embedding's own "not finished yet" and never a value
    of the program. *)
Inductive res (A : Type) : Type :=
| Ok (a : A)
| Throw (e : string)
| OutOfFuel.

Arguments Ok {A} a.
Arguments Throw {A} e.
Arguments OutOfFuel {A}.

Definition bind {A B : Type} (r : res A) (k : A -> res B) : res B :=
  match r with
  | Ok a => k a
  | Throw e => Throw e
  | OutOfFuel => OutOfFuel
  end.

#[global] Instance res_ret : MRet res := @Ok.
#[global] Instance res_bind : MBind res := fun A B k r => bind r k.

(** A [for ... of] loop or a [reduce] whose body can throw. *)
Fixpoint foldM {A B : Type} (f : A -> B -> res A) (l : list B) (a : A) : res A :=
  match l with
  | [] => Ok a
  | b :: l' => a' ← f a b; foldM f l' a'
  end.

(** Reading a property of [undefined], or of [null]. *)
Definition typeErrorUndefined (prop : string) : string :=
  "TypeError: Cannot read properties of undefined (reading '" +:+ prop +:+ "')".

Definition typeErrorNull (prop : string) : string :=
  "TypeError: Cannot read properties of null (reading '" +:+ prop +:+ "')".

(** ** [aliasForFieldName] *)

Definition aliasPrefix (modelName : string) : string :=
  "__" +:+ modelName +:+ "_alias__".

(** [`__${modelName}_alias__${fieldName}`] *)
Definition aliasForFieldName (fieldName modelName : string) : string :=
  aliasPrefix modelName +:+ fieldName.

(** ** [convertFieldsToQueryAST] *)

(** What the depth ledger holds under a model name: a count, or the text
    that [+ 1] makes of a property inherited from [Object.prototype], the
    string form of the inherited function or object followed by one
    character [1] per visit.  Such a text is no numeric literal; compared
    with a number it converts to [NaN]. *)
Inductive Visits : Type :=
| Count (n : nat)
| Appended (ones : nat).

(** The depth ledger [visitedModelsCount]: the own properties of an object
    that starts as [{}] and is copied by a spread at every visit. *)
Abbreviation ledger := (gmap string Visits).

(** [typeof visitedCount !== 'undefined' && visitedCount > 5], for
    [visitedCount = visitedModelsCount[modelName]].  A name without an own
    entry reads [undefined] or, for an inherited name, a function or the
    prototype; these and the texts convert to [NaN], and [NaN > 5] is
    false. *)
Definition visitedTooOften (visitedModelsCount : ledger) (modelName : string) : bool :=
  match visitedModelsCount !! modelName with
  | Some (Count visitedCount) => (5 <? visitedCount)%nat
  | Some (Appended _) => false
  | None => false
  end.

(** [(visitedModelsCount[modelName] ?? 0) + 1]: a count goes up by one, a
    text gets one more [1]; where there is no own entry, [undefined] gives
    [0 + 1] and an inherited property, which is not nullish, its string
    form with a [1]. *)
Definition oneMore (visitedModelsCount : ledger) (modelName : string) : Visits :=
  match visitedModelsCount !! modelName with
  | Some (Count visitedCount) => Count (visitedCount + 1)
  | Some (Appended ones) => Appended (ones + 1)
  | None => if inherited modelName then Appended 1 else Count (0 + 1)
  end.

(** [{ ...visitedModelsCount, [modelName]: (visitedModelsCount[modelName] ?? 0) + 1 }];
    the computed key defines an own property, also for [__proto__]. *)
Definition visitOnceMore (visitedModelsCount : ledger) (modelName : string) : ledger :=
  <[modelName := oneMore visitedModelsCount modelName]> visitedModelsCount.

(** The callback of [_.mapValues(modelFields, ...)]: a leaf [1] becomes its
    alias, a nested selection gets the alias under [__alias].  The selections
    of [convertFieldsToQueryAST] are [1] or objects ([convert_aliased]);
    spreading any other non-string scalar adds nothing. *)
Definition aliasModelField (modelName : string) (fieldValue : jsval) (fieldName : string) : jsval :=
  match fieldValue with
  | JNum 1 => JStr (aliasForFieldName fieldName modelName)
  | JObj o => JObj (Obj.assign [("__alias", JStr (aliasForFieldName fieldName modelName))] o)
  | _ => JObj [("__alias", JStr (aliasForFieldName fieldName modelName))]
  end.

Section Convert.

Variable getModelByName : string -> option ModelWithContext.

(** What the body does with a recursive call is the same at every depth;
    [self] is [convertFieldsToQueryAST] with the remaining fuel. *)
Variable self : ModelWithContext -> ledger -> res obj.

(** The callback of [fieldOrListItem.models.reduce] for a multi-model
    component field. *)
Definition multiModelBranch (visitedModelsCount : ledger) (accum : obj) (modelName : string)
  : res obj :=
  if visitedTooOften visitedModelsCount modelName then Ok accum
  else
    match getModelByName modelName with
    | None => Ok accum
    | Some model =>
        modelFields ← self model (visitOnceMore visitedModelsCount modelName);
        let aliasedModelFields := Obj.mapValues (aliasModelField modelName) modelFields in
        Ok (Obj.set modelName (JObj (Obj.assign [("id", one)] aliasedModelFields)) accum)
    end.

(** The callback of [fieldOrListItem.models.reduce] for a multi-model
    reference field. *)
Definition referenceBranch (accum : obj) (modelName : string) : obj :=
  match getModelByName modelName with
  | None => accum
  | Some _ => Obj.set modelName (JObj [("id", one)]) accum
  end.

(** One iteration of [for (const field of model.fields ?? [])]. *)
Definition convertField (model : ModelWithContext) (visitedModelsCount : ledger)
    (fieldAst : obj) (field : Field) : res obj :=
  let name := field_name field in
  match fieldOrListItem field with
  | FRichText =>
      Ok (Obj.set name (JObj [("__typename", one); ("markdown", one); ("text", one)]) fieldAst)
  | FColor =>
      Ok (Obj.set name (JObj [("__typename", one); ("hex", one)]) fieldAst)
  | FImage =>
      Ok (Obj.set name (JObj [("__typename", one); ("id", one)]) fieldAst)
  | FModel models =>
      match fieldInfoOf model name with
      | None => Throw (typeErrorUndefined "isMultiModel")
      | Some fieldInfo =>
          if isMultiModel fieldInfo then
            branches ← foldM (multiModelBranch visitedModelsCount) models [];
            Ok (Obj.set name (JObj [("__typename", one); ("__on", JObj branches)]) fieldAst)
          else
            match models with
            | [modelName] =>
                if visitedTooOften visitedModelsCount modelName then Ok fieldAst
                else
                  match getModelByName modelName with
                  | Some model' =>
                      nested ← self model' (visitOnceMore visitedModelsCount modelName);
                      Ok (Obj.set name
                            (JObj (Obj.assign [("__typename", one); ("id", one)] nested))
                            fieldAst)
                  | None => Ok fieldAst
                  end
            | _ => Ok fieldAst
            end
      end
  | FReference models =>
      match fieldInfoOf model name with
      | None => Throw (typeErrorUndefined "isMultiModel")
      | Some fieldInfo =>
          if isMultiModel fieldInfo then
            let branches := fold_left referenceBranch models [] in
            Ok (Obj.set name (JObj [("__typename", one); ("__on", JObj branches)]) fieldAst)
          else
            match models with
            | [_] => Ok (Obj.set name (JObj [("__typename", one); ("id", one)]) fieldAst)
            | _ => Ok fieldAst
            end
      end
  | FScalar _ => Ok (Obj.set name one fieldAst)
  end.

End Convert.

(** [convertFieldsToQueryAST({ model, getModelByName, visitedModelsCount })];
    [fuel] bounds the depth of the recursion.  The [logger] argument is
    passed along and never used. *)
Fixpoint convertFieldsToQueryAST (getModelByName : string -> option ModelWithContext)
    (fuel : nat) (model : ModelWithContext) (visitedModelsCount : ledger) : res obj :=
  match fuel with
  | O => OutOfFuel
  | S fuel' =>
      foldM
        (convertField getModelByName (convertFieldsToQueryAST getModelByName fuel')
           model visitedModelsCount)
        (fieldsOf model) []
  end.

(** [defaultDocumentQueryFields(options)] *)
Definition defaultDocumentQueryFields (getModelByName : string -> option ModelWithContext)
    (fuel : nat) (model : ModelWithContext) : res obj :=
  fieldAst ← convertFieldsToQueryAST getModelByName fuel model ∅;
  mret (Obj.assign
    [ ("__typename", one); ("id", one); ("createdAt", one);
      ("createdBy", JObj [("id", one)]);
      ("updatedAt", one);
      ("updatedBy", JObj [("id", one)]);
      ("publishedAt", one);
      ("publishedBy", JObj [("id", one)]);
      ("stage", one);
      ("documentInStages",
        JObj [ ("__arguments", JObj [("stages", JObj [("enum", JStr "PUBLISHED")])]);
               ("stage", one); ("updatedAt", one) ]) ]
    fieldAst).

(** ** Strings *)

Definition dquote : ascii := ascii_of_nat 34.
Definition newline : ascii := ascii_of_nat 10.

(** [s.replace(/c/g, by)] for a one-character pattern. *)
Fixpoint replaceAll (c : ascii) (by_ : string) (s : string) : string :=
  match s with
  | EmptyString => EmptyString
  | String a s' =>
      (if Ascii.eqb a c then by_ else String a EmptyString) +:+ replaceAll c by_ s'
  end.

(** [' '.repeat(n)] *)
Fixpoint spaces (n : nat) : string :=
  match n with
  | O => EmptyString
  | S n' => String " " (spaces n')
  end.

(** The decimal form of an integer, as [Number.prototype.toString] prints
    the integers below 10^21. *)
Definition decimal (n : Z) : string := NilZero.string_of_int (Z.to_int n).

(** [c.toLowerCase()] on the ASCII letters. *)
Definition toLowerCaseAscii (c : ascii) : ascii :=
  let n := nat_of_ascii c in
  if ((65 <=? n) && (n <=? 90))%nat then ascii_of_nat (n + 32) else c.

(** [value.charAt(0).toLowerCase() + value.slice(1)] *)
Definition toLowerCaseFirst (value : string) : string :=
  match value with
  | EmptyString => EmptyString
  | String c rest => String (toLowerCaseAscii c) rest
  end.

(** The ASCII characters matched by [\s]. *)
Definition isSpace (c : ascii) : bool :=
  let n := nat_of_ascii c in
  (((9 <=? n) && (n <=? 13)) || (n =? 32))%nat.

(** [s.replace(/\s+/g, ' ')]; [inRun] says that the previous character was
    already a space of the current run. *)
Fixpoint collapseSpaces (inRun : bool) (s : string) : string :=
  match s with
  | EmptyString => EmptyString
  | String a s' =>
      if isSpace a then
        if inRun then collapseSpaces true s' else String " " (collapseSpaces true s')
      else String a (collapseSpaces false s')
  end.

(** [str.replace(/\n/g, '').replace(/\s+/g, ' ')] *)
Definition removeNewLinesAndCollapseSpaces (str : string) : string :=
  collapseSpaces false (replaceAll newline EmptyString str).

(** ** Argument serialization *)

(** What [Array.prototype.join] prints for one element, given its string
    form: [null] and [undefined] print as nothing. *)
Definition joinItem (toStr : jsval -> string) (v : jsval) : string :=
  match v with
  | JUndefined | JNull => EmptyString
  | _ => toStr v
  end.

(** [String(v)], the conversion done by a template literal. *)
Fixpoint toString (v : jsval) : string :=
  match v with
  | JUndefined => "undefined"
  | JNull => "null"
  | JBool true => "true"
  | JBool false => "false"
  | JNum n => decimal n
  | JStr s => s
  | JArr items => String.concat "," (List.map (joinItem toString) items)
  | JObj _ => "[object Object]"
  end.

(** lodash's [isLength]. *)
Definition isLength (v : jsval) : option nat :=
  match v with
  | JNum n => if (0 <=? n) && (n <=? 9007199254740991) then Some (Z.to_nat n) else None
  | _ => None
  end.

(** lodash's [isArrayLike] on a plain object: its [length] property is a
    valid array length. *)
Definition arrayLikeLength (o : obj) : option nat :=
  match Obj.get "length" o with
  | Some v => isLength v
  | None => None
  end.

(** The (key, value) pairs that [_.reduce(o, ...)] hands to its callback.
    [_.reduce] is a lodash collection method: an object with a [length]
    that is a valid array length is iterated like an array, over the
    indices [0 .. length-1], and not over its own keys. *)
Definition reduceEntries (o : obj) : list (string * jsval) :=
  match arrayLikeLength o with
  | Some len =>
      List.map
        (fun i => (decimal (Z.of_nat i), default JUndefined (Obj.get (decimal (Z.of_nat i)) o)))
        (seq 0 len)
  | None => o
  end.

(** The body of the reducer of [serializeQueryArgObject], on an entry whose
    value is already serialized. *)
Definition appendArgEntry (result : string) (kv : string * jsval) : string :=
  result +:+ (if String.eqb result "" then "" else ", ") +:+ fst kv +:+ ": " +:+ toString (snd kv).

(** The string literal for [value]: every double quote becomes backslash
    quote, every newline becomes backslash n, and the whole is put between
    double quotes. *)
Definition quoteString (value : string) : string :=
  String dquote
    (replaceAll newline "\n" (replaceAll dquote (String "\" (String dquote EmptyString)) value)
     +:+ String dquote EmptyString).

(** [serializeQueryArgValue(value)].  The result is a JavaScript value: a
    string for arrays, objects and strings, the value itself otherwise, and
    whatever [value.enum] holds for an object with a truthy [enum].

    [serializeQueryArgObject] serializes the values that [_.reduce] visits;
    here every own value is serialized first and [_.reduce]'s choice of
    entries is made on the object as it was passed, which visits the same
    values ([undefined] serializes to itself). *)
Fixpoint serializeQueryArgValue (value : jsval) : jsval :=
  match value with
  | JArr items =>
      JStr ("[" +:+
            String.concat ", " (List.map (fun v => joinItem toString (serializeQueryArgValue v)) items)
            +:+ "]")
  | JObj o =>
      let serialized := List.map (fun kv => (fst kv, serializeQueryArgValue (snd kv))) o in
      let visited :=
        match arrayLikeLength o with
        | Some len =>
            List.map
              (fun i => (decimal (Z.of_nat i),
                         default JUndefined (Obj.get (decimal (Z.of_nat i)) serialized)))
              (seq 0 len)
        | None => serialized
        end in
      let object := JStr ("{ " +:+ fold_left appendArgEntry visited "" +:+ " }") in
      match Obj.get "enum" o with
      | Some e => if truthy e then e else object
      | None => object
      end
  | JStr s => JStr (quoteString s)
  | _ => value
  end.

(** [serializeQueryArgObject(object)] *)
Definition serializeQueryArgObject (object : obj) : string :=
  "{ " +:+
  fold_left appendArgEntry
    (List.map (fun kv => (fst kv, serializeQueryArgValue (snd kv))) (reduceEntries object)) ""
  +:+ " }".

(** ** [convertASTToQuery] *)

(** The argument list between the parentheses:
    [_.reduce(__arguments, ...).join(', ')]. *)
Definition serializeArguments (arguments : jsval) : string :=
  match arguments with
  | JObj args =>
      String.concat ", "
        (List.map (fun kv => fst kv +:+ ": " +:+ toString (serializeQueryArgValue (snd kv)))
           (reduceEntries args))
  | _ => EmptyString
  end.

(** The line that opens a nested object [key: value]. *)
Definition openObject (indention key : string) (value : obj) : string :=
  let key' :=
    match Obj.get "__alias" value with
    | Some a => if truthy a then toString a +:+ ": " +:+ key else key
    | None => key
    end in
  match Obj.get "__arguments" value with
  | Some args =>
      if truthy args then indention +:+ key' +:+ "(" +:+ serializeArguments args +:+ ") {"
      else indention +:+ key' +:+ " {"
  | None => indention +:+ key' +:+ " {"
  end.

(** The lines of [convertASTToQuery(queryAST, level)].  With [rest] set, the
    object is the [...rest] of a nested object, from which the destructuring
    took [__alias] and [__arguments] away.  The ASTs of this client hold
    objects under [__on] and in every branch. *)
Fixpoint queryLines (level : nat) (rest : bool) (queryAST : jsval) {struct queryAST}
  : list string :=
  let indention := spaces (2 * level) in
  match queryAST with
  | JObj entries =>
      flat_map
        (fun kv =>
           let key := fst kv in
           if rest && (String.eqb key "__alias" || String.eqb key "__arguments") then []
           else if String.eqb key "__on" then
             match snd kv with
             | JObj branches =>
                 flat_map
                   (fun branch =>
                      (indention +:+ "... on " +:+ fst branch +:+ " {")
                        :: queryLines (S level) false (snd branch)
                        ++ [indention +:+ "}"])
                   branches
             | _ => []
             end
           else
             match snd kv with
             | JObj value =>
                 openObject indention key value
                   :: queryLines (S level) true (snd kv)
                   ++ [indention +:+ "}"]
             | JStr alias => [indention +:+ alias +:+ ": " +:+ key]
             | _ => [indention +:+ key]
             end)
        entries
  | _ => []
  end.

(** [convertASTToQuery(queryAST)] at level 0: the lines joined by newlines. *)
Definition convertASTToQuery (queryAST : obj) : string :=
  String.concat (String newline EmptyString) (queryLines 0 false (JObj queryAST)).

(** ** [removeAliasFieldNames] *)

(** What is left of [s] behind [prefix], if [s] starts with it. *)
Fixpoint stripPrefix (prefix s : string) : option string :=
  match prefix, s with
  | EmptyString, _ => Some s
  | String a prefix', String b s' =>
      if Ascii.eqb a b then stripPrefix prefix' s' else None
  | String _ _, EmptyString => None
  end.

(** [fieldName.replace(new RegExp(`^__${typename}_alias__`), '')], for a
    [typename] without regular-expression syntax ([literalTypename]): the
    pattern then matches exactly at the start of the names that begin with
    the alias prefix, and the match is removed. *)
Definition stripAliasPrefix (typename fieldName : string) : string :=
  match stripPrefix (aliasPrefix typename) fieldName with
  | Some rest => rest
  | None => fieldName
  end.

(** [value.__typename], when truthy, as the template literal prints it. *)
Definition typenameOf (o : obj) : option string :=
  match Obj.get "__typename" o with
  | Some t => if truthy t then Some (toString t) else None
  | None => None
  end.

(** [removeAliasFieldNames(entry)]: [deepMap] hands every plain object and
    array, at any depth, to the callback and maps the children of what the
    callback returns ([iteratePrimitives: false] keeps scalars away from
    it).  The callback renames keys and leaves values alone, so renaming
    the keys of an object commutes with mapping its values; the definition
    maps the values first, which is structural. *)
Fixpoint removeAliasFieldNames (entry : jsval) : jsval :=
  match entry with
  | JObj o =>
      let children := List.map (fun kv => (fst kv, removeAliasFieldNames (snd kv))) o in
      match typenameOf o with
      | Some typename => JObj (Obj.mapKeys (stripAliasPrefix typename) children)
      | None => JObj children
      end
  | JArr items => JArr (List.map removeAliasFieldNames items)
  | _ => entry
  end.

(** The characters that are not literal in a regular expression. *)
Definition isRegExpSyntax (c : ascii) : bool :=
  existsb (Ascii.eqb c)
    [ "\"%char; "^"%char; "$"%char; "."%char; "|"%char; "?"%char; "*"%char; "+"%char;
      "("%char; ")"%char; "["%char; "]"%char; "{"%char; "}"%char; "/"%char ].

Fixpoint literalTypename (s : string) : bool :=
  match s with
  | EmptyString => true
  | String c s' => negb (isRegExpSyntax c) && literalTypename s'
  end.

(** Every [__typename] inside the value is literal as a pattern; GraphQL
    type names, made of letters, digits and underscores, are. *)
Fixpoint literalTypenames (v : jsval) : bool :=
  match v with
  | JObj o =>
      match typenameOf o with
      | Some typename => literalTypename typename
      | None => true
      end
      && forallb (fun kv => literalTypenames (snd kv)) o
  | JArr items => forallb literalTypenames items
  | _ => true
  end.

(** ** [getEntries] *)

Record PageInfo : Type := mkPageInfo {
  hasNextPage : bool;
  pageSize : Z
}.

(** One connection of [HygraphEntryConnectionResult]: the nodes of its edges
    and its page information. *)
Record ModelResult : Type := mkModelResult {
  edges : list jsval;
  pageInfo : PageInfo
}.

(** [HygraphEntryConnectionResult], in the key order of the response. *)
Abbreviation ConnectionResult := (list (string * ModelResult)).

(** What one call of [getEntries] did: the array it returned, the queries it
    sent, in order, and the warnings it logged. *)
Record FetchOutcome : Type := mkFetchOutcome {
  returned : list jsval;
  requests : list string;
  warnings : list string
}.

(** The value stored under [queryAst.query[queryModelName]]. *)
Definition connectionQuery (first skip : Z) (nodeFields : obj) : jsval :=
  JObj
    [ ("__arguments",
        JObj [ ("stage", JObj [("enum", JStr "DRAFT")]); ("first", JNum first); ("skip", JNum skip) ]);
      ("edges", JObj [("node", JObj nodeFields)]);
      ("pageInfo", JObj [("hasNextPage", one); ("pageSize", one)]) ].

(** [_.keyBy(models, 'name')] *)
Definition keyByName (models : list ModelWithContext) : gmap string ModelWithContext :=
  fold_left (fun acc model => <[model_name model := model]> acc) models ∅.

(** What [modelsByName[modelName]] reads under a name that has no own entry
    and that every object inherits: a function, or the prototype itself.
    The compiler takes it for a model; all it finds is that it is truthy
    and that it has no [fields]. *)
Definition inheritedProperty : ModelWithContext :=
  mkModel EmptyString EmptyString (mkContext EmptyString ∅) None.

(** [(modelName) => modelsByName[modelName]] on the object that [_.keyBy]
    returns. *)
Definition modelByName (modelsByName : gmap string ModelWithContext) (modelName : string)
  : option ModelWithContext :=
  match modelsByName !! modelName with
  | Some model => Some model
  | None => if inherited modelName then Some inheritedProperty else None
  end.

(** The first loop of [getEntries]: one connection per model of type
    [data].  It runs before the [try] block. *)
Definition initialQuery (fuel : nat) (models : list ModelWithContext)
    (maxPaginationSize : option Z) : res obj :=
  let dataModels := List.filter (fun model => String.eqb (model_type model) "data") models in
  let modelsByName := keyByName models in
  foldM
    (fun query model =>
       let queryModelName := toLowerCaseFirst (pluralId (context model)) +:+ "Connection" in
       nodeFields ← defaultDocumentQueryFields (modelByName modelsByName) fuel model;
       mret (Obj.set queryModelName
               (connectionQuery (default 100 maxPaginationSize) 0 nodeFields) query))
    dataModels [].

(** [queryAst.query[queryModelName].__arguments.skip += pageSize].  Reading
    a property of [undefined] or [null] throws; a name that the query does
    not have but inherits reads a function or the prototype, which has no
    [__arguments].  Every entry built by [initialQuery] has an object under
    [__arguments] with a number under [skip], and only this statement
    changes it ([addToSkip_streamsQuery]); for an [__arguments] or a [skip]
    of another kind JavaScript would go on with [NaN] or a string, which
    the integer model does not have, and the definition leaves the query as
    it is. *)
Definition addToSkip (pageSize : Z) (queryModelName : string) (query : obj) : res obj :=
  match Obj.get queryModelName query with
  | Some (JObj entry) =>
      match Obj.get "__arguments" entry with
      | Some (JObj arguments) =>
          match Obj.get "skip" arguments with
          | Some (JNum skip) =>
              Ok (Obj.set queryModelName
                    (JObj (Obj.set "__arguments"
                             (JObj (Obj.set "skip" (JNum (skip + pageSize)) arguments)) entry))
                    query)
          | _ => Ok query
          end
      | Some JUndefined | None => Throw (typeErrorUndefined "skip")
      | Some JNull => Throw (typeErrorNull "skip")
      | Some _ => Ok query
      end
  | Some JUndefined => Throw (typeErrorUndefined "__arguments")
  | None =>
      if inherited queryModelName then Throw (typeErrorUndefined "skip")
      else Throw (typeErrorUndefined "__arguments")
  | Some JNull => Throw (typeErrorNull "__arguments")
  | Some _ => Throw (typeErrorUndefined "skip")
  end.

(** The state of the [for ... of Object.entries(queryResult)] loop. *)
Record MergeState : Type := mkMergeState {
  ms_query : obj;
  ms_result : list jsval;
  ms_typesWithNextPage : list string
}.

(** One iteration of [for (const [queryModelName, modelResult] of ...)]. *)
Definition mergeModelResult (st : MergeState) (kv : string * ModelResult) : res MergeState :=
  let queryModelName := fst kv in
  let modelResult := snd kv in
  let hygraphEntries := List.map removeAliasFieldNames (edges modelResult) in
  let result := ms_result st ++ hygraphEntries in
  if hasNextPage (pageInfo modelResult) then
    query ← addToSkip (pageSize (pageInfo modelResult)) queryModelName (ms_query st);
    mret (mkMergeState query result (ms_typesWithNextPage st ++ [queryModelName]))
  else
    mret (mkMergeState (ms_query st) result (ms_typesWithNextPage st)).

(** The message of [logger.warn] in the [catch] block. *)
Definition fetchEntriesWarning (error query : string) : string :=
  "Error fetching entries:" +:+ String newline EmptyString +:+ error
  +:+ String newline EmptyString +:+ "Query:" +:+ String newline EmptyString
  +:+ removeNewLinesAndCollapseSpaces query.

Section GetEntries.

(** [this.contentClient.request(query)]: the answer to the [round]-th
    request of this call, a response or the [toString()] of the error it
    is rejected with. *)
Variable request : nat -> string -> string + ConnectionResult.

(** The [try { do { ... } while (hasNextPage) } catch] of [getEntries];
    [None] when [fuel] rounds were not enough to finish. *)
Fixpoint fetchPages (fuel round : nat) (query : obj) (result : list jsval)
    (sent : list string) : option FetchOutcome :=
  match fuel with
  | O => None
  | S fuel' =>
      let text := convertASTToQuery [("query", JObj query)] in
      let sent' := sent ++ [text] in
      let caught error := Some (mkFetchOutcome [] sent' [fetchEntriesWarning error text]) in
      match request round text with
      | inl error => caught error
      | inr queryResult =>
          match foldM mergeModelResult queryResult (mkMergeState query result []) with
          | Ok st =>
              let query' := Obj.pick (ms_query st) (ms_typesWithNextPage st) in
              match ms_typesWithNextPage st with
              | _ :: _ => fetchPages fuel' (S round) query' (ms_result st) sent'
              | [] => Some (mkFetchOutcome (ms_result st) sent' [])
              end
          | Throw error => caught error
          | OutOfFuel => None
          end
      end
  end.

(** [getEntries({ models, maxPaginationSize })]; [depth] bounds the
    recursion of the compiler, [rounds] the number of requests. *)
Definition getEntries (depth rounds : nat) (models : list ModelWithContext)
    (maxPaginationSize : option Z) : res FetchOutcome :=
  query ← initialQuery depth models maxPaginationSize;
  match fetchPages rounds 0 query [] [] with
  | Some outcome => Ok outcome
  | None => OutOfFuel
  end.

End GetEntries.

(** *** Streams of pages *)

(** One connection of the combined query: its key under [queryAst.query],
    the page size asked for and the selection of a node. *)
Record Stream : Type := mkStream {
  stream_name : string;
  stream_first : Z;
  stream_fields : obj
}.

(** [queryAst.query] for the given streams, each at its own offset. *)
Definition streamsQuery (skips : string -> Z) (streams : list Stream) : obj :=
  List.map
    (fun s => (stream_name s,
               connectionQuery (stream_first s) (skips (stream_name s)) (stream_fields s)))
    streams.

(** What the content API reports for one stream in one round, next to
    [hasNextPage]. *)
Record Page : Type := mkPage {
  page_nodes : list jsval;
  page_size : Z
}.

(** Some stream of the list has this name. *)
Definition named (l : list Stream) (x : string) : bool :=
  existsb (fun s => String.eqb (stream_name s) x) l.

Section Paging.

(** The streams, the number of pages of each, and the page that each one
    gets in each round. *)
Variable streams : list Stream.
Variable pages : string -> nat.
Variable page : nat -> string -> Page.

(** The streams that still have a page to fetch in round [r]. *)
Definition activeAt (r : nat) : list Stream :=
  List.filter (fun s => (r <? pages (stream_name s))%nat) streams.

(** The offset of a stream in round [r]: the page sizes reported so far. *)
Fixpoint skipAt (r : nat) (name : string) : Z :=
  match r with
  | O => 0
  | S r' => skipAt r' name + page_size (page r' name)
  end.

(** The text of the combined query of round [r]. *)
Definition queryAt (r : nat) : string :=
  convertASTToQuery [("query", JObj (streamsQuery (skipAt r) (activeAt r)))].

(** The response to round [r]: every stream asked for answers, in the
    order of the query, and reports more pages until its last one. *)
Definition responseAt (r : nat) : ConnectionResult :=
  List.map
    (fun s =>
       (stream_name s,
        mkModelResult (page_nodes (page r (stream_name s)))
          (mkPageInfo (S r <? pages (stream_name s))%nat (page_size (page r (stream_name s))))))
    (activeAt r).

(** The entries of round [r], as [getEntries] collects them. *)
Definition entriesAt (r : nat) : list jsval :=
  flat_map
    (fun s => List.map removeAliasFieldNames (page_nodes (page r (stream_name s))))
    (activeAt r).

(** The largest number of pages of any stream. *)
Definition lastRound : nat :=
  list_max (List.map (fun s => pages (stream_name s)) streams).

End Paging.

(** ** [onWebhook] *)

Inductive Operation : Type := create | update | publish | unpublish | delete.

Record DocumentInStage : Type := mkStage {
  stage : string;
  stage_updatedAt : string
}.

(** The part of [HygraphEntry] and [HygraphAsset] that [onWebhook] reads;
    [item_data] is the rest of the fetched object. *)
Record HygraphItem : Type := mkItem {
  item_typename : string;
  item_id : string;
  item_updatedAt : string;
  documentInStages : option (list DocumentInStage);
  item_data : jsval
}.

(** The cached [StackbitTypes.Document] or [Asset]; only [updatedAt] is read. *)
Record CachedItem : Type := mkCached {
  cached_updatedAt : string
}.

Record HygraphWebhook : Type := mkWebhook {
  operation : Operation;
  data : HygraphItem
}.

(** [hygraphItem.documentInStages?.find((doc) => doc.stage === 'PUBLISHED')] *)
Definition publishedItem (hygraphItem : HygraphItem) : option DocumentInStage :=
  match documentInStages hygraphItem with
  | Some docs => List.find (fun doc => String.eqb (stage doc) "PUBLISHED") docs
  | None => None
  end.

(** [isNewerVersion(hygraphItem, cachedItem)], closed over [data.operation]. *)
Definition isNewerVersion (operation : Operation) (hygraphItem : HygraphItem)
    (cachedItem : option CachedItem) : bool :=
  match operation with
  | create => true
  | update =>
      match cachedItem with
      | None => true
      | Some cached => String.ltb (cached_updatedAt cached) (item_updatedAt hygraphItem)
      end
  | publish =>
      match publishedItem hygraphItem with
      | Some doc => String.eqb (stage_updatedAt doc) (item_updatedAt hygraphItem)
      | None => false
      end
  | unpublish =>
      match publishedItem hygraphItem with
      | Some _ => false
      | None => true
      end
  | delete => true
  end.

Definition operationName (operation : Operation) : string :=
  match operation with
  | create => "create"
  | update => "update"
  | publish => "publish"
  | unpublish => "unpublish"
  | delete => "delete"
  end.

Section OnWebhook.

(** The converted document and asset of the host, and the converters
    [convertDocument] (which may return [undefined]) and [convertAsset]. *)
Variables Document Asset : Type.
Variable convertDocument : HygraphItem -> option Document.
Variable convertAsset : HygraphItem -> Asset.

(** The cache: [getDocumentById] and [getAssetById]. *)
Variable cachedDocumentById : string -> option CachedItem.
Variable cachedAssetById : string -> option CachedItem.

(** The client: [getEntryById({ entryId, modelName })] and
    [getAssetById(assetId)], as answered at the [n]-th fetch of this
    webhook; [None] is [undefined]. *)
Variable getEntryById : nat -> string -> string -> option HygraphItem.
Variable getAssetById : nat -> string -> option HygraphItem.

(** What [onWebhook] does to the outside, in order. *)
Inductive Effect : Type :=
| LogDebug (message : string)
| LogWarn (message : string)
| Sleep (milliseconds : Z)
| FetchEntry (entryId modelName : string)
| FetchAsset (assetId : string)
| UpdateDocuments (documents : list Document)
| UpdateAssets (assets : list Asset)
| DeleteDocuments (documentIds : list string)
| DeleteAssets (assetIds : list string).

(** How a retry loop ends: a fetch returned nothing and [onWebhook]
    returned, or the loop was left with the last fetched item, the flag
    [gotNewerVersion] and the final value of [tries]. *)
Inductive LoopEnd : Type :=
| Absent (trace : list Effect)
| Settled (item : HygraphItem) (gotNewerVersion : bool) (tries : nat) (trace : list Effect).

Section Retry.

Variable operation : Operation.
Variable cachedItem : option CachedItem.
(** The fetch of this loop, its effect and the word of its debug line. *)
Variable fetch : nat -> option HygraphItem.
Variable fetched : Effect.
Variable kind : string.

(** [do { ... } while (!gotNewerVersion && ++tries < 10)].  The loop is
    written once for assets and once for entries, with the same text;
    [fuel] counts the iterations still allowed to the embedding. *)
Fixpoint retry (fuel tries : nat) (trace : list Effect) : option LoopEnd :=
  match fuel with
  | O => None
  | S fuel' =>
      let waited :=
        if (0 <? tries)%nat then
          trace ++ [ LogDebug ("onWebhook => received older " +:+ kind
                               +:+ " from Hygraph, waiting 500ms and retrying");
                     Sleep 500 ]
        else trace in
      let trace' := waited ++ [fetched] in
      match fetch tries with
      | None => Some (Absent trace')
      | Some item =>
          let gotNewerVersion := isNewerVersion operation item cachedItem in
          if negb gotNewerVersion && (tries + 1 <? 10)%nat
          then retry fuel' (tries + 1)%nat trace'
          else Some (Settled item gotNewerVersion
                       (if gotNewerVersion then tries else (tries + 1)%nat) trace')
      end
  end.

(** The effects of attempt number [tries]: the debug line and the sleep
    before every attempt but the first, then the fetch. *)
Definition attemptEffects (tries : nat) : list Effect :=
  (if (0 <? tries)%nat then
     [ LogDebug ("onWebhook => received older " +:+ kind
                 +:+ " from Hygraph, waiting 500ms and retrying");
       Sleep 500 ]
   else [])
  ++ [fetched].

(** The effects of [count] attempts in a row, from attempt [from] on. *)
Definition attemptsEffects (from count : nat) : list Effect :=
  flat_map attemptEffects (seq from count).

End Retry.

Definition staleWarning (kind : string) (operation : Operation) : string :=
  "Could not fetch updated " +:+ kind +:+ " from Hygraph after receiving "
  +:+ operationName operation +:+ " webhook!".

(** [onWebhook({ data })]: the effects of one webhook, [None] only if the
    embedding's ten iterations were too few. *)
Definition onWebhook (payload : HygraphWebhook) : option (list Effect) :=
  let modelName := item_typename (data payload) in
  let isAsset := String.eqb modelName "Asset" in
  let id := item_id (data payload) in
  let start := [LogDebug ("got webhook request, " +:+ modelName +:+ ":"
                          +:+ operationName (operation payload))] in
  match operation payload with
  | delete =>
      Some (start ++ [if isAsset then DeleteAssets [id] else DeleteDocuments [id]])
  | op =>
      if isAsset then
        match retry op (cachedAssetById id) (fun n => getAssetById n id)
                (FetchAsset id) "asset" 10 0 start with
        | None => None
        | Some (Absent trace) => Some trace
        | Some (Settled hygraphAsset gotNewerVersion _ trace) =>
            let warned :=
              if gotNewerVersion then trace else trace ++ [LogWarn (staleWarning "asset" op)] in
            Some (warned ++ [UpdateAssets [convertAsset hygraphAsset]])
        end
      else
        match retry op (cachedDocumentById id) (fun n => getEntryById n id modelName)
                (FetchEntry id modelName) "entry" 10 0 start with
        | None => None
        | Some (Absent trace) => Some trace
        | Some (Settled hygraphEntry gotNewerVersion _ trace) =>
            let warned :=
              if gotNewerVersion then trace else trace ++ [LogWarn (staleWarning "entry" op)] in
            match convertDocument hygraphEntry with
            | None => Some warned
            | Some document => Some (warned ++ [UpdateDocuments [document]])
            end
        end
  end.

End OnWebhook.

Arguments LogDebug {Document Asset} message.
Arguments LogWarn {Document Asset} message.
Arguments Sleep {Document Asset} milliseconds.
Arguments FetchEntry {Document Asset} entryId modelName.
Arguments FetchAsset {Document Asset} assetId.
Arguments UpdateDocuments {Document Asset} documents.
Arguments UpdateAssets {Document Asset} assets.
Arguments DeleteDocuments {Document Asset} documentIds.
Arguments DeleteAssets {Document Asset} assetIds.
Arguments Absent {Document Asset} trace.
Arguments Settled {Document Asset} item gotNewerVersion tries trace.

Definition isWarning {Document Asset} (e : Effect Document Asset) : bool :=
  match e with LogWarn _ => true | _ => false end.

Definition isFetch {Document Asset} (e : Effect Document Asset) : bool :=
  match e with FetchEntry _ _ | FetchAsset _ => true | _ => false end.

Definition isSleep {Document Asset} (e : Effect Document Asset) : bool :=
  match e with Sleep _ => true | _ => false end.

Definition isCacheUpdate {Document Asset} (e : Effect Document Asset) : bool :=
  match e with
  | UpdateDocuments _ | UpdateAssets _ | DeleteDocuments _ | DeleteAssets _ => true
  | _ => false
  end.

(** [documentInStages] has an entry of stage [PUBLISHED] whose [updatedAt]
    is the item's own. *)
Definition publishedAtOwnTime (hygraphItem : HygraphItem) : Prop :=
  exists docs doc,
    documentInStages hygraphItem = Some docs /\ In doc docs /\
    stage doc = "PUBLISHED" /\ stage_updatedAt doc = item_updatedAt hygraphItem.

(** The first entry of stage [PUBLISHED] in [documentInStages] has the
    item's own [updatedAt]. *)
Definition firstPublishedAtOwnTime (hygraphItem : HygraphItem) : Prop :=
  exists docs before doc after,
    documentInStages hygraphItem = Some docs /\
    docs = before ++ doc :: after /\
    (forall earlier, In earlier before -> stage earlier <> "PUBLISHED") /\
    stage doc = "PUBLISHED" /\ stage_updatedAt doc = item_updatedAt hygraphItem.

(** The number of entries of stage [PUBLISHED]. *)
Definition publishedCount (hygraphItem : HygraphItem) : nat :=
  match documentInStages hygraphItem with
  | Some docs => length (List.filter (fun doc => String.eqb (stage doc) "PUBLISHED") docs)
  | None => 0
  end.

(** ** Reading a query AST *)

(** One step down a selection, read the way [convertASTToQuery] reads it: an
    entry of an [__on] object opens the inline fragment [... on modelName],
    any other entry is a field. *)
Inductive Step : Type :=
| Select (name : string)
| Fragment (modelName : string).

(** The paths from a selection downwards. *)
Inductive astPath : jsval -> list Step -> Prop :=
| path_end v :
    astPath v []
| path_field o k v p :
    In (k, v) o -> k <> "__on" -> astPath v p ->
    astPath (JObj o) (Select k :: p)
| path_fragment o branches modelName fields p :
    In ("__on", JObj branches) o -> In (modelName, fields) branches -> astPath fields p ->
    astPath (JObj o) (Fragment modelName :: p).

(** The same paths, followed by property lookup. *)
Fixpoint hasPath (v : jsval) (p : list Step) : bool :=
  match p, v with
  | [], _ => true
  | Select k :: p', JObj o =>
      negb (String.eqb k "__on") &&
      match Obj.get k o with
      | Some v' => hasPath v' p'
      | None => false
      end
  | Fragment modelName :: p', JObj o =>
      match Obj.get "__on" o with
      | Some (JObj branches) =>
          match Obj.get modelName branches with
          | Some fields => hasPath fields p'
          | None => false
          end
      | _ => false
      end
  | _, _ => false
  end.

Definition isFragmentOn (modelName : string) (s : Step) : bool :=
  match s with
  | Fragment t => String.eqb t modelName
  | Select _ => false
  end.

(** How often the path enters an inline fragment on [modelName]. *)
Definition fragmentsOn (modelName : string) (p : list Step) : nat :=
  length (List.filter (isFragmentOn modelName) p).

(** No field carries one of the keys that [convertASTToQuery] reads as
    syntax. *)
Definition plainFieldNames (model : ModelWithContext) : bool :=
  forallb
    (fun field =>
       negb (String.eqb (field_name field) "__on"
             || String.eqb (field_name field) "__alias"
             || String.eqb (field_name field) "__arguments"))
    (fieldsOf model).

(** What is left of the ledger's allowance for one model, and for a list of
    models. *)
Definition counted (visits : option Visits) : nat :=
  match visits with
  | Some (Count n) => n
  | _ => 0%nat
  end.

Definition allowance (visitedModelsCount : ledger) (modelName : string) : nat :=
  6 - counted (visitedModelsCount !! modelName).

(** The ledger holds counts only, as it does as long as no model with an
    inherited name is visited. *)
Definition countsOnly (visitedModelsCount : ledger) : Prop :=
  forall modelName ones, visitedModelsCount !! modelName <> Some (Appended ones).

Definition potential (names : list string) (visitedModelsCount : ledger) : nat :=
  list_sum (List.map (allowance visitedModelsCount) names).

(** A selection carries the alias of [fieldName] in the branch of
    [modelName]: it is the alias itself, for a leaf, or an object with the
    alias under [__alias]. *)
Definition aliasedFor (modelName fieldName : string) (v : jsval) : Prop :=
  v = JStr (aliasForFieldName fieldName modelName) \/
  exists o, v = JObj o /\ Obj.get "__alias" o = Some (JStr (aliasForFieldName fieldName modelName)).

(** Every path below [v] enters at most [b] fragments on [modelName]. *)
Definition pathsBounded (modelName : string) (b : nat) (v : jsval) : Prop :=
  forall p, astPath v p -> (fragmentsOn modelName p <= b)%nat.

(** The same for the fields of a selection set that has no [__on] of its
    own. *)
Definition selectionBounded (modelName : string) (b : nat) (o : obj) : Prop :=
  forall k v, In (k, v) o -> k <> "__on" /\ pathsBounded modelName b v.

(** The same for the branches of an [__on], the fragment that opens a
    branch counted with the paths of the branch. *)
Definition branchesBounded (modelName : string) (b : nat) (branches : obj) : Prop :=
  forall t fields p, In (t, fields) branches -> astPath fields p ->
    (fragmentsOn modelName (Fragment t :: p) <= b)%nat.

(** The bound that the ledger leaves for the selection compiled under it: a
    model is expanded while its count is at most 5, and a reference branch
    is not counted at all. *)
Definition fragmentBound (modelName : string) (visitedModelsCount : ledger) : nat :=
  S (allowance visitedModelsCount modelName).

(** A branch starts with the selection of [id], which is the unaliased
    [id: 1] or carries the alias of [id] for the branch's model; no other
    entry is called [id], and every other entry carries the alias of its
    key for the branch's model. *)
Definition branchAliased (modelName : string) (fields : jsval) : Prop :=
  exists v rest, fields = JObj (("id", v) :: rest) /\
    (v = one \/ aliasedFor modelName "id" v) /\
    ~ In "id" (Obj.keys rest) /\
    forall k v', In (k, v') rest -> aliasedFor modelName k v'.

(** What the compiler keeps for every entry of the selection of [model]:
    the key is the name of a field of the model; the value is the leaf [1]
    or an object without [__alias], and the branches of its [__on], if it
    has one, are aliased. *)
Definition selectionAliased (model : ModelWithContext) (ast : obj) : Prop :=
  forall k v, In (k, v) ast ->
    (exists field, In field (fieldsOf model) /\ k = field_name field) /\
    (v = one \/
     exists o, v = JObj o /\ ~ In "__alias" (Obj.keys o) /\
       forall branches modelName fields,
         In ("__on", JObj branches) o -> In (modelName, fields) branches ->
         branchAliased modelName fields).

(** Some object inside the value, at any depth, has a truthy
    [__typename]. *)
Fixpoint mentionsTypename (v : jsval) : bool :=
  match v with
  | JObj o =>
      match typenameOf o with Some _ => true | None => false end
      || existsb (fun kv => mentionsTypename (snd kv)) o
  | JArr items => existsb mentionsTypename items
  | _ => false
  end.

(** What the claim says of one character of a string literal: a double
    quote becomes backslash quote, a newline becomes backslash n, any other
    character is kept. *)
Definition escapeChar (c : ascii) : string :=
  if Ascii.eqb c dquote then String "\" (String dquote EmptyString)
  else if Ascii.eqb c newline then "\n"
  else String c EmptyString.

Fixpoint escaped (s : string) : string :=
  match s with
  | EmptyString => EmptyString
  | String c s' => escapeChar c +:+ escaped s'
  end.

(** The text of one entry of a serialized object. *)
Definition argEntry (serialize : jsval -> jsval) (kv : string * jsval) : string :=
  fst kv +:+ ": " +:+ toString (serialize (snd kv)).

(** ** Sample schemas *)

Module Sample.

(** A component that nests itself: [Block.children] is a union of [Block]
    and [Text]. *)
Definition text : ModelWithContext :=
  mkModel "Text" "object" (mkContext "Texts" ∅)
    (Some [mkField "body" (FItem (FScalar "string"))]).

Definition block : ModelWithContext :=
  mkModel "Block" "object"
    (mkContext "Blocks" {[ "children" := mkFieldInfo true ]})
    (Some [ mkField "title" (FItem (FScalar "string"));
            mkField "children" (FList (FModel ["Block"; "Text"])) ]).

Definition blocks : gmap string ModelWithContext :=
  {[ "Block" := block; "Text" := text ]}.

(** Six times down [children], each time into the branch of [Block]. *)
Definition sixBlocks : list Step :=
  concat (repeat [Select "children"; Fragment "Block"] 6).

(** A component that nests itself and also refers to itself. *)
Definition tree : ModelWithContext :=
  mkModel "Tree" "object"
    (mkContext "Trees" {[ "children" := mkFieldInfo true; "related" := mkFieldInfo true ]})
    (Some [ mkField "children" (FList (FModel ["Tree"]));
            mkField "related" (FList (FReference ["Tree"])) ]).

Definition trees : gmap string ModelWithContext := {[ "Tree" := tree ]}.

(** A component that nests itself under the name of a property that every
    object inherits. *)
Definition heir : ModelWithContext :=
  mkModel "constructor" "object"
    (mkContext "constructors" {[ "children" := mkFieldInfo true ]})
    (Some [mkField "children" (FList (FModel ["constructor"]))]).

Definition heirs : gmap string ModelWithContext := {[ "constructor" := heir ]}.

(** A deck of cards; a card has a field of its own called [id]. *)
Definition card : ModelWithContext :=
  mkModel "Card" "object" (mkContext "Cards" ∅)
    (Some [ mkField "id" (FItem (FScalar "string"));
            mkField "label" (FItem (FScalar "string")) ]).

Definition deck : ModelWithContext :=
  mkModel "Deck" "data"
    (mkContext "Decks" {[ "cards" := mkFieldInfo true ]})
    (Some [mkField "cards" (FList (FModel ["Card"]))]).

Definition decks : gmap string ModelWithContext := {[ "Deck" := deck; "Card" := card ]}.



(** Six times down [children], then into the reference [related]. *)
Definition sevenTrees : list Step :=
  concat (repeat [Select "children"; Fragment "Tree"] 6)
  ++ [Select "related"; Fragment "Tree"].

(** A page whose [sections] are heroes or quotes; both have a [title], a
    string in one and rich text in the other.  A hero links to pages. *)
Definition hero : ModelWithContext :=
  mkModel "Hero" "object"
    (mkContext "Heroes" {[ "link" := mkFieldInfo false ]})
    (Some [ mkField "title" (FItem (FScalar "string"));
            mkField "link" (FItem (FReference ["Page"])) ]).

Definition quote : ModelWithContext :=
  mkModel "Quote" "object" (mkContext "Quotes" ∅)
    (Some [mkField "title" (FItem FRichText)]).

Definition page : ModelWithContext :=
  mkModel "Page" "data"
    (mkContext "Pages" {[ "sections" := mkFieldInfo true; "related" := mkFieldInfo true ]})
    (Some [ mkField "slug" (FItem (FScalar "slug"));
            mkField "sections" (FList (FModel ["Hero"; "Quote"]));
            mkField "related" (FList (FReference ["Page"; "Post"; "Missing"])) ]).

(** Posts refer to pages and pages to posts: reference cycles only. *)
Definition post : ModelWithContext :=
  mkModel "Post" "data"
    (mkContext "Posts" {[ "page" := mkFieldInfo false; "seeAlso" := mkFieldInfo true ]})
    (Some [ mkField "page" (FItem (FReference ["Page"]));
            mkField "seeAlso" (FList (FReference ["Post"; "Page"])) ]).

Definition site : gmap string ModelWithContext :=
  {[ "Page" := page; "Hero" := hero; "Quote" := quote; "Post" := post ]}.

(** A fetched hero, as the content API answers the aliased selection. *)
Definition fetchedHero : obj :=
  [ ("__typename", JStr "Hero");
    ("id", JStr "h1");
    ("__Hero_alias__title", JStr "Hello");
    ("__Hero_alias__link", JObj [("__typename", JStr "Page"); ("id", JStr "p1")]) ].

(** A page as the content API returns it before and after a publish has
    reached the read path, and the cached copy from before the edit. *)
Definition stalePage : HygraphItem :=
  mkItem "Page" "p1" "2024-05-01T10:00:00Z"
    (Some [mkStage "PUBLISHED" "2024-04-30T09:00:00Z"]) JNull.

Definition freshPage : HygraphItem :=
  mkItem "Page" "p1" "2024-05-01T10:00:05Z"
    (Some [mkStage "PUBLISHED" "2024-05-01T10:00:05Z"]) JNull.

Definition cachedPage : CachedItem := mkCached "2024-05-01T10:00:00Z".

(** A page with two entries of stage [PUBLISHED], the second of which has
    the page's own [updatedAt]. *)
Definition twicePublished : HygraphItem :=
  mkItem "Page" "p1" "2024-05-01T10:00:05Z"
    (Some [ mkStage "PUBLISHED" "2024-04-30T09:00:00Z";
            mkStage "PUBLISHED" "2024-05-01T10:00:05Z" ]) JNull.

(** The read path catches up at the fourth fetch. *)
Definition catchesUp (n : nat) : option HygraphItem :=
  if (n <? 3)%nat then Some stalePage else Some freshPage.


(** The models handed to [getEntries]; pages and posts are of type
    [data]. *)
Definition models : list ModelWithContext := [page; hero; quote; post].

Definition fieldsOrNone (r : res obj) : obj :=
  match r with
  | Ok o => o
  | _ => []
  end.

(** The two streams of the combined query, two entries per page. *)
Definition siteStreams : list Stream :=
  [ mkStream "pagesConnection" 2
      (fieldsOrNone (defaultDocumentQueryFields (fun n => site !! n) 3 page));
    mkStream "postsConnection" 2
      (fieldsOrNone (defaultDocumentQueryFields (fun n => site !! n) 3 post)) ].

(** Three pages in two rounds, one post in one. *)
Definition sitePages (name : string) : nat :=
  if String.eqb name "pagesConnection" then 2%nat else 1%nat.

Definition node (typename id : string) : jsval :=
  JObj [("__typename", JStr typename); ("id", JStr id)].

Definition sitePage (r : nat) (name : string) : Page :=
  if String.eqb name "pagesConnection" then
    match r with
    | O => mkPage [node "Page" "p1"; node "Page" "p2"] 2
    | _ => mkPage [node "Page" "p3"] 2
    end
  else mkPage [node "Post" "q1"] 2.

(** A content API that answers both rounds. *)
Definition answering (r : nat) (query : string) : string + ConnectionResult :=
  match r with
  | 0%nat => inr (responseAt siteStreams sitePages sitePage 0)
  | 1%nat => inr (responseAt siteStreams sitePages sitePage 1)
  | _ => inl "Error: unexpected request"
  end.

(** A content API that fails in the second round. *)
Definition failingSecond (r : nat) (query : string) : string + ConnectionResult :=
  match r with
  | 0%nat => inr (responseAt siteStreams sitePages sitePage 0)
  | _ => inl "Error: socket hang up"
  end.

End Sample.

(** ** Reading strings and selections *)

(** Every whitespace character of the string is a blank that does not
    follow another one; [afterSpace] says that the character before the
    string was a blank. *)
Fixpoint singleSpaced (afterSpace : bool) (s : string) : bool :=
  match s with
  | EmptyString => true
  | String a s' =>
      if isSpace a then Ascii.eqb a " " && negb afterSpace && singleSpaced true s'
      else singleSpaced false s'
  end.

(** The string without its whitespace. *)
Fixpoint withoutSpaces (s : string) : string :=
  match s with
  | EmptyString => EmptyString
  | String a s' => if isSpace a then withoutSpaces s' else String a (withoutSpaces s')
  end.

(** The character occurs in the string. *)
Fixpoint hasChar (c : ascii) (s : string) : bool :=
  match s with
  | EmptyString => false
  | String a s' => Ascii.eqb a c || hasChar c s'
  end.

Definition backslash : ascii := ascii_of_nat 92.

(** A string literal read back: backslash quote is a double quote,
    backslash n is a line break, any other character stands for itself. *)
Fixpoint unescaped (s : string) : string :=
  match s with
  | String a ((String b s'') as s') =>
      if Ascii.eqb a backslash then
        if Ascii.eqb b dquote then String dquote (unescaped s'')
        else if Ascii.eqb b "n" then String newline (unescaped s'')
        else String a (unescaped s')
      else String a (unescaped s')
  | _ => s
  end.

(** The object literal in front of the spread in
    [defaultDocumentQueryFields]. *)
Definition systemFields : obj :=
  [ ("__typename", one); ("id", one); ("createdAt", one);
    ("createdBy", JObj [("id", one)]);
    ("updatedAt", one);
    ("updatedBy", JObj [("id", one)]);
    ("publishedAt", one);
    ("publishedBy", JObj [("id", one)]);
    ("stage", one);
    ("documentInStages",
      JObj [ ("__arguments", JObj [("stages", JObj [("enum", JStr "PUBLISHED")])]);
             ("stage", one); ("updatedAt", one) ]) ].

(** The kinds of field whose case of the [switch] sets [fieldAst[field.name]]
    without a condition: rich text, color, image and the [default] case. *)
Definition isSimpleField (field : Field) : bool :=
  match fieldOrListItem field with
  | FModel _ | FReference _ => false
  | _ => true
  end.

(** [toLowerCaseFirst(model.context!.pluralId) + 'Connection'] *)
Definition connectionName (model : ModelWithContext) : string :=
  toLowerCaseFirst (pluralId (context model)) +:+ "Connection".

(** The offset of [getAssets] after [r] pages: the page sizes reported so
    far. *)
Fixpoint assetsSkipAt (page : nat -> Page) (r : nat) : Z :=
  match r with
  | O => 0
  | S r' => assetsSkipAt page r' + page_size (page r')
  end.

(** The last character of the string is [c]. *)
Fixpoint endsWith (c : ascii) (s : string) : bool :=
  match s with
  | EmptyString => false
  | String a EmptyString => Ascii.eqb a c
  | String _ s' => endsWith c s'
  end.

(** Reading one line of a query: a line that ends with an opening brace
    opens a block, a line that ends with a closing brace closes one, and
    there must be one to close. *)
Definition readLine (depth : nat) (line : string) : option nat :=
  if endsWith "{" line then Some (S depth)
  else if endsWith "}" line then
    match depth with
    | O => None
    | S depth' => Some depth'
    end
  else Some depth.

(** The number of blocks left open after the lines, from [depth] open
    blocks on. *)
Fixpoint openBlocks (depth : nat) (lines : list string) : option nat :=
  match lines with
  | [] => Some depth
  | line :: lines' =>
      match readLine depth line with
      | Some depth' => openBlocks depth' lines'
      | None => None
      end
  end.

(** No key inside the value ends with a brace; the names of GraphQL do
    not. *)
Fixpoint keysWithoutBrace (v : jsval) : bool :=
  match v with
  | JObj o =>
      forallb
        (fun kv => negb (endsWith "{" (fst kv)) && negb (endsWith "}" (fst kv))
                   && keysWithoutBrace (snd kv))
        o
  | _ => true
  end.

(** The line starts with [n] blanks. *)
Definition indented (n : nat) (line : string) : Prop :=
  exists text, line = spaces n +:+ text.

(** ** The other requests of the client *)

(** An [Error] object as a [catch] block reads it: [error.message], and
    [error.toString()] through the name. *)
Record JsError : Type := mkError {
  error_name : string;
  error_message : string
}.

(** [new Error(message)] *)
Definition newError (message : string) : JsError := mkError "Error" message.

(** [Error.prototype.toString] *)
Definition errorToString (error : JsError) : string :=
  if String.eqb (error_name error) "" then error_message error
  else if String.eqb (error_message error) "" then error_name error
  else error_name error +:+ ": " +:+ error_message error.

(** A line break inside a template literal. *)
Definition nl : string := String newline EmptyString.

(** One call of an asynchronous method: what it did to the outside, in
    order, and the value it resolves with or the error it rejects with. *)
Record Ran (E A : Type) : Type := mkRan {
  ran_effects : list E;
  ran_result : res A
}.

Arguments mkRan {E A} ran_effects ran_result.
Arguments ran_effects {E A} r.
Arguments ran_result {E A} r.

Module Client.

(** What a method of [HygraphApiClient] does to the outside, in order: the
    lines it logs and the requests it sends with [contentClient.request],
    by the document sent and its variables. *)
Inductive Effect : Type :=
| Debug (message : string)
| Warn (message : string)
| Request (query : string)
| RequestAssets (first skip : Z)
| RequestCreateAssetWithURL (fileName uploadUrl : string)
| RequestCreateAssetWithPostData (fileName : string)
| Post (url : string) (form : list (string * string)) (file mimeType fileName : string).

Definition isWarn (e : Effect) : bool :=
  match e with Warn _ => true | _ => false end.

Definition isRequest (e : Effect) : bool :=
  match e with Debug _ | Warn _ => false | _ => true end.

(** The message of the warnings that quote the query:
    [`${title}:\n${error.toString()}\nQuery:\n${removeNewLinesAndCollapseSpaces(query)}`] *)
Definition queryWarning (title : string) (error : JsError) (query : string) : string :=
  title +:+ ":" +:+ nl +:+ errorToString error +:+ nl +:+ "Query:" +:+ nl
  +:+ removeNewLinesAndCollapseSpaces query.

Section Requests.

(** [this.contentClient.request(query)]: the data of the response, or the
    error that the promise is rejected with. *)
Variable request : string -> JsError + obj.

(** [getEntryById({ entryId, modelName, getModelByName })]; [fuel] bounds
    the recursion of the compiler, which runs before the [try] block. *)
Definition getEntryById (getModelByName : string -> option ModelWithContext) (fuel : nat)
    (entryId modelName : string) : Ran Effect jsval :=
  match getModelByName modelName with
  | None => mkRan [] (Ok JUndefined)
  | Some model =>
      let queryModelName := toLowerCaseFirst (model_name model) in
      match defaultDocumentQueryFields getModelByName fuel model with
      | Ok fields =>
          let queryAst :=
            [ ("query",
                JObj [ (queryModelName,
                         JObj (Obj.assign
                                 [ ("__arguments",
                                     JObj [ ("stage", JObj [("enum", JStr "DRAFT")]);
                                            ("where", JObj [("id", JStr entryId)]) ]) ]
                                 fields)) ]) ] in
          let query := convertASTToQuery queryAst in
          match request query with
          | inr result =>
              mkRan [Request query]
                (Ok (removeAliasFieldNames (default JUndefined (Obj.get queryModelName result))))
          | inl error =>
              mkRan [Request query; Warn (queryWarning "Error fetching entry by id" error query)]
                (Ok JUndefined)
          end
      | Throw e => mkRan [] (Throw e)
      | OutOfFuel => mkRan [] OutOfFuel
      end
  end.

(** [createEntry({ modelName, data })].  The error thrown for a response
    without the entry is thrown inside the [try] block, and caught by it. *)
Definition createEntry (modelName : string) (data : jsval) : Ran Effect jsval :=
  let createModelName := "create" +:+ modelName in
  let queryAst :=
    [ ("mutation",
        JObj [ (createModelName,
                 JObj [ ("__arguments", JObj [("data", data)]); ("id", one) ]) ]) ] in
  let query := convertASTToQuery queryAst in
  let tried := [Debug ("Create entry: " +:+ removeNewLinesAndCollapseSpaces query); Request query] in
  let caught (error : JsError) :=
    mkRan (tried ++ [Warn (queryWarning "Error creating entry" error query)])
      (Throw (errorToString (newError ("Error creating an entry " +:+ error_message error)))) in
  match request query with
  | inr result =>
      let entry := default JUndefined (Obj.get createModelName result) in
      if truthy entry then mkRan tried (Ok entry)
      else caught (newError "Error creating an entry")
  | inl error => caught error
  end.

(** [updateEntry({ entryId, modelName, data })] *)
Definition updateEntry (entryId modelName : string) (data : jsval) : Ran Effect unit :=
  let updateModelName := "update" +:+ modelName in
  let queryAst :=
    [ ("mutation",
        JObj [ (updateModelName,
                 JObj [ ("__arguments", JObj [ ("where", JObj [("id", JStr entryId)]);
                                               ("data", data) ]);
                        ("id", one) ]) ]) ] in
  let query := convertASTToQuery queryAst in
  let tried :=
    [ Debug ("Updating entry " +:+ entryId +:+ ": " +:+ removeNewLinesAndCollapseSpaces query);
      Request query ] in
  match request query with
  | inr _ => mkRan tried (Ok tt)
  | inl error =>
      mkRan (tried ++ [Warn (queryWarning "Error updating entry" error query)])
        (Throw (errorToString
                  (newError ("Error updating an entry " +:+ entryId +:+ ": "
                             +:+ error_message error))))
  end.

(** [deleteEntry({ entryId, modelName })] *)
Definition deleteEntry (entryId modelName : string) : Ran Effect unit :=
  let deleteModelName := "delete" +:+ modelName in
  let queryAst :=
    [ ("mutation",
        JObj [ (deleteModelName,
                 JObj [ ("__arguments", JObj [("where", JObj [("id", JStr entryId)])]);
                        ("id", one) ]) ]) ] in
  let query := convertASTToQuery queryAst in
  match request query with
  | inr _ => mkRan [Request query] (Ok tt)
  | inl error =>
      mkRan [Request query; Warn (queryWarning "Error deleting entry" error query)]
        (Throw (errorToString
                  (newError ("Error deleting an entry " +:+ entryId +:+ ": "
                             +:+ error_message error))))
  end.

(** [publishEntry({ entryId, modelName })] *)
Definition publishEntry (entryId modelName : string) : Ran Effect unit :=
  let publishModelName := "publish" +:+ modelName in
  let queryAst :=
    [ ("mutation",
        JObj [ (publishModelName,
                 JObj [ ("__arguments", JObj [ ("where", JObj [("id", JStr entryId)]);
                                               ("to", JObj [("enum", JStr "PUBLISHED")]) ]);
                        ("id", one) ]) ]) ] in
  let query := convertASTToQuery queryAst in
  match request query with
  | inr _ => mkRan [Request query] (Ok tt)
  | inl error =>
      mkRan [Request query; Warn (queryWarning "Error publishing entry" error query)] (Ok tt)
  end.

(** [unpublishEntry({ entryId, modelName })] *)
Definition unpublishEntry (entryId modelName : string) : Ran Effect unit :=
  let publishModelName := "unpublish" +:+ modelName in
  let queryAst :=
    [ ("mutation",
        JObj [ (publishModelName,
                 JObj [ ("__arguments", JObj [ ("where", JObj [("id", JStr entryId)]);
                                               ("from", JObj [("enum", JStr "PUBLISHED")]) ]);
                        ("id", one) ]) ]) ] in
  let query := convertASTToQuery queryAst in
  match request query with
  | inr _ => mkRan [Request query] (Ok tt)
  | inl error =>
      mkRan [Request query; Warn (queryWarning "Error unpublishing entry" error query)] (Ok tt)
  end.

End Requests.

Section Assets.

(** [this.contentClient.request(getAssets, { first, skip })], as answered
    to the [round]-th request of one call: the [assetsConnection] of the
    response, or the error of the rejection. *)
Variable requestAssets : nat -> Z -> Z -> JsError + ModelResult.

(** The [do ... while (hasNextPage)] loop of [getAssets] inside its [try]
    block; [fuel] counts the rounds still allowed to the embedding. *)
Fixpoint fetchAssets (fuel round : nat) (first skip : Z) (result : list jsval)
    (sent : list Effect) : Ran Effect (list jsval) :=
  match fuel with
  | O => mkRan sent OutOfFuel
  | S fuel' =>
      let sent' := sent ++ [RequestAssets first skip] in
      match requestAssets round first skip with
      | inl error =>
          mkRan (sent' ++ [Warn ("Error fetching assets:" +:+ nl +:+ errorToString error)])
            (Ok [])
      | inr assetsConnection =>
          let result' := result ++ edges assetsConnection in
          let skip' := skip + pageSize (pageInfo assetsConnection) in
          if hasNextPage (pageInfo assetsConnection)
          then fetchAssets fuel' (S round) first skip' result' sent'
          else mkRan sent' (Ok result')
      end
  end.

(** [getAssets(options)] *)
Definition getAssets (fuel : nat) (maxPaginationSize : option Z) : Ran Effect (list jsval) :=
  fetchAssets fuel 0 (default 100 maxPaginationSize) 0 [] [].

End Assets.

(** [HygraphAssetUploadOptions] *)
Record UploadOptions : Type := mkUpload {
  fileName : string;
  mimeType : string;
  base64 : option string;
  url : option string
}.

(** [upload.requestPostData] *)
Record RequestPostData : Type := mkPostData {
  post_url : string;
  post_date : string;
  post_key : string;
  post_signature : string;
  post_algorithm : string;
  post_policy : string;
  post_credential : string;
  post_securityToken : string
}.

(** [HygraphCreateAssetWithURLResponse] and
    [HygraphCreateAssetWithPostDataResponse]; [upload.error], when there
    is one, by its [message]. *)
Record CreatedWithURL : Type := mkCreatedWithURL {
  url_id : string;
  url_status : string;
  url_error : option string
}.

Record CreatedWithPostData : Type := mkCreatedWithPostData {
  data_id : string;
  data_status : string;
  data_error : option string;
  requestPostData : RequestPostData
}.

Section Upload.

(** The two [createAsset] mutations, [Buffer.from(base64, 'base64')]
    (which throws for a missing string) and [fetch(url, { method: 'POST',
    body })] with the [ok] and [statusText] of its response. *)
Variable requestCreateAssetWithURL : string -> string -> JsError + CreatedWithURL.
Variable requestCreateAssetWithPostData : string -> JsError + CreatedWithPostData.
Variable bufferFrom : option string -> JsError + string.
Variable post : string -> list (string * string) -> string -> JsError + (bool * string).

(** The private [createAssetWithURL(options)] *)
Definition createAssetWithURL (fileName uploadUrl : string) : Ran Effect CreatedWithURL :=
  match requestCreateAssetWithURL fileName uploadUrl with
  | inr createAsset => mkRan [RequestCreateAssetWithURL fileName uploadUrl] (Ok createAsset)
  | inl error =>
      mkRan [ RequestCreateAssetWithURL fileName uploadUrl;
              Warn ("Error creating asset:" +:+ nl +:+ errorToString error) ]
        (Throw (errorToString (newError ("Error creating asset: " +:+ error_message error))))
  end.

(** The private [createAssetWithPostData(options)] *)
Definition createAssetWithPostData (fileName : string) : Ran Effect CreatedWithPostData :=
  match requestCreateAssetWithPostData fileName with
  | inr createAsset => mkRan [RequestCreateAssetWithPostData fileName] (Ok createAsset)
  | inl error =>
      mkRan [ RequestCreateAssetWithPostData fileName;
              Warn ("Error creating asset:" +:+ nl +:+ errorToString error) ]
        (Throw (errorToString (newError ("Error creating asset: " +:+ error_message error))))
  end.

(** The [catch] block of [uploadAsset], for what was thrown with the
    string form [err]. *)
Definition uploadFailed (done : list Effect) (err : string) : Ran Effect (option string) :=
  mkRan (done ++ [Warn ("Error uploading asset:" +:+ nl +:+ err)]) (Ok None).

(** [uploadAsset(options)]: the id of the asset, or [undefined]. *)
Definition uploadAsset (options : UploadOptions) : Ran Effect (option string) :=
  match url options with
  | Some (String _ _ as uploadUrl) =>
      let started := [Debug ("Created asset from URL: " +:+ uploadUrl)] in
      let created := createAssetWithURL (fileName options) uploadUrl in
      let done := started ++ ran_effects created in
      match ran_result created with
      | Ok createAssetResponse =>
          match url_error createAssetResponse with
          | Some message =>
              mkRan (done ++ [Warn ("Error creating asset from URL:" +:+ nl +:+ message)]) (Ok None)
          | None =>
              mkRan (done ++ [Debug ("Created asset from URL, id " +:+ url_id createAssetResponse
                                     +:+ ", status: " +:+ url_status createAssetResponse)])
                (Ok (Some (url_id createAssetResponse)))
          end
      | Throw err => uploadFailed done err
      | OutOfFuel => mkRan done OutOfFuel
      end
  | _ =>
      let started := [Debug "Created asset with post data"] in
      let created := createAssetWithPostData (fileName options) in
      let done := started ++ ran_effects created in
      match ran_result created with
      | Ok createAssetResponse =>
          let data := requestPostData createAssetResponse in
          match data_error createAssetResponse with
          | Some message =>
              mkRan (done ++ [Warn ("Error creating asset with post data:" +:+ nl +:+ message)])
                (Ok None)
          | None =>
              let done' :=
                done ++
                [ Debug ("Created asset with post data, id " +:+ data_id createAssetResponse
                         +:+ ", status: " +:+ data_status createAssetResponse);
                  Debug ("Uploading asset for asset id: " +:+ data_id createAssetResponse) ] in
              let form :=
                [ ("X-Amz-Date", post_date data);
                  ("key", post_key data);
                  ("X-Amz-Signature", post_signature data);
                  ("X-Amz-Algorithm", post_algorithm data);
                  ("policy", post_policy data);
                  ("X-Amz-Credential", post_credential data);
                  ("X-Amz-Security-Token", post_securityToken data) ] in
              match bufferFrom (base64 options) with
              | inl error => uploadFailed done' (errorToString error)
              | inr buffer =>
                  let posted :=
                    done' ++ [Post (post_url data) form buffer (mimeType options)
                                (fileName options)] in
                  match post (post_url data) form buffer with
                  | inl error => uploadFailed posted (errorToString error)
                  | inr (true, _) =>
                      mkRan (posted ++ [Debug ("Uploaded asset for asset id: "
                                               +:+ data_id createAssetResponse)])
                        (Ok (Some (data_id createAssetResponse)))
                  | inr (false, statusText) =>
                      mkRan (posted ++ [Warn ("Error uploading asset: " +:+ statusText)])
                        (Ok None)
                  end
              end
          end
      | Throw err => uploadFailed done err
      | OutOfFuel => mkRan done OutOfFuel
      end
  end.

End Upload.

End Client.
(** ** The content source *)

Module ContentSource.

(** What a method of [HygraphContentSource] does to the outside, in order:
    the lines it logs, its waits and its calls of the client. *)
Inductive Effect : Type :=
| Info (message : string)
| Debug (message : string)
| UserWarn (message : string)
| Sleep (milliseconds : Z)
| GetWebhooks
| UpdateWebhook (webhookId : string)
| CreateWebhook (url environmentId : string)
| UploadAsset (options : Client.UploadOptions)
| GetAssetById (assetId : string)
| PublishEntries (entryMap : gmap string (list string))
| PublishAssets (assetIds : list string)
| UnpublishEntries (entryMap : gmap string (list string))
| UnpublishAssets (assetIds : list string).

(** The calls that reach Hygraph. *)
Definition isCall (e : Effect) : bool :=
  match e with
  | Info _ | Debug _ | UserWarn _ | Sleep _ => false
  | _ => true
  end.

(** The calls that change something in Hygraph. *)
Definition isMutation (e : Effect) : bool :=
  match e with
  | Info _ | Debug _ | UserWarn _ | Sleep _ | GetWebhooks | GetAssetById _ => false
  | _ => true
  end.

Definition isFetch (e : Effect) : bool :=
  match e with GetAssetById _ => true | _ => false end.

Definition isSleep (e : Effect) : bool :=
  match e with Sleep _ => true | _ => false end.

(** *** [createWebhookIfNeeded] and [init] *)

(** A webhook of the environment, as [getWebhooks] lists it. *)
Record Webhook : Type := mkHook {
  hook_id : string;
  hook_name : string;
  hook_url : string;
  hook_isActive : bool
}.

(** [`\x1b[32m${text}\x1b[0m`] *)
Definition green (text : string) : string :=
  String (ascii_of_nat 27) "[32m" +:+ text +:+ String (ascii_of_nat 27) "[0m".

(** The text between double quotes. *)
Definition quoted (text : string) : string :=
  String dquote (text +:+ String dquote EmptyString).

(** [!webhookUrl] *)
Definition unset (webhookUrl : option string) : bool :=
  match webhookUrl with
  | Some (String _ _) => false
  | _ => true
  end.

Section Webhooks.

(** The client: [getWebhooks()] with the environment id and the webhooks,
    [updateWebhook({ webhookId })] and [createWebhook({ url, environmentId })]
    with the id of the created webhook; each one the value it resolves with
    or the error it rejects with. *)
Variable getWebhooks : JsError + (string * list Webhook).
Variable updateWebhook : string -> JsError + unit.
Variable createWebhook : string -> string -> JsError + string.

(** [createWebhookIfNeeded(webhookUrl)] *)
Definition createWebhookIfNeeded (webhookUrl : option string) : Ran Effect unit :=
  match webhookUrl with
  | Some (String _ _ as url) =>
      match getWebhooks with
      | inl error => mkRan [GetWebhooks] (Throw (errorToString error))
      | inr (environmentId, webhooks) =>
          match List.find (fun webhook => String.eqb (hook_url webhook) url) webhooks with
          | Some existingWebhook =>
              if negb (hook_isActive existingWebhook) then
                let done :=
                  [ GetWebhooks;
                    Info ("The provided webhook " +:+ green url
                          +:+ " already exists in Hygraph (" +:+ hook_name existingWebhook
                          +:+ ", but it is not active. Activating webhook...");
                    UpdateWebhook (hook_id existingWebhook) ] in
                match updateWebhook (hook_id existingWebhook) with
                | inl error => mkRan done (Throw (errorToString error))
                | inr _ => mkRan done (Ok tt)
                end
              else
                mkRan
                  [ GetWebhooks;
                    Info ("The provided webhook " +:+ green url
                          +:+ " already exists in Hygraph (" +:+ hook_name existingWebhook
                          +:+ ").") ]
                  (Ok tt)
          | None =>
              let done :=
                [ GetWebhooks;
                  Info ("The provided webhook " +:+ green url
                        +:+ " does not exist in Hygraph. Creating a new webhook...");
                  CreateWebhook url environmentId ] in
              match createWebhook url environmentId with
              | inl error => mkRan done (Throw (errorToString error))
              | inr id => mkRan (done ++ [Info ("Created webhook, id: " +:+ id)]) (Ok tt)
              end
          end
      end
  | _ =>
      mkRan [UserWarn "webhookURL is not set, the visual editor may not work properly!"] (Ok tt)
  end.

(** The notice of [init] for local development without a webhook URL. *)
Definition localDevelopmentNotice : string :=
  "Detected local development without webhook URL"
  +:+ nl +:+ "  While developing locally, you can use webhooks to enable automatic content updates in the visual editor. "
  +:+ nl +:+ "  First, install and start ngrok by typing " +:+ quoted (green "ngrok http 8090")
  +:+ " in a new terminal window. "
  +:+ nl +:+ "  Ngrok will print a public url in the form of https://xyz.ngrok.app or https://xyz.ngrok.io"
  +:+ nl +:+ "  Restart " +:+ quoted "stackbit dev" +:+ " with " +:+ green "--csi-webhook-url"
  +:+ " argument. "
  +:+ nl +:+ "  Set the " +:+ green "--csi-webhook-url"
  +:+ " argument to your ngrok's public URL ending with the "
  +:+ quoted "/_stackbit/onWebhook" +:+ " path. "
  +:+ nl +:+ "  For example: "
  +:+ quoted (green "stackbit dev --csi-webhook-url=https://REPLACE.ngrok.app/_stackbit/onWebhook")
  +:+ nl.

(** [init(options)], from its first log line on; creating the loggers and
    the client does nothing to the outside. *)
Definition init (localDev : bool) (webhookUrl : option string) : Ran Effect unit :=
  let started := [Info "initializing..."] in
  if localDev && unset webhookUrl then
    mkRan (started ++ [Info localDevelopmentNotice]) (Ok tt)
  else
    let created := createWebhookIfNeeded webhookUrl in
    mkRan (started ++ ran_effects created) (ran_result created).

End Webhooks.

(** *** [publishDocuments] and [unpublishDocuments] *)

(** The [id] and [modelName] of a [DocumentWithContext], the [id] of an
    [AssetWithContext]. *)
Record Document : Type := mkDocument {
  doc_id : string;
  doc_modelName : string
}.

Record Asset : Type := mkAsset {
  asset_id : string
}.

Section Publishing.

(** [this.cache.getModelByName] *)
Variable getModelByName : string -> option ModelWithContext.

(** The documents whose model has the plural id [pluralModelName]. *)
Definition ofPluralId (pluralModelName : string) (documents : list Document) : list Document :=
  List.filter
    (fun doc =>
       match getModelByName (doc_modelName doc) with
       | Some model => String.eqb (pluralId (context model)) pluralModelName
       | None => false
       end)
    documents.

(** The callback of [_.reduce(options.documents, ..., {})], the same in
    both methods.  [accum[pluralModelName]] reads an own entry or, failing
    that, what the accumulator inherits. *)
Definition addToEntryMap (accum : gmap string (list string)) (doc : Document)
  : res (gmap string (list string)) :=
  match getModelByName (doc_modelName doc) with
  | None => Throw (typeErrorUndefined "context")
  | Some model =>
      let pluralModelName := pluralId (context model) in
      match accum !! pluralModelName with
      | Some ids => Ok (<[pluralModelName := ids ++ [doc_id doc]]> accum)
      | None =>
          if existsb (String.eqb pluralModelName) objectPrototypeNames
          then Throw "TypeError: accum[pluralModelName].push is not a function"
          else Ok (<[pluralModelName := [doc_id doc]]> accum)
      end
  end.

(** The client: [publishEntries(entryMap)], [publishAssets(assetIds)] and
    their counterparts; [Some error] is a rejection with [error]. *)
Variable publishEntries : gmap string (list string) -> option JsError.
Variable publishAssets : list string -> option JsError.
Variable unpublishEntries : gmap string (list string) -> option JsError.
Variable unpublishAssets : list string -> option JsError.

(** The second half of both methods:
    [if (options.assets.length > 0) { await this.client.(un)publishAssets(assetIds) }] *)
Definition withAssets (send : list string -> Effect) (answer : list string -> option JsError)
    (assets : list Asset) (done : list Effect) : Ran Effect unit :=
  match assets with
  | [] => mkRan done (Ok tt)
  | _ :: _ =>
      let assetIds := List.map asset_id assets in
      match answer assetIds with
      | Some error => mkRan (done ++ [send assetIds]) (Throw (errorToString error))
      | None => mkRan (done ++ [send assetIds]) (Ok tt)
      end
  end.

(** [publishDocuments(options)] *)
Definition publishDocuments (documents : list Document) (assets : list Asset)
  : Ran Effect unit :=
  let started :=
    [ Debug ("publishing " +:+ decimal (Z.of_nat (length documents)) +:+ " documents and "
             +:+ decimal (Z.of_nat (length assets)) +:+ " assets") ] in
  match documents with
  | [] => withAssets PublishAssets publishAssets assets started
  | _ :: _ =>
      match foldM addToEntryMap documents ∅ with
      | Ok entryMap =>
          match publishEntries entryMap with
          | Some error =>
              mkRan (started ++ [PublishEntries entryMap]) (Throw (errorToString error))
          | None =>
              withAssets PublishAssets publishAssets assets (started ++ [PublishEntries entryMap])
          end
      | Throw e => mkRan started (Throw e)
      | OutOfFuel => mkRan started OutOfFuel
      end
  end.

(** [unpublishDocuments(options)] *)
Definition unpublishDocuments (documents : list Document) (assets : list Asset)
  : Ran Effect unit :=
  let started :=
    [ Debug ("unpublishing " +:+ decimal (Z.of_nat (length documents)) +:+ " documents and "
             +:+ decimal (Z.of_nat (length assets)) +:+ " assets") ] in
  match documents with
  | [] => withAssets UnpublishAssets unpublishAssets assets started
  | _ :: _ =>
      match foldM addToEntryMap documents ∅ with
      | Ok entryMap =>
          match unpublishEntries entryMap with
          | Some error =>
              mkRan (started ++ [UnpublishEntries entryMap]) (Throw (errorToString error))
          | None =>
              withAssets UnpublishAssets unpublishAssets assets
                (started ++ [UnpublishEntries entryMap])
          end
      | Throw e => mkRan started (Throw e)
      | OutOfFuel => mkRan started OutOfFuel
      end
  end.

End Publishing.

(** *** [uploadAsset] *)

(** [hygraphAsset.upload?.status], read from the rest of the fetched
    asset. *)
Definition uploadStatus (hygraphAsset : HygraphItem) : jsval :=
  match item_data hygraphAsset with
  | JObj rest =>
      match Obj.get "upload" rest with
      | Some (JObj upload) => default JUndefined (Obj.get "status" upload)
      | _ => JUndefined
      end
  | _ => JUndefined
  end.

(** [hygraphAsset.upload?.status === 'ASSET_CREATE_PENDING'] *)
Definition createPending (hygraphAsset : HygraphItem) : bool :=
  match uploadStatus hygraphAsset with
  | JStr status => String.eqb status "ASSET_CREATE_PENDING"
  | _ => false
  end.

Section Upload.

(** The converted asset of the host and [convertAsset]. *)
Variable ConvertedAsset : Type.
Variable convertAsset : HygraphItem -> ConvertedAsset.

(** The client: [uploadAsset(options)] with the id of the asset or
    [undefined], and [getAssetById(assetId)] as answered at the [n]-th
    fetch of this upload. *)
Variable clientUploadAsset : Client.UploadOptions -> option string.
Variable getAssetById : nat -> string -> option HygraphItem.

(** [do { ... } while (hygraphAsset.upload?.status === 'ASSET_CREATE_PENDING'
    && ++tries < 10)]; [fuel] counts the iterations still allowed to the
    embedding. *)
Fixpoint awaitCreated (assetId : string) (fuel tries : nat) (done : list Effect)
  : Ran Effect HygraphItem :=
  match fuel with
  | O => mkRan done OutOfFuel
  | S fuel' =>
      let waited :=
        if (0 <? tries)%nat then
          done ++ [ Debug "uploadAsset => asset is being created, waiting 500ms and retrying";
                    Sleep 500 ]
        else done in
      let done' := waited ++ [GetAssetById assetId] in
      match getAssetById tries assetId with
      | None => mkRan done' (Throw "Error: Error finding uploaded asset")
      | Some hygraphAsset =>
          if createPending hygraphAsset && (tries + 1 <? 10)%nat
          then awaitCreated assetId fuel' (tries + 1)%nat done'
          else mkRan done' (Ok hygraphAsset)
      end
  end.

(** The effects of the attempt number [tries] of the loop: the debug line
    and the wait before every attempt but the first, then the fetch. *)
Definition pollEffects (assetId : string) (tries : nat) : list Effect :=
  (if (0 <? tries)%nat then
     [ Debug "uploadAsset => asset is being created, waiting 500ms and retrying"; Sleep 500 ]
   else [])
  ++ [GetAssetById assetId].

(** [uploadAsset(options)] *)
Definition uploadAsset (fuel : nat) (options : Client.UploadOptions)
  : Ran Effect ConvertedAsset :=
  let started := [UploadAsset options] in
  match clientUploadAsset options with
  | Some (String _ _ as assetId) =>
      let awaited := awaitCreated assetId fuel 0 started in
      mkRan (ran_effects awaited)
        (hygraphAsset ← ran_result awaited; mret (convertAsset hygraphAsset))
  | _ => mkRan started (Throw "Error: Error uploading asset")
  end.

End Upload.

End ContentSource.

(** ** Sample calls *)

Module Examples.

(** Components only: nothing that [getEntries] would ask for. *)
Definition components : list ModelWithContext := [Sample.hero; Sample.quote].

(** The error of a content API that cannot be reached. *)
Definition offline : JsError := mkError "Error" "connect ECONNREFUSED".

(** Three assets, two per page. *)
Definition assetPage (r : nat) : Page :=
  match r with
  | O => mkPage [Sample.node "Asset" "a1"; Sample.node "Asset" "a2"] 2
  | _ => mkPage [Sample.node "Asset" "a3"] 2
  end.

Definition assetPages (r : nat) (first skip : Z) : JsError + ModelResult :=
  inr (mkModelResult (page_nodes (assetPage r))
         (mkPageInfo (S r <? 2)%nat (page_size (assetPage r)))).

(** The same content API, out of reach at the second request. *)
Definition assetsThenOffline (r : nat) (first skip : Z) : JsError + ModelResult :=
  match r with
  | O => inr (mkModelResult (page_nodes (assetPage 0)) (mkPageInfo true (page_size (assetPage 0))))
  | _ => inl offline
  end.

(** An uploaded asset before and after Hygraph has created it; the third
    fetch finds it created. *)
Definition pendingAsset : HygraphItem :=
  mkItem "Asset" "a1" "2024-05-01T10:00:00Z" (Some [])
    (JObj [("upload", JObj [("status", JStr "ASSET_CREATE_PENDING")])]).

Definition createdAsset : HygraphItem :=
  mkItem "Asset" "a1" "2024-05-01T10:00:02Z" (Some [])
    (JObj [("upload", JObj [("status", JStr "ASSET_UPLOAD_COMPLETE")])]).

Definition beingCreated (n : nat) (assetId : string) : option HygraphItem :=
  if (n <? 2)%nat then Some pendingAsset else Some createdAsset.

Definition picture : Client.UploadOptions :=
  Client.mkUpload "cat.png" "image/png" None (Some "https://example.com/cat.png").

(** Two pages and a post to publish, and the same with a document whose
    model the cache does not know. *)
Definition drafts : list ContentSource.Document :=
  [ ContentSource.mkDocument "p1" "Page";
    ContentSource.mkDocument "q1" "Post";
    ContentSource.mkDocument "p2" "Page" ].

Definition ghost : ContentSource.Document := ContentSource.mkDocument "g1" "Ghost".

(** A page with a title and a rich text called like a system field. *)
Definition signedPage : ModelWithContext :=
  mkModel "Page" "data" (mkContext "Pages" ∅)
    (Some [ mkField "title" (FItem (FScalar "string"));
            mkField "createdBy" (FItem FRichText) ]).

Definition entryMapOr (r : res (gmap string (list string))) : gmap string (list string) :=
  match r with
  | Ok entryMap => entryMap
  | _ => ∅
  end.

End Examples.

(** * Facts *)

(** ** Plain objects *)

Module ObjFacts.

Lemma get_In k v (o : obj) : Obj.get k o = Some v -> In (k, v) o.
Proof.
  induction o as [|[k' v'] o IH]; simpl; [discriminate|].
  destruct (String.eqb_spec k k') as [->|_].
  - intros [= ->]. now left.
  - intros H. right. auto.
Qed.

Lemma keys_In k (o : obj) : In k (Obj.keys o) <-> exists v, In (k, v) o.
Proof.
  unfold Obj.keys. rewrite in_map_iff. split.
  - intros [[k' v] [<- H]]. eauto.
  - intros [v H]. exists (k, v). auto.
Qed.

Lemma get_None k (o : obj) : ~ In k (Obj.keys o) -> Obj.get k o = None.
Proof.
  induction o as [|[k' v] o IH]; simpl; intros H; [reflexivity|].
  destruct (String.eqb_spec k k') as [->|_]; [tauto|]. apply IH. tauto.
Qed.

Lemma get_Some k (o : obj) : In k (Obj.keys o) -> is_Some (Obj.get k o).
Proof.
  induction o as [|[k' v] o IH]; simpl; intros H; [tauto|].
  destruct (String.eqb_spec k k') as [->|Hne]; [eauto|].
  apply IH. destruct H as [H|H]; [congruence|exact H].
Qed.

(** *** Defining a property *)

Lemma In_define k v k0 v0 (o : obj) :
  In (k, v) (Obj.define k0 v0 o) -> (k = k0 /\ v = v0) \/ In (k, v) o.
Proof.
  induction o as [|[k' v'] o IH]; simpl.
  - intros [[= <- <-]|[]]. now left.
  - destruct (String.eqb_spec k0 k') as [->|_]; simpl.
    + intros [[= <- <-]|H]; [now left|right; now right].
    + intros [H|H]; [right; now left|].
      destruct (IH H) as [?|?]; [now left|right; now right].
Qed.

Lemma get_define_eq k v (o : obj) : Obj.get k (Obj.define k v o) = Some v.
Proof.
  induction o as [|[k' v'] o IH]; simpl.
  - now rewrite String.eqb_refl.
  - destruct (String.eqb_spec k k') as [->|Hne]; simpl.
    + now rewrite String.eqb_refl.
    + apply String.eqb_neq in Hne. now rewrite Hne.
Qed.

Lemma get_define_ne k k0 v (o : obj) :
  k <> k0 -> Obj.get k (Obj.define k0 v o) = Obj.get k o.
Proof.
  intros Hne. induction o as [|[k' v'] o IH]; simpl.
  - apply String.eqb_neq in Hne. now rewrite Hne.
  - destruct (String.eqb_spec k0 k') as [->|Hne']; simpl.
    + apply String.eqb_neq in Hne. now rewrite Hne.
    + destruct (String.eqb k k'); auto.
Qed.

Lemma In_define_same k v (o : obj) : In (k, v) (Obj.define k v o).
Proof.
  induction o as [|[k' v'] o IH]; simpl; [now left|].
  destruct (String.eqb_spec k k') as [->|_]; [now left|now right].
Qed.


Lemma define_fresh k v (o : obj) : ~ In k (Obj.keys o) -> Obj.define k v o = o ++ [(k, v)].
Proof.
  induction o as [|[k' v'] o IH]; simpl; intros H; [reflexivity|].
  destruct (String.eqb_spec k k') as [->|_]; [tauto|]. f_equal. apply IH. tauto.
Qed.

Lemma define_keys_NoDup k v (o : obj) :
  List.NoDup (Obj.keys o) -> List.NoDup (Obj.keys (Obj.define k v o)).
Proof.
  induction o as [|[k' v'] o IH]; simpl; intros H.
  - constructor; [intros []|constructor].
  - apply List.NoDup_cons_iff in H as [Hk Ho].
    destruct (String.eqb_spec k k') as [->|Hne]; simpl.
    + apply List.NoDup_cons_iff. auto.
    + apply List.NoDup_cons_iff. split; [|auto].
      intros Hin. apply keys_In in Hin as [v0 Hin].
      apply In_define in Hin as [[-> _]|Hin]; [congruence|].
      apply Hk. apply keys_In. eauto.
Qed.

Lemma define_keys k v (o : obj) :
  exists l, Obj.keys (Obj.define k v o) = Obj.keys o ++ l.
Proof.
  induction o as [|[k' v'] o [l IH]]; simpl.
  - now exists [k].
  - destruct (String.eqb k k'); simpl.
    + exists []. now rewrite app_nil_r.
    + exists l. now rewrite IH.
Qed.

(** *** Assigning to a property *)

(** An assignment defines the property, or it is the assignment to
    [__proto__] that leaves the entries as they are. *)
Lemma set_cases k v (o : obj) :
  Obj.set k v o = Obj.define k v o \/
  (k = "__proto__" /\ Obj.get k o = None /\ Obj.set k v o = o).
Proof.
  unfold Obj.set. destruct (Obj.get k o) eqn:E; [now left|].
  destruct (String.eqb_spec k "__proto__") as [->|_]; [right; auto|now left].
Qed.

Lemma set_define k v (o : obj) : k <> "__proto__" -> Obj.set k v o = Obj.define k v o.
Proof. intros Hk. destruct (set_cases k v o) as [H|(? & _)]; [exact H|contradiction]. Qed.

Lemma set_own k v (o : obj) : In k (Obj.keys o) -> Obj.set k v o = Obj.define k v o.
Proof.
  intros Hk. destruct (set_cases k v o) as [H|(_ & Hnone & _)]; [exact H|].
  destruct (get_Some k o Hk) as [x Hx]. congruence.
Qed.


Lemma In_set k v k0 v0 (o : obj) :
  In (k, v) (Obj.set k0 v0 o) -> (k = k0 /\ v = v0) \/ In (k, v) o.
Proof.
  destruct (set_cases k0 v0 o) as [->|(_ & _ & ->)]; [apply In_define|now right].
Qed.


Lemma get_set_ne k k0 v (o : obj) :
  k <> k0 -> Obj.get k (Obj.set k0 v o) = Obj.get k o.
Proof.
  intros Hne. destruct (set_cases k0 v o) as [->|(_ & _ & ->)]; [|reflexivity].
  now apply get_define_ne.
Qed.

Lemma In_set_same k v (o : obj) : k <> "__proto__" -> In (k, v) (Obj.set k v o).
Proof. intros Hk. rewrite set_define by exact Hk. apply In_define_same. Qed.


Lemma set_fresh k v (o : obj) :
  k <> "__proto__" -> ~ In k (Obj.keys o) -> Obj.set k v o = o ++ [(k, v)].
Proof. intros Hk H. rewrite set_define by exact Hk. now apply define_fresh. Qed.

Lemma set_keys_NoDup k v (o : obj) :
  List.NoDup (Obj.keys o) -> List.NoDup (Obj.keys (Obj.set k v o)).
Proof.
  intros H. destruct (set_cases k v o) as [->|(_ & _ & ->)]; [|exact H].
  now apply define_keys_NoDup.
Qed.

Lemma set_keys k v (o : obj) :
  exists l, Obj.keys (Obj.set k v o) = Obj.keys o ++ l.
Proof.
  destruct (set_cases k v o) as [->|(_ & _ & ->)]; [apply define_keys|].
  exists []. now rewrite app_nil_r.
Qed.

(** No assignment makes [__proto__] a key. *)
Lemma set_no_proto k v (o : obj) :
  ~ In "__proto__" (Obj.keys o) -> ~ In "__proto__" (Obj.keys (Obj.set k v o)).
Proof.
  intros Ho Hin. apply keys_In in Hin as [v' Hin].
  destruct (set_cases k v o) as [E|(_ & _ & E)]; rewrite E in Hin.
  - apply In_define in Hin as [[<- _]|Hin]; [|apply Ho, keys_In; eauto].
    unfold Obj.set in E. rewrite (get_None _ _ Ho) in E. cbn in E.
    apply Ho. rewrite E. apply keys_In. exists v. apply In_define_same.
  - apply Ho, keys_In. eauto.
Qed.

(** *** Spreads *)

Lemma In_assign k v (src target : obj) :
  In (k, v) (Obj.assign target src) -> In (k, v) src \/ In (k, v) target.
Proof.
  unfold Obj.assign. revert target.
  induction src as [|[k' v'] src IH]; simpl; intros target H; [now right|].
  destruct (IH _ H) as [?|H']; [left; now right|].
  apply In_define in H' as [[-> ->]|?]; [left; now left|now right].
Qed.

Lemma In_mapValues k v' f (o : obj) :
  In (k, v') (Obj.mapValues f o) -> exists v, In (k, v) o /\ v' = f v k.
Proof.
  unfold Obj.mapValues. rewrite in_map_iff.
  intros [[k0 v0] [[= <- <-] H]]. eauto.
Qed.

Lemma get_assign_ne k (src target : obj) :
  ~ In k (Obj.keys src) -> Obj.get k (Obj.assign target src) = Obj.get k target.
Proof.
  unfold Obj.assign. revert target.
  induction src as [|[k' v'] src IH]; simpl; intros target Hk; [reflexivity|].
  rewrite IH by tauto. apply get_define_ne. intros ->. tauto.
Qed.

End ObjFacts.

Import ObjFacts.

(** A key is not among the keys of a literal object. *)
Ltac not_among := simpl; intuition discriminate.

(** ** Results *)

Lemma bind_Ok {A B} (r : res A) (k : A -> res B) b :
  r ≫= k = Ok b -> exists a, r = Ok a /\ k a = Ok b.
Proof. destruct r; simpl; try discriminate. eauto. Qed.

(** An invariant of the accumulator survives a loop that ends normally. *)
Lemma foldM_invariant {A B} (P : A -> Prop) (f : A -> B -> res A) l :
  (forall a b a', In b l -> P a -> f a b = Ok a' -> P a') ->
  forall a a', P a -> foldM f l a = Ok a' -> P a'.
Proof.
  induction l as [|b l IH]; simpl; intros Hstep a a' Ha H.
  - now injection H as <-.
  - apply bind_Ok in H as (a1 & H1 & H2).
    eapply IH; [|eapply Hstep; eauto|exact H2]. eauto.
Qed.

Lemma foldM_total {A B} (f : A -> B -> res A) l :
  (forall a b, In b l -> f a b <> OutOfFuel) ->
  forall a, foldM f l a <> OutOfFuel.
Proof.
  induction l as [|b l IH]; simpl; intros Hf a; [discriminate|].
  destruct (f a b) eqn:E; simpl; [auto|discriminate|].
  exfalso. eapply Hf; eauto.
Qed.

(** A loop whose body has settled keeps its result when the body is replaced
    by one that agrees with it wherever it has settled. *)
Lemma foldM_stable {A B} (f g : A -> B -> res A) l :
  (forall a b r, In b l -> f a b = r -> r <> OutOfFuel -> g a b = r) ->
  forall a r, foldM f l a = r -> r <> OutOfFuel -> foldM g l a = r.
Proof.
  induction l as [|b l IH]; simpl; intros Hfg a r H Hr; [exact H|].
  destruct (f a b) eqn:E; simpl in H.
  - rewrite (Hfg a b (Ok a0)); simpl; eauto; discriminate.
  - rewrite (Hfg a b (Throw e)); simpl; eauto; discriminate.
  - congruence.
Qed.

(** ** The compiler terminates *)

Lemma countsOnly_empty : countsOnly ∅.
Proof. intros n ones. now rewrite lookup_empty. Qed.

(** Visiting a model whose name is not inherited counts it. *)
Lemma oneMore_count visited n :
  inherited n = false -> countsOnly visited ->
  oneMore visited n = Count (counted (visited !! n) + 1).
Proof.
  intros Hn Hv. unfold oneMore. specialize (Hv n).
  destruct (visited !! n) as [[c|ones]|]; [reflexivity| |now rewrite Hn].
  exfalso. now apply (Hv ones).
Qed.

Lemma countsOnly_visit visited n :
  inherited n = false -> countsOnly visited -> countsOnly (visitOnceMore visited n).
Proof.
  intros Hn Hv x ones. unfold visitOnceMore.
  destruct (String.eqb_spec x n) as [->|Hne].
  - rewrite lookup_insert_eq, (oneMore_count visited n Hn Hv). discriminate.
  - rewrite lookup_insert_ne by congruence. apply Hv.
Qed.

Lemma allowance_visit_other visited n x :
  x <> n -> allowance (visitOnceMore visited n) x = allowance visited x.
Proof.
  intros Hne. unfold allowance, visitOnceMore.
  rewrite lookup_insert_ne by congruence. reflexivity.
Qed.

Lemma allowance_visit_same visited n :
  inherited n = false -> countsOnly visited ->
  visitedTooOften visited n = false ->
  (S (allowance (visitOnceMore visited n) n) = allowance visited n)%nat.
Proof.
  intros Hn Hv. unfold allowance, visitOnceMore.
  rewrite lookup_insert_eq, (oneMore_count visited n Hn Hv).
  unfold visitedTooOften. cbn [counted].
  destruct (visited !! n) as [[c|ones]|]; cbn [counted]; try (intros _; lia).
  intros H. apply Nat.ltb_ge in H. lia.
Qed.

Lemma allowance_visit_le visited n x :
  inherited n = false -> countsOnly visited ->
  visitedTooOften visited n = false ->
  (allowance (visitOnceMore visited n) x <= allowance visited x)%nat.
Proof.
  intros Hn Hv H. destruct (String.eqb_spec x n) as [->|Hne].
  - apply allowance_visit_same in H; auto. lia.
  - rewrite allowance_visit_other by assumption. lia.
Qed.

(** Visiting a model of the schema once more uses up potential. *)
Lemma potential_visit names visited n :
  In n names -> inherited n = false -> countsOnly visited ->
  visitedTooOften visited n = false ->
  (potential names (visitOnceMore visited n) < potential names visited)%nat.
Proof.
  intros Hin Hn Hc Hv. unfold potential.
  induction names as [|x names IH]; simpl in *; [tauto|].
  assert (Hle : (list_sum (List.map (allowance (visitOnceMore visited n)) names)
                 <= list_sum (List.map (allowance visited) names))%nat).
  { clear IH Hin. induction names as [|y names IH]; simpl; [lia|].
    pose proof (allowance_visit_le visited n y Hn Hc Hv). lia. }
  destruct Hin as [->|Hin].
  - pose proof (allowance_visit_same visited n Hn Hc Hv). lia.
  - pose proof (allowance_visit_le visited n x Hn Hc Hv). specialize (IH Hin). lia.
Qed.

Lemma potential_empty names : potential names ∅ = (6 * length names)%nat.
Proof.
  unfold potential. induction names as [|x names IH]; simpl; [reflexivity|].
  rewrite IH. unfold allowance. rewrite lookup_empty. simpl. lia.
Qed.

Section ConvertFacts.

Variable getModelByName : string -> option ModelWithContext.

(** The body never runs out of fuel by itself: it can only inherit that
    from a recursive call, and it makes one only for a resolvable model
    that the ledger still admits. *)
Lemma convertField_total self model visited fieldAst field :
  (forall n model', getModelByName n = Some model' ->
     visitedTooOften visited n = false ->
     self model' (visitOnceMore visited n) <> OutOfFuel) ->
  convertField getModelByName self model visited fieldAst field <> OutOfFuel.
Proof.
  intros Hself. unfold convertField.
  destruct (fieldOrListItem field) as [| | |models|models|ty]; try discriminate.
  - destruct (fieldInfoOf model (field_name field)) as [info|]; [|discriminate].
    destruct (isMultiModel info).
    + destruct (foldM _ models []) eqn:E; simpl; try discriminate.
      exfalso. revert E. apply foldM_total. intros accum n _.
      unfold multiModelBranch.
      destruct (visitedTooOften visited n) eqn:Ev; [discriminate|].
      destruct (getModelByName n) as [model'|] eqn:Em; [|discriminate].
      specialize (Hself n model' Em Ev).
      destruct (self model' (visitOnceMore visited n)); simpl; congruence.
    + destruct models as [|n [|? ?]]; try discriminate.
      destruct (visitedTooOften visited n) eqn:Ev; [discriminate|].
      destruct (getModelByName n) as [model'|] eqn:Em; [|discriminate].
      specialize (Hself n model' Em Ev).
      destruct (self model' (visitOnceMore visited n)); simpl; congruence.
  - destruct (fieldInfoOf model (field_name field)) as [info|]; [|discriminate].
    destruct (isMultiModel info); [discriminate|].
    destruct models as [|n [|? ?]]; discriminate.
Qed.

Lemma convertField_stable self self' model visited fieldAst field r :
  (forall model' visited' r', self model' visited' = r' -> r' <> OutOfFuel ->
     self' model' visited' = r') ->
  convertField getModelByName self model visited fieldAst field = r -> r <> OutOfFuel ->
  convertField getModelByName self' model visited fieldAst field = r.
Proof.
  intros Hself. unfold convertField.
  destruct (fieldOrListItem field) as [| | |models|models|ty]; try (intros <- _; reflexivity).
  destruct (fieldInfoOf model (field_name field)) as [info|];
    [|intros <- _; reflexivity].
  destruct (isMultiModel info).
  - intros H Hr.
    destruct (foldM (multiModelBranch getModelByName self visited) models []) eqn:E.
    + erewrite foldM_stable; [exact H| |exact E|discriminate].
      intros accum n r' _. unfold multiModelBranch.
      destruct (visitedTooOften visited n); [intros <- _; reflexivity|].
      destruct (getModelByName n) as [model'|]; [|intros <- _; reflexivity].
      destruct (self model' (visitOnceMore visited n)) eqn:Es; simpl.
      * rewrite (Hself _ _ _ Es) by discriminate. auto.
      * rewrite (Hself _ _ _ Es) by discriminate. auto.
      * congruence.
    + erewrite foldM_stable; [exact H| |exact E|discriminate].
      intros accum n r' _. unfold multiModelBranch.
      destruct (visitedTooOften visited n); [intros <- _; reflexivity|].
      destruct (getModelByName n) as [model'|]; [|intros <- _; reflexivity].
      destruct (self model' (visitOnceMore visited n)) eqn:Es; simpl.
      * rewrite (Hself _ _ _ Es) by discriminate. auto.
      * rewrite (Hself _ _ _ Es) by discriminate. auto.
      * congruence.
    + simpl in H. congruence.
  - destruct models as [|n [|? ?]]; try (intros <- _; reflexivity).
    destruct (visitedTooOften visited n); [intros <- _; reflexivity|].
    destruct (getModelByName n) as [model'|]; [|intros <- _; reflexivity].
    destruct (self model' (visitOnceMore visited n)) eqn:Es; simpl.
    + rewrite (Hself _ _ _ Es) by discriminate. auto.
    + rewrite (Hself _ _ _ Es) by discriminate. auto.
    + congruence.
Qed.

(** More fuel does not change a result that was reached. *)
Lemma convert_step fuel : forall model visited r,
  convertFieldsToQueryAST getModelByName fuel model visited = r -> r <> OutOfFuel ->
  convertFieldsToQueryAST getModelByName (S fuel) model visited = r.
Proof.
  induction fuel as [|fuel IH]; intros model visited r H Hr.
  - simpl in H. congruence.
  - change (foldM (convertField getModelByName
                     (convertFieldsToQueryAST getModelByName (S fuel)) model visited)
              (fieldsOf model) [] = r).
    eapply foldM_stable; [|exact H|exact Hr].
    intros fieldAst field r' _. apply convertField_stable. exact IH.
Qed.

Lemma convert_more_fuel fuel fuel' model visited r :
  convertFieldsToQueryAST getModelByName fuel model visited = r -> r <> OutOfFuel ->
  (fuel <= fuel')%nat ->
  convertFieldsToQueryAST getModelByName fuel' model visited = r.
Proof.
  intros H Hr Hle. induction Hle as [|fuel' _ IH]; [exact H|].
  apply convert_step; assumption.
Qed.

(** With fuel above the potential of the ledger the compiler finishes. *)
Lemma convert_total names :
  (forall n model, getModelByName n = Some model -> In n names /\ inherited n = false) ->
  forall fuel model visited,
    countsOnly visited ->
    (potential names visited < fuel)%nat ->
    convertFieldsToQueryAST getModelByName fuel model visited <> OutOfFuel.
Proof.
  intros Hnames. induction fuel as [|fuel IH]; intros model visited Hc Hlt; [lia|].
  simpl. apply foldM_total. intros fieldAst field _.
  apply convertField_total. intros n model' Em Ev.
  destruct (Hnames _ _ Em) as [Hin Hn].
  apply IH; [now apply countsOnly_visit|].
  pose proof (potential_visit names visited n Hin Hn Hc Ev). lia.
Qed.

End ConvertFacts.

(** ** Fragments along a path *)

Lemma hasPath_astPath p : forall v, hasPath v p = true -> astPath v p.
Proof.
  induction p as [|[k|t] p IH]; intros v H; [constructor| |].
  - destruct v; simpl in H; try discriminate.
    apply andb_true_iff in H as [Hk H].
    destruct (Obj.get k entries) as [v'|] eqn:E; [|discriminate].
    apply path_field with (v := v'); auto using ObjFacts.get_In.
    apply negb_true_iff, String.eqb_neq in Hk. exact Hk.
  - destruct v; simpl in H; try discriminate.
    destruct (Obj.get "__on" entries) as [[| | | | | |branches]|] eqn:E; try discriminate.
    destruct (Obj.get t branches) as [fields|] eqn:E'; [|discriminate].
    eapply path_fragment; eauto using ObjFacts.get_In.
Qed.

Lemma pathsBounded_weaken m b b' v :
  (b <= b')%nat -> pathsBounded m b v -> pathsBounded m b' v.
Proof. intros Hle H p Hp. specialize (H p Hp). lia. Qed.

Lemma pathsBounded_scalar m b v :
  (forall o, v <> JObj o) -> pathsBounded m b v.
Proof.
  intros Hv p Hp. inversion Hp; subst.
  - unfold fragmentsOn. simpl. lia.
  - exfalso. eapply Hv. reflexivity.
  - exfalso. eapply Hv. reflexivity.
Qed.

Lemma pathsBounded_obj m b (o : obj) :
  (forall k v, In (k, v) o -> k <> "__on" -> pathsBounded m b v) ->
  (forall branches, In ("__on", JObj branches) o -> branchesBounded m b branches) ->
  pathsBounded m b (JObj o).
Proof.
  intros Hf Hb p Hp. inversion Hp; subst.
  - unfold fragmentsOn. simpl. lia.
  - change (fragmentsOn m p0 <= b)%nat. eapply Hf; eauto.
  - eapply Hb; eauto.
Qed.

Lemma pathsBounded_obj_inv m b (o : obj) :
  pathsBounded m b (JObj o) ->
  (forall k v, In (k, v) o -> k <> "__on" -> pathsBounded m b v) /\
  (forall branches, In ("__on", JObj branches) o -> branchesBounded m b branches).
Proof.
  intros H. split.
  - intros k v Hin Hk p Hp.
    change (fragmentsOn m (Select k :: p) <= b)%nat.
    apply H. econstructor; eauto.
  - intros branches Hin t fields p Ht Hp. apply H. econstructor; eauto.
Qed.

Lemma selectionBounded_obj m b (o : obj) :
  selectionBounded m b o -> pathsBounded m b (JObj o).
Proof.
  intros H. apply pathsBounded_obj.
  - intros k v Hin _. apply (H k v Hin).
  - intros branches Hin. destruct (H _ _ Hin) as [Hk _]. congruence.
Qed.

Lemma selectionBounded_set m b k v (o : obj) :
  k <> "__on" -> pathsBounded m b v -> selectionBounded m b o ->
  selectionBounded m b (Obj.set k v o).
Proof.
  intros Hk Hv Ho k' v' Hin.
  apply ObjFacts.In_set in Hin as [[-> ->]|Hin]; auto.
Qed.

Lemma selectionBounded_assign m b (src target : obj) :
  selectionBounded m b src -> selectionBounded m b target ->
  selectionBounded m b (Obj.assign target src).
Proof.
  intros Hs Ht k v Hin. apply ObjFacts.In_assign in Hin as [?|?]; auto.
Qed.

Lemma selectionBounded_leaves m b (ks : list string) :
  ~ In "__on" ks -> selectionBounded m b (List.map (fun k => (k, one)) ks).
Proof.
  intros Hks k v Hin. apply in_map_iff in Hin as (k' & [= <- <-] & Hin). split.
  - intros ->. tauto.
  - apply pathsBounded_scalar. discriminate.
Qed.

(** An alias on a selection adds no fragment. *)
Lemma pathsBounded_alias m b modelName fieldName v :
  pathsBounded m b v -> pathsBounded m b (aliasModelField modelName v fieldName).
Proof.
  intros Hv. unfold aliasModelField.
  assert (Halias : forall o, (forall k v', In (k, v') o -> k <> "__on" -> pathsBounded m b v') ->
            (forall branches, In ("__on", JObj branches) o -> branchesBounded m b branches) ->
            pathsBounded m b
              (JObj (Obj.assign [("__alias", JStr (aliasForFieldName fieldName modelName))] o))).
  { intros o Hf Hb. apply pathsBounded_obj.
    - intros k v' Hin Hk. apply ObjFacts.In_assign in Hin as [Hin|[[= <- <-]|[]]]; eauto.
      apply pathsBounded_scalar. discriminate.
    - intros branches Hin. apply ObjFacts.In_assign in Hin as [Hin|[[=]|[]]]; eauto. }
  destruct v as [| | |n|s|items|o]; try (apply (Halias []); simpl; tauto).
  - destruct n as [|[| |]|]; try (apply (Halias []); simpl; tauto).
    apply pathsBounded_scalar. discriminate.
  - apply pathsBounded_obj_inv in Hv as [Hf Hb]. apply Halias; assumption.
Qed.

Lemma fragmentsOn_cons_other m t p :
  t <> m -> fragmentsOn m (Fragment t :: p) = fragmentsOn m p.
Proof.
  intros Hne. unfold fragmentsOn. simpl.
  apply String.eqb_neq in Hne. now rewrite Hne.
Qed.

Lemma fragmentsOn_cons_same m p :
  fragmentsOn m (Fragment m :: p) = S (fragmentsOn m p).
Proof. unfold fragmentsOn. simpl. now rewrite String.eqb_refl. Qed.

Lemma fragmentBound_visit m visited n :
  inherited n = false -> countsOnly visited ->
  visitedTooOften visited n = false ->
  (if String.eqb n m then S (fragmentBound m (visitOnceMore visited n))
   else fragmentBound m (visitOnceMore visited n)) = fragmentBound m visited.
Proof.
  intros Hn Hc Hv. unfold fragmentBound.
  destruct (String.eqb_spec n m) as [->|Hne].
  - now rewrite allowance_visit_same.
  - now rewrite allowance_visit_other by congruence.
Qed.

Lemma leaves_bounded m b (ks : list string) :
  ~ In "__on" ks -> pathsBounded m b (JObj (List.map (fun k => (k, one)) ks)).
Proof. intros H. apply selectionBounded_obj, selectionBounded_leaves, H. Qed.

Lemma plainFieldNames_In model field :
  plainFieldNames model = true -> In field (fieldsOf model) ->
  field_name field <> "__on" /\ field_name field <> "__alias"
  /\ field_name field <> "__arguments".
Proof.
  unfold plainFieldNames. rewrite forallb_forall. intros H Hin.
  specialize (H field Hin). apply negb_true_iff in H.
  apply orb_false_iff in H as [H H3]. apply orb_false_iff in H as [H1 H2].
  apply String.eqb_neq in H1, H2, H3. auto.
Qed.

(** The branches of a multi-model reference all select just [id]. *)
Lemma referenceBranch_In getModelByName models : forall accum t fields,
  In (t, fields) (fold_left (referenceBranch getModelByName) models accum) ->
  In (t, fields) accum \/
  (In t models /\ is_Some (getModelByName t) /\ fields = JObj [("id", one)]).
Proof.
  induction models as [|n models IH]; simpl; intros accum t fields H; [now left|].
  apply IH in H as [H|(? & ? & ?)]; [|right; auto].
  unfold referenceBranch in H. destruct (getModelByName n) eqn:E; [|now left].
  apply ObjFacts.In_set in H as [[-> ->]|H]; [right|now left].
  split; [now left|]. split; [rewrite E; eauto|reflexivity].
Qed.

Section Bound.

Variable getModelByName : string -> option ModelWithContext.
Variable m : string.

Hypothesis schema_plain :
  forall n model, getModelByName n = Some model -> plainFieldNames model = true.

Hypothesis schema_named :
  forall n model, getModelByName n = Some model -> inherited n = false.

Lemma multiModelBranch_bounded self visited accum n accum' :
  (forall model' ast, getModelByName n = Some model' ->
     visitedTooOften visited n = false ->
     self model' (visitOnceMore visited n) = Ok ast ->
     selectionBounded m (fragmentBound m (visitOnceMore visited n)) ast) ->
  countsOnly visited ->
  branchesBounded m (fragmentBound m visited) accum ->
  multiModelBranch getModelByName self visited accum n = Ok accum' ->
  branchesBounded m (fragmentBound m visited) accum'.
Proof.
  intros Hself Hc Hacc. unfold multiModelBranch.
  destruct (visitedTooOften visited n) eqn:Ev; [intros [= <-]; exact Hacc|].
  destruct (getModelByName n) as [model'|] eqn:Em; [|intros [= <-]; exact Hacc].
  intros H. apply bind_Ok in H as (modelFields & Hs & [= <-]).
  specialize (Hself _ _ eq_refl eq_refl Hs).
  intros t fields p Hin Hp.
  apply ObjFacts.In_set in Hin as [[-> ->]|Hin]; [|eapply Hacc; eauto].
  assert (Hb : (fragmentsOn m p <= fragmentBound m (visitOnceMore visited n))%nat).
  { revert p Hp. apply selectionBounded_obj, selectionBounded_assign.
    - intros k v' Hin. apply ObjFacts.In_mapValues in Hin as (v & Hin & ->).
      destruct (Hself _ _ Hin) as [Hk Hv]. split; [exact Hk|].
      apply pathsBounded_alias, Hv.
    - apply (selectionBounded_leaves m _ ["id"]). not_among. }
  pose proof (fragmentBound_visit m visited n (schema_named _ _ Em) Hc Ev) as Hvisit.
  destruct (String.eqb_spec n m) as [->|Hne].
  - rewrite fragmentsOn_cons_same. lia.
  - rewrite fragmentsOn_cons_other by assumption. lia.
Qed.

Lemma convertField_bounded self model visited fieldAst field fieldAst' :
  (forall n model' ast, getModelByName n = Some model' ->
     visitedTooOften visited n = false ->
     self model' (visitOnceMore visited n) = Ok ast ->
     selectionBounded m (fragmentBound m (visitOnceMore visited n)) ast) ->
  countsOnly visited ->
  field_name field <> "__on" ->
  selectionBounded m (fragmentBound m visited) fieldAst ->
  convertField getModelByName self model visited fieldAst field = Ok fieldAst' ->
  selectionBounded m (fragmentBound m visited) fieldAst'.
Proof.
  intros Hself Hc Hname Hacc. unfold convertField.
  destruct (fieldOrListItem field) as [| | |models|models|ty].
  - intros [= <-]. apply selectionBounded_set; auto.
    apply (leaves_bounded m _ ["__typename"; "markdown"; "text"]).
    not_among.
  - intros [= <-]. apply selectionBounded_set; auto.
    apply (leaves_bounded m _ ["__typename"; "hex"]).
    not_among.
  - intros [= <-]. apply selectionBounded_set; auto.
    apply (leaves_bounded m _ ["__typename"; "id"]).
    not_among.
  - destruct (fieldInfoOf model (field_name field)) as [info|]; [|discriminate].
    destruct (isMultiModel info).
    + intros H. apply bind_Ok in H as (branches & Hb & [= <-]).
      apply selectionBounded_set; auto.
      assert (Hbranches : branchesBounded m (fragmentBound m visited) branches).
      { revert Hb. apply foldM_invariant.
        - intros accum n accum' _ Ha. apply multiModelBranch_bounded; auto.
          intros model' ast. apply Hself.
        - intros t fields p []. }
      apply pathsBounded_obj.
      * intros k v [[= <- <-]|[[= <- <-]|[]]] Hk; [|congruence].
        apply pathsBounded_scalar. discriminate.
      * intros bs [[=]|[[= <-]|[]]]. exact Hbranches.
    + destruct models as [|n [|? ?]]; try (intros [= <-]; exact Hacc).
      destruct (visitedTooOften visited n) eqn:Ev; [intros [= <-]; exact Hacc|].
      destruct (getModelByName n) as [model'|] eqn:Em; [|intros [= <-]; exact Hacc].
      intros H. apply bind_Ok in H as (nested & Hs & [= <-]).
      apply selectionBounded_set; auto.
      specialize (Hself _ _ _ Em Ev Hs).
      pose proof (fragmentBound_visit m visited n (schema_named _ _ Em) Hc Ev) as Hvisit.
      apply pathsBounded_weaken with (b := fragmentBound m (visitOnceMore visited n)).
      { destruct (String.eqb n m); lia. }
      apply selectionBounded_obj, selectionBounded_assign; [exact Hself|].
      apply (selectionBounded_leaves m _ ["__typename"; "id"]).
      not_among.
  - destruct (fieldInfoOf model (field_name field)) as [info|]; [|discriminate].
    destruct (isMultiModel info).
    + intros [= <-]. apply selectionBounded_set; auto.
      apply pathsBounded_obj.
      * intros k v [[= <- <-]|[[= <- <-]|[]]] Hk; [|congruence].
        apply pathsBounded_scalar. discriminate.
      * intros bs [[=]|[[= <-]|[]]] t fields p Hin Hp.
        apply referenceBranch_In in Hin as [[]|(_ & _ & ->)].
        assert (H0 : (fragmentsOn m p <= 0)%nat).
        { revert p Hp. apply (leaves_bounded m 0%nat ["id"]). not_among. }
        unfold fragmentBound.
        destruct (String.eqb_spec t m) as [->|Hne].
        -- rewrite fragmentsOn_cons_same. lia.
        -- rewrite fragmentsOn_cons_other by assumption. lia.
    + destruct models as [|n [|? ?]]; try (intros [= <-]; exact Hacc).
      intros [= <-]. apply selectionBounded_set; auto.
      apply (leaves_bounded m _ ["__typename"; "id"]).
      not_among.
  - intros [= <-]. apply selectionBounded_set; auto.
    apply pathsBounded_scalar. discriminate.
Qed.

(** Under a ledger, the compiled selection stays within the bound that the
    ledger leaves. *)
Lemma convert_bounded fuel : forall model visited ast,
  plainFieldNames model = true ->
  countsOnly visited ->
  convertFieldsToQueryAST getModelByName fuel model visited = Ok ast ->
  selectionBounded m (fragmentBound m visited) ast.
Proof.
  induction fuel as [|fuel IH]; intros model visited ast Hplain Hc H; [discriminate|].
  simpl in H. revert H. apply foldM_invariant.
  - intros fieldAst field fieldAst' Hin Hacc.
    apply convertField_bounded; auto.
    + intros n model' ast' Em _. apply IH; [eapply schema_plain; eauto|].
      apply countsOnly_visit; [eapply schema_named; eauto|exact Hc].
    + apply (plainFieldNames_In model field Hplain Hin).
  - intros k v [].
Qed.

End Bound.

(** ** C1 *)

Lemma inherited_false n :
  (forall name, In name objectPrototypeNames -> name <> n) -> inherited n = false.
Proof.
  intros H. unfold inherited. apply not_true_is_false. intros Ht.
  apply existsb_exists in Ht as (name & Hname & Heq). apply String.eqb_eq in Heq.
  now apply (H name).
Qed.

(** C1, as amended.  For every finite schema in which no model goes by the
    name of a property that every object inherits from [Object.prototype],
    and for every root model, all of them with field names that are none of
    the keys that the serializer reads as syntax, [convertFieldsToQueryAST]
    terminates: with any fuel above six times the number of models it gives
    one and the same result, which is not [OutOfFuel].  When that result is
    an AST, no path through it enters more than 7 inline fragments on the
    same model: the ledger admits a model while its count is at most 5,
    which is six expansions, and a branch of a multi-model reference, which
    is never counted, can follow. *)
Theorem C1_compilation_terminates_within_bound
    (modelsByName : gmap string ModelWithContext) (root : ModelWithContext) :
  plainFieldNames root = true ->
  map_Forall (fun _ model => plainFieldNames model = true) modelsByName ->
  (forall name, In name objectPrototypeNames -> modelsByName !! name = None) ->
  exists r,
    r <> OutOfFuel /\
    (forall fuel, (6 * size modelsByName < fuel)%nat ->
       convertFieldsToQueryAST (fun n => modelsByName !! n) fuel root ∅ = r) /\
    (forall ast, r = Ok ast ->
       forall modelName p, astPath (JObj ast) p -> (fragmentsOn modelName p <= 7)%nat).
Proof.
  intros Hroot Hschema Hown.
  set (names := (map_to_list modelsByName).*1).
  assert (Hnamed : forall n model, modelsByName !! n = Some model -> inherited n = false).
  { intros n model H. apply inherited_false. intros name Hname ->.
    rewrite (Hown n Hname) in H. discriminate. }
  assert (Hnames : forall n model, modelsByName !! n = Some model ->
            In n names /\ inherited n = false).
  { intros n model H. split; [|eapply Hnamed; eauto].
    apply list_elem_of_In. unfold names.
    apply (list_elem_of_fmap_2 fst _ (n, model)). now apply elem_of_map_to_list. }
  assert (Hlen : length names = size modelsByName).
  { unfold names. now rewrite length_fmap, length_map_to_list. }
  set (fuel0 := S (6 * size modelsByName)).
  exists (convertFieldsToQueryAST (fun n => modelsByName !! n) fuel0 root ∅).
  assert (Hfin : convertFieldsToQueryAST (fun n => modelsByName !! n) fuel0 root ∅ <> OutOfFuel).
  { apply (convert_total _ names Hnames); [apply countsOnly_empty|].
    rewrite potential_empty, Hlen. unfold fuel0. lia. }
  split; [exact Hfin|]. split.
  - intros fuel Hfuel. eapply convert_more_fuel; [reflexivity|exact Hfin|unfold fuel0; lia].
  - intros ast Hast modelName p Hp.
    assert (Hb : selectionBounded modelName (fragmentBound modelName ∅) ast).
    { eapply convert_bounded; [| |exact Hroot|apply countsOnly_empty|exact Hast].
      - intros n model H. exact (Hschema n model H).
      - exact Hnamed. }
    apply selectionBounded_obj in Hb. specialize (Hb p Hp).
    unfold fragmentBound, allowance in Hb. rewrite lookup_empty in Hb. simpl in Hb. lia.
Qed.

(** The theorem at the sample schema. *)
Lemma C1_witness :
  exists r,
    r <> OutOfFuel /\
    (forall fuel, (6 * size Sample.blocks < fuel)%nat ->
       convertFieldsToQueryAST (fun n => Sample.blocks !! n) fuel Sample.block ∅ = r) /\
    (forall ast, r = Ok ast ->
       forall modelName p, astPath (JObj ast) p -> (fragmentsOn modelName p <= 7)%nat).
Proof.
  apply (C1_compilation_terminates_within_bound Sample.blocks Sample.block).
  - reflexivity.
  - apply map_Forall_insert_2; [reflexivity|].
    apply map_Forall_singleton. reflexivity.
  - intros name Hname. cbn in Hname.
    repeat (destruct Hname as [<-|Hname]; [reflexivity|]). destruct Hname.
Defined.

(** The condition on the names of the models is needed.  A component
    called [constructor] that nests itself is never elided: the ledger
    [{}] reads the inherited [Object] under that name, and from then on a
    text, neither of which is above 5.  The recursion does not end (in
    JavaScript, until the call stack is used up). *)
Example inherited_model_name_is_never_elided (fuel : nat) :
  convertFieldsToQueryAST (fun n => Sample.heirs !! n) fuel Sample.heir ∅ = OutOfFuel.
Proof.
  assert (Hgen : forall visited : ledger,
            (forall c, visited !! "constructor" <> Some (Count c)) ->
            convertFieldsToQueryAST (fun n => Sample.heirs !! n) fuel Sample.heir visited
            = OutOfFuel).
  { induction fuel as [|fuel IH]; intros visited Hv; [reflexivity|].
    cbn [convertFieldsToQueryAST]. change (fieldsOf Sample.heir)
      with [mkField "children" (FList (FModel ["constructor"]))].
    cbn [foldM]. unfold convertField at 1.
    change (fieldOrListItem (mkField "children" (FList (FModel ["constructor"]))))
      with (FModel ["constructor"]).
    change (fieldInfoOf Sample.heir _) with (Some (mkFieldInfo true)).
    cbn [isMultiModel foldM]. unfold multiModelBranch at 1.
    assert (Ev : visitedTooOften visited "constructor" = false).
    { unfold visitedTooOften. specialize (Hv).
      destruct (visited !! "constructor") as [[c|ones]|] eqn:E; try reflexivity.
      exfalso. now apply (Hv c). }
    rewrite Ev. change (Sample.heirs !! "constructor") with (Some Sample.heir).
    cbv iota beta. rewrite IH; [reflexivity|].
    intros c. unfold visitOnceMore. rewrite lookup_insert_eq. unfold oneMore.
    destruct (visited !! "constructor") as [[c'|ones]|] eqn:E; try discriminate.
    exfalso. now apply (Hv c'). }
  apply Hgen. intros c. now rewrite lookup_empty.
Qed.

(** C1 as stated fails: in the sample schema the compiled selection of
    [Block] has a path that enters the fragment on [Block] six times, one
    more than the stated bound of 5. *)
Lemma C1_bound_of_five_exceeded :
  ~ (forall fuel ast p,
       convertFieldsToQueryAST (fun n => Sample.blocks !! n) fuel Sample.block ∅ = Ok ast ->
       astPath (JObj ast) p -> (fragmentsOn "Block" p <= 5)%nat).
Proof.
  intros H.
  destruct (convertFieldsToQueryAST (fun n => Sample.blocks !! n) 8 Sample.block ∅)
    as [ast| |] eqn:E; [|vm_compute in E; discriminate E..].
  specialize (H 8%nat ast Sample.sixBlocks E).
  assert (Hp : hasPath (JObj ast) Sample.sixBlocks = true).
  { vm_compute in E. injection E as <-. vm_compute. reflexivity. }
  specialize (H (hasPath_astPath _ _ Hp)). vm_compute in H. lia.
Qed.

(** The bound of 7 is reached: six expansions of [Tree] and the branch of
    the reference in the innermost one. *)
Example seven_fragments_are_reached :
  exists ast,
    convertFieldsToQueryAST (fun n => Sample.trees !! n) 7 Sample.tree ∅ = Ok ast /\
    astPath (JObj ast) Sample.sevenTrees /\
    fragmentsOn "Tree" Sample.sevenTrees = 7%nat.
Proof.
  eexists. split; [vm_compute; reflexivity|]. split; [|reflexivity].
  apply hasPath_astPath. vm_compute. reflexivity.
Qed.

(** ** The keys of a selection *)

Lemma assign_keys (src target : obj) :
  exists l, Obj.keys (Obj.assign target src) = Obj.keys target ++ l.
Proof.
  unfold Obj.assign. revert target.
  induction src as [|[k v] src IH]; intros target; simpl.
  - exists []. now rewrite app_nil_r.
  - destruct (IH (Obj.define k v target)) as [l ->].
    destruct (define_keys k v target) as [l' ->].
    exists (l' ++ l). now rewrite app_assoc.
Qed.

Lemma set_key_In k v (o : obj) : k <> "__proto__" -> In k (Obj.keys (Obj.set k v o)).
Proof. intros Hk. apply keys_In. exists v. now apply In_set_same. Qed.

Lemma set_keys_sub k0 k v (o : obj) :
  In k0 (Obj.keys (Obj.set k v o)) -> k0 = k \/ In k0 (Obj.keys o).
Proof.
  intros H. apply keys_In in H as [v0 H]. apply In_set in H as [[-> _]|H]; [now left|].
  right. apply keys_In. eauto.
Qed.

Lemma set_keys_mono k0 k v (o : obj) :
  In k0 (Obj.keys o) -> In k0 (Obj.keys (Obj.set k v o)).
Proof. intros H. destruct (set_keys k v o) as [l ->]. apply in_or_app. now left. Qed.

Lemma set_keys_In k0 k v (o : obj) :
  k <> "__proto__" ->
  In k0 (Obj.keys (Obj.set k v o)) <-> k0 = k \/ In k0 (Obj.keys o).
Proof.
  intros Hk. split; [apply set_keys_sub|].
  intros [->|H]; [now apply set_key_In|now apply set_keys_mono].
Qed.

(** The keys of a spread: those of the target, then the new ones of the
    source. *)
Lemma assign_keys_order (src : obj) : forall target,
  List.NoDup (Obj.keys src) ->
  Obj.keys (Obj.assign target src)
  = Obj.keys target
    ++ List.filter (fun k => negb (existsb (String.eqb k) (Obj.keys target))) (Obj.keys src).
Proof.
  unfold Obj.assign.
  induction src as [|[k v] src IH]; intros target Hnd; cbn [fold_left fst snd].
  - cbn. now rewrite app_nil_r.
  - cbn [Obj.keys List.map fst] in Hnd. apply List.NoDup_cons_iff in Hnd as [Hk Hnd].
    rewrite (IH _ Hnd). cbn [Obj.keys List.map fst List.filter].
    fold (Obj.keys src). fold (Obj.keys target).
    destruct (existsb (String.eqb k) (Obj.keys target)) eqn:E; cbn [negb].
    + apply existsb_exists in E as (k' & Hk' & Heq). apply String.eqb_eq in Heq. subst k'.
      apply keys_In in Hk' as [v' Hk'].
      assert (Hsame : Obj.keys (Obj.define k v target) = Obj.keys target).
      { clear -Hk'. induction target as [|[k0 v0] target IHt]; [destruct Hk'|].
        cbn [Obj.define]. destruct (String.eqb_spec k k0) as [->|Hne]; [reflexivity|].
        cbn [Obj.keys List.map fst]. f_equal. apply IHt.
        destruct Hk' as [[= <- <-]|Hk']; [congruence|exact Hk']. }
      now rewrite Hsame.
    + assert (Hfresh : ~ In k (Obj.keys target)).
      { intros Hin. apply not_true_iff_false in E. apply E. apply existsb_exists.
        exists k. split; [exact Hin|apply String.eqb_refl]. }
      rewrite (define_fresh k v target Hfresh).
      unfold Obj.keys at 1 2. rewrite List.map_app. cbn [List.map fst].
      fold (Obj.keys target). rewrite <- app_assoc. cbn [app]. do 2 f_equal.
      apply filter_ext_in. intros x Hx. f_equal.
      rewrite existsb_app. cbn [existsb]. rewrite orb_false_r.
      destruct (String.eqb_spec x k) as [->|_]; [contradiction|].
      now rewrite orb_false_r.
Qed.

(** The value of a spread under a key: that of the source, if it has
    one. *)
Lemma get_assign (src : obj) : forall target k,
  List.NoDup (Obj.keys src) ->
  Obj.get k (Obj.assign target src)
  = match Obj.get k src with
    | Some v => Some v
    | None => Obj.get k target
    end.
Proof.
  unfold Obj.assign.
  induction src as [|[k0 v0] src IH]; intros target k Hnd; [reflexivity|].
  cbn [Obj.keys List.map fst] in Hnd. apply List.NoDup_cons_iff in Hnd as [Hk Hnd].
  cbn [fold_left fst snd Obj.get]. rewrite (IH _ _ Hnd).
  destruct (String.eqb_spec k k0) as [->|Hne].
  - rewrite (get_None k0 src Hk). apply get_define_eq.
  - destruct (Obj.get k src); [reflexivity|]. now apply get_define_ne.
Qed.

Section KeysOfSelection.

Variable getModelByName : string -> option ModelWithContext.

(** One iteration leaves the selection as it is or assigns to the key of
    its field; the field of a simple kind always assigns. *)
Lemma convertField_sets self model visited fieldAst field fieldAst' :
  convertField getModelByName self model visited fieldAst field = Ok fieldAst' ->
  (fieldAst' = fieldAst /\ isSimpleField field = false) \/
  exists v, fieldAst' = Obj.set (field_name field) v fieldAst.
Proof.
  unfold convertField, isSimpleField.
  destruct (fieldOrListItem field) as [| | |models|models|t].
  1-3, 6: intros [= <-]; right; eauto.
  - destruct (fieldInfoOf model (field_name field)) as [info|]; [|discriminate].
    destruct (isMultiModel info).
    + intros H. apply bind_Ok in H as (branches & _ & [= <-]). right. eauto.
    + destruct models as [|modelName [|]]; try (intros [= <-]; now left).
      destruct (visitedTooOften visited modelName); [intros [= <-]; now left|].
      destruct (getModelByName modelName) as [model'|]; [|intros [= <-]; now left].
      intros H. apply bind_Ok in H as (nested & _ & [= <-]). right. eauto.
  - destruct (fieldInfoOf model (field_name field)) as [info|]; [|discriminate].
    destruct (isMultiModel info); [intros [= <-]; right; eauto|].
    destruct models as [|modelName [|]]; intros [= <-]; eauto.
Qed.

Lemma convertFields_keys self model visited (l : list Field) : forall acc ast,
  foldM (convertField getModelByName self model visited) l acc = Ok ast ->
  (List.NoDup (Obj.keys acc) -> List.NoDup (Obj.keys ast)) /\
  (forall k, In k (Obj.keys ast) ->
     In k (Obj.keys acc) \/ In k (List.map field_name l)) /\
  (forall k, In k (Obj.keys acc) -> In k (Obj.keys ast)) /\
  (~ In "__proto__" (Obj.keys acc) -> ~ In "__proto__" (Obj.keys ast)) /\
  (forall field, In field l -> isSimpleField field = true ->
     field_name field <> "__proto__" -> In (field_name field) (Obj.keys ast)).
Proof.
  induction l as [|field l IH]; intros acc ast H.
  - injection H as <-. repeat split; auto. intros ? [].
  - cbn [foldM] in H. apply bind_Ok in H as (acc1 & H1 & H2).
    destruct (IH _ _ H2) as (Hnd & Hsub & Hmono & Hproto & Hsimple).
    apply convertField_sets in H1.
    repeat split.
    + intros Hacc. apply Hnd. destruct H1 as [[-> _]|[v ->]]; [exact Hacc|].
      now apply set_keys_NoDup.
    + intros k Hk. destruct (Hsub k Hk) as [Hk1|Hk1]; [|right; now right].
      destruct H1 as [[-> _]|[v ->]]; [now left|].
      apply set_keys_sub in Hk1 as [->|Hk1]; [right; now left|now left].
    + intros k Hk. apply Hmono. destruct H1 as [[-> _]|[v ->]]; [exact Hk|].
      now apply set_keys_mono.
    + intros Hacc. apply Hproto. destruct H1 as [[-> _]|[v ->]]; [exact Hacc|].
      now apply set_no_proto.
    + intros f [<-|Hf] Hs Hname; [|now apply Hsimple].
      apply Hmono. destruct H1 as [[_ Hns]|[v ->]]; [congruence|now apply set_key_In].
Qed.

End KeysOfSelection.

Lemma convert_keys
    (getModelByName : string -> option ModelWithContext) (fuel : nat)
    (model : ModelWithContext) (visitedModelsCount : ledger) (ast : obj) :
  convertFieldsToQueryAST getModelByName fuel model visitedModelsCount = Ok ast ->
  List.NoDup (Obj.keys ast) /\
  (forall k, In k (Obj.keys ast) ->
     In k (List.map field_name (fieldsOf model)) /\ k <> "__proto__") /\
  (forall field, In field (fieldsOf model) -> isSimpleField field = true ->
     field_name field <> "__proto__" -> In (field_name field) (Obj.keys ast)).
Proof.
  destruct fuel as [|fuel]; [discriminate|]. cbn [convertFieldsToQueryAST]. intros H.
  destruct (convertFields_keys _ _ _ _ _ _ _ H) as (Hnd & Hsub & _ & Hproto & Hsimple).
  split; [apply Hnd; constructor|]. split; [|exact Hsimple].
  intros k Hk. split.
  - destruct (Hsub k Hk) as [[]|?]. assumption.
  - intros ->. now apply Hproto.
Qed.

(** ** C2 *)

Lemma aliasModelField_aliased modelName fieldName v :
  v = one \/ (exists o, v = JObj o /\ ~ In "__alias" (Obj.keys o)) ->
  aliasedFor modelName fieldName (aliasModelField modelName v fieldName).
Proof.
  intros [->|(o & -> & Hno)]; [now left|right]. simpl.
  eexists. split; [reflexivity|].
  rewrite ObjFacts.get_assign_ne by exact Hno. reflexivity.
Qed.

(** A spread over an object literal with one entry: the entry stays first,
    with the value that the source has under its key, if it has one; the
    other entries of the source follow. *)
Lemma assign_head (src : obj) k0 : forall v1 rest1,
  ~ In k0 (Obj.keys rest1) ->
  exists v rest,
    Obj.assign ((k0, v1) :: rest1) src = (k0, v) :: rest /\
    (In k0 (Obj.keys src) -> In (k0, v) src) /\
    (~ In k0 (Obj.keys src) -> v = v1) /\
    ~ In k0 (Obj.keys rest) /\
    (forall k v', In (k, v') rest -> In (k, v') src \/ In (k, v') rest1) /\
    (forall k, In k (Obj.keys src) \/ In k (Obj.keys rest1) -> k <> k0 ->
       In k (Obj.keys rest)).
Proof.
  unfold Obj.assign.
  induction src as [|[k v] src IH]; intros v1 rest1 Hrest1; cbn [fold_left fst snd].
  - exists v1, rest1. repeat split; auto; try tauto.
    intros k [[]|Hk] _. exact Hk.
  - cbn [Obj.define]. destruct (String.eqb_spec k k0) as [->|Hne].
    + destruct (IH v rest1 Hrest1) as (v' & rest & -> & Hin & Hout & Hk0 & Hsub & Hsup).
      exists v', rest. split; [reflexivity|]. repeat split; auto.
      * intros _. destruct (in_dec string_dec k0 (Obj.keys src)) as [H|H].
        -- right. auto.
        -- left. now rewrite (Hout H).
      * intros H. exfalso. apply H. now left.
      * intros k v'' H. destruct (Hsub k v'' H) as [?|?]; [left; now right|now right].
      * intros k [[Hk|Hk]|Hk] Hne; [cbn in Hk; congruence|apply Hsup; auto..].
    + assert (Hrest1' : ~ In k0 (Obj.keys (Obj.define k v rest1))).
      { intros H. apply keys_In in H as [x H].
        apply In_define in H as [[-> _]|H]; [congruence|].
        apply Hrest1, keys_In. eauto. }
      destruct (IH v1 _ Hrest1') as (v' & rest & -> & Hin & Hout & Hk0 & Hsub & Hsup).
      exists v', rest. split; [reflexivity|]. repeat split; auto.
      * intros [H|H]; [simpl in H; congruence|]. right. auto.
      * intros H. apply Hout. intros H'. apply H. now right.
      * intros k' v'' H. destruct (Hsub k' v'' H) as [?|H1]; [left; now right|].
        apply In_define in H1 as [[-> ->]|?]; [left; now left|now right].
      * intros k' Hk' Hne'. apply Hsup; [|exact Hne'].
        destruct Hk' as [[Hk'|Hk']|Hk']; [cbn in Hk'; subst k'|now left|].
        -- right. apply keys_In. exists v. apply In_define_same.
        -- right. destruct (define_keys k v rest1) as [l ->]. apply in_or_app. now left.
Qed.

Section Aliases.

Variable getModelByName : string -> option ModelWithContext.

Hypothesis schema_plain :
  forall n model, getModelByName n = Some model -> plainFieldNames model = true.

(** The branch made of the selection of a model: [{ id: 1, ...aliasedModelFields }]. *)
Lemma aliased_branch model' modelName (modelFields : obj) :
  selectionAliased model' modelFields ->
  exists v rest,
    Obj.assign [("id", one)] (Obj.mapValues (aliasModelField modelName) modelFields)
    = ("id", v) :: rest /\
    (~ In "id" (Obj.keys modelFields) -> v = one) /\
    (In "id" (Obj.keys modelFields) -> aliasedFor modelName "id" v) /\
    ~ In "id" (Obj.keys rest) /\
    (forall k v', In (k, v') rest ->
       k <> "id" /\ In k (Obj.keys modelFields) /\ aliasedFor modelName k v') /\
    (forall k, In k (Obj.keys modelFields) -> k <> "id" -> In k (Obj.keys rest)).
Proof.
  intros Hsel.
  assert (Hkeys : Obj.keys (Obj.mapValues (aliasModelField modelName) modelFields)
                  = Obj.keys modelFields).
  { unfold Obj.keys, Obj.mapValues. rewrite List.map_map. reflexivity. }
  assert (Haliased : forall k v',
            In (k, v') (Obj.mapValues (aliasModelField modelName) modelFields) ->
            In k (Obj.keys modelFields) /\ aliasedFor modelName k v').
  { intros k v' Hin. apply ObjFacts.In_mapValues in Hin as (v0 & Hin & ->). split.
    - apply keys_In. eauto.
    - apply aliasModelField_aliased.
      destruct (Hsel _ _ Hin) as [_ [->|(o & -> & Hno & _)]]; [now left|right; eauto]. }
  destruct (assign_head (Obj.mapValues (aliasModelField modelName) modelFields) "id" one []
              (fun H => H))
    as (v & rest & Heq & Hin & Hout & Hid & Hsub & Hsup).
  rewrite Hkeys in Hin, Hout, Hsup.
  exists v, rest. split; [exact Heq|]. repeat split; auto.
  - intros H. now apply (Haliased "id" v), Hin.
  - intros ->. apply Hid, keys_In. eauto.
  - destruct (Hsub k v' H) as [H'|[]]. now apply (Haliased k v').
  - destruct (Hsub k v' H) as [H'|[]]. now apply (Haliased k v').
Qed.

Lemma multiModelBranch_aliased self visited accum n accum' :
  (forall model' ast, getModelByName n = Some model' ->
     self model' (visitOnceMore visited n) = Ok ast -> selectionAliased model' ast) ->
  (forall t fields, In (t, fields) accum -> branchAliased t fields) ->
  multiModelBranch getModelByName self visited accum n = Ok accum' ->
  forall t fields, In (t, fields) accum' -> branchAliased t fields.
Proof.
  intros Hself Hacc. unfold multiModelBranch.
  destruct (visitedTooOften visited n); [intros [= <-]; exact Hacc|].
  destruct (getModelByName n) as [model'|] eqn:Em; [|intros [= <-]; exact Hacc].
  intros H. apply bind_Ok in H as (modelFields & Hs & [= <-]).
  specialize (Hself _ _ eq_refl Hs).
  intros t fields Hin.
  apply ObjFacts.In_set in Hin as [[-> ->]|Hin]; [|eauto].
  destruct (aliased_branch model' n modelFields Hself)
    as (v & rest & -> & Hone & Halias & Hid & Hrest & _).
  exists v, rest. split; [reflexivity|]. repeat split; auto.
  - destruct (in_dec string_dec "id" (Obj.keys modelFields)); auto.
  - intros k v' H. now apply (Hrest k v').
Qed.

Lemma convertField_aliased self model visited fieldAst field fieldAst' :
  (forall n model' ast, getModelByName n = Some model' ->
     self model' (visitOnceMore visited n) = Ok ast -> selectionAliased model' ast) ->
  In field (fieldsOf model) ->
  selectionAliased model fieldAst ->
  convertField getModelByName self model visited fieldAst field = Ok fieldAst' ->
  selectionAliased model fieldAst'.
Proof.
  intros Hself Hfield Hacc.
  assert (Hset : forall v,
            (v = one \/
             exists o, v = JObj o /\ ~ In "__alias" (Obj.keys o) /\
               forall branches modelName fields,
                 In ("__on", JObj branches) o -> In (modelName, fields) branches ->
                 branchAliased modelName fields) ->
            selectionAliased model (Obj.set (field_name field) v fieldAst)).
  { intros v Hv k v' Hin.
    apply ObjFacts.In_set in Hin as [[-> ->]|Hin]; [|auto]. split; eauto. }
  assert (Hleaves : forall ks : list string, ~ In "__alias" ks -> ~ In "__on" ks ->
            selectionAliased model
              (Obj.set (field_name field) (JObj (List.map (fun k => (k, one)) ks)) fieldAst)).
  { intros ks Ha Ho. apply Hset. right. eexists. split; [reflexivity|]. split.
    - unfold Obj.keys. rewrite List.map_map. simpl. now rewrite List.map_id.
    - intros branches modelName fields Hin.
      apply in_map_iff in Hin as (k & [=] & _). }
  unfold convertField.
  destruct (fieldOrListItem field) as [| | |models|models|ty].
  - intros [= <-]. apply (Hleaves ["__typename"; "markdown"; "text"]); not_among.
  - intros [= <-]. apply (Hleaves ["__typename"; "hex"]); not_among.
  - intros [= <-]. apply (Hleaves ["__typename"; "id"]); not_among.
  - destruct (fieldInfoOf model (field_name field)) as [info|]; [|discriminate].
    destruct (isMultiModel info).
    + intros H. apply bind_Ok in H as (branches & Hb & [= <-]).
      apply Hset. right. eexists. split; [reflexivity|]. split.
      * not_among.
      * intros bs modelName fields [[=]|[[= <-]|[]]]. revert modelName fields.
        apply (foldM_invariant
                 (fun acc : obj => forall t fields, In (t, fields) acc -> branchAliased t fields)
                 (multiModelBranch getModelByName self visited) models) with (a := []);
          [|intros ? ? []|exact Hb].
        intros accum n accum' _ Ha. apply multiModelBranch_aliased; auto.
        intros model' ast. apply Hself.
    + destruct models as [|n [|? ?]]; try (intros [= <-]; exact Hacc).
      destruct (visitedTooOften visited n); [intros [= <-]; exact Hacc|].
      destruct (getModelByName n) as [model'|] eqn:Em; [|intros [= <-]; exact Hacc].
      intros H. apply bind_Ok in H as (nested & Hs & [= <-]).
      specialize (Hself _ _ _ Em Hs).
      assert (Hkey : forall k v, In (k, v) (Obj.assign [("__typename", one); ("id", one)] nested) ->
                k <> "__alias" /\ k <> "__on").
      { intros k v Hin. apply ObjFacts.In_assign in Hin as [Hin|Hin].
        - destruct (Hself _ _ Hin) as [(f & Hf & ->) _].
          pose proof (plainFieldNames_In model' f (schema_plain _ _ Em) Hf). tauto.
        - destruct Hin as [[= <- <-]|[[= <- <-]|[]]]; split; discriminate. }
      apply Hset. right. eexists. split; [reflexivity|]. split.
      * intros Hin. apply keys_In in Hin as [v Hin]. apply Hkey in Hin. tauto.
      * intros bs modelName fields Hin. apply Hkey in Hin. tauto.
  - destruct (fieldInfoOf model (field_name field)) as [info|]; [|discriminate].
    destruct (isMultiModel info).
    + intros [= <-]. apply Hset. right. eexists. split; [reflexivity|]. split.
      * not_among.
      * intros bs modelName fields [[=]|[[= <-]|[]]] Hin.
        apply referenceBranch_In in Hin as [[]|(_ & _ & ->)].
        exists one, []. split; [reflexivity|]. split; [now left|]. split; [intros []|].
        intros k v [].
    + destruct models as [|n [|? ?]]; try (intros [= <-]; exact Hacc).
      intros [= <-]. apply (Hleaves ["__typename"; "id"]); not_among.
  - intros [= <-]. apply Hset. now left.
Qed.

Lemma convert_aliased fuel : forall model visited ast,
  convertFieldsToQueryAST getModelByName fuel model visited = Ok ast ->
  selectionAliased model ast.
Proof.
  induction fuel as [|fuel IH]; intros model visited ast H; [discriminate|].
  simpl in H. revert H. apply foldM_invariant.
  - intros fieldAst field fieldAst' Hin Hacc.
    apply convertField_aliased; auto.
    intros n model' ast' _. apply IH.
  - intros k v [].
Qed.

(** The branches that the reducer of a multi-model component field makes:
    each is the aliased selection of a candidate that the schema resolves,
    behind the selection of [id]. *)
Lemma multiModelBranches fuel visited (models : list string) : forall accum branches,
  foldM (multiModelBranch getModelByName (convertFieldsToQueryAST getModelByName fuel) visited)
    models accum = Ok branches ->
  forall modelName fields, In (modelName, fields) branches ->
    In (modelName, fields) accum \/
    exists model' modelFields,
      In modelName models /\
      getModelByName modelName = Some model' /\
      convertFieldsToQueryAST getModelByName fuel model' (visitOnceMore visited modelName)
      = Ok modelFields /\
      fields = JObj (Obj.assign [("id", one)]
                       (Obj.mapValues (aliasModelField modelName) modelFields)).
Proof.
  induction models as [|n models IH]; intros accum branches H modelName fields Hin.
  - injection H as <-. now left.
  - cbn [foldM] in H. apply bind_Ok in H as (accum1 & H1 & H2).
    destruct (IH _ _ H2 _ _ Hin) as [Hacc|(model' & modelFields & Hm & ? & ? & ?)].
    + unfold multiModelBranch in H1.
      destruct (visitedTooOften visited n); [injection H1 as <-; now left|].
      destruct (getModelByName n) as [model'|] eqn:Em; [|injection H1 as <-; now left].
      apply bind_Ok in H1 as (modelFields & Hs & [= <-]).
      apply ObjFacts.In_set in Hacc as [[-> ->]|?]; [right|now left].
      exists model', modelFields. repeat split; auto. now left.
    + right. exists model', modelFields. repeat split; auto. now right.
Qed.

End Aliases.

(** C2, as amended.  Let no field of the schema be called like one of the
    keys that the serializer reads as syntax.  For a multi-model component
    field, the loop body assigns [__typename] and an [__on] to the key of
    the field, and every branch of that [__on] belongs to a candidate that
    the schema resolves and is made of the selection compiled for that
    candidate: the branch starts with the key [id], which holds the
    unaliased [1] when that selection has no [id] of its own and the
    aliased selection of that [id] when it has; every other key of the
    selection follows, and its value carries the alias
    [__<modelName>_alias__<key>], as the value of an aliased leaf or under
    [__alias] of a nested selection.  The same holds of every branch of
    every [__on] in a compiled selection: it starts with [id], unaliased or
    aliased, and all its other entries are aliased. *)
Theorem C2_branch_fields_are_aliased_except_id
    (getModelByName : string -> option ModelWithContext) :
  (forall n model', getModelByName n = Some model' -> plainFieldNames model' = true) ->
  (forall fuel model visitedModelsCount fieldAst field models info fieldAst',
     fieldOrListItem field = FModel models ->
     fieldInfoOf model (field_name field) = Some info ->
     isMultiModel info = true ->
     convertField getModelByName (convertFieldsToQueryAST getModelByName fuel)
       model visitedModelsCount fieldAst field = Ok fieldAst' ->
     exists branches,
       fieldAst' = Obj.set (field_name field)
                     (JObj [("__typename", one); ("__on", JObj branches)]) fieldAst /\
       forall modelName fields, In (modelName, fields) branches ->
         exists model' modelFields v rest,
           In modelName models /\
           getModelByName modelName = Some model' /\
           convertFieldsToQueryAST getModelByName fuel model'
             (visitOnceMore visitedModelsCount modelName) = Ok modelFields /\
           fields = JObj (("id", v) :: rest) /\
           (~ In "id" (Obj.keys modelFields) -> v = one) /\
           (In "id" (Obj.keys modelFields) -> aliasedFor modelName "id" v) /\
           (~ In "id" (List.map field_name (fieldsOf model')) -> v = one) /\
           ~ In "id" (Obj.keys rest) /\
           (forall k v', In (k, v') rest ->
              k <> "id" /\ In k (Obj.keys modelFields) /\ aliasedFor modelName k v') /\
           (forall k, In k (Obj.keys modelFields) -> k <> "id" -> In k (Obj.keys rest))) /\
  (forall fuel model visitedModelsCount ast fieldName o branches modelName fields,
     convertFieldsToQueryAST getModelByName fuel model visitedModelsCount = Ok ast ->
     In (fieldName, JObj o) ast ->
     In ("__on", JObj branches) o ->
     In (modelName, fields) branches ->
     exists v rest,
       fields = JObj (("id", v) :: rest) /\
       (v = one \/ aliasedFor modelName "id" v) /\
       ~ In "id" (Obj.keys rest) /\
       forall k v', In (k, v') rest -> aliasedFor modelName k v').
Proof.
  intros Hschema. split.
  - intros fuel model visited fieldAst field models info fieldAst' Hkind Hinfo Hmulti.
    unfold convertField. rewrite Hkind, Hinfo, Hmulti. intros H.
    apply bind_Ok in H as (branches & Hb & [= <-]).
    exists branches. split; [reflexivity|]. intros modelName fields Hin.
    destruct (multiModelBranches getModelByName fuel visited models _ _ Hb _ _ Hin)
      as [[]|(model' & modelFields & Hm & Hmodel & Hfields & ->)].
    pose proof (convert_aliased getModelByName Hschema _ _ _ _ Hfields) as Hsel.
    destruct (aliased_branch model' modelName modelFields Hsel)
      as (v & rest & -> & Hone & Halias & Hid & Hrest & Hsup).
    exists model', modelFields, v, rest. repeat split; auto; try (now apply (Hrest k v')).
    intros Hno. apply Hone. intros Hk. apply Hno.
    now apply (convert_keys _ _ _ _ _ Hfields).
  - intros fuel model visited ast fieldName o branches modelName fields H Hf Hon Hb.
    pose proof (convert_aliased getModelByName Hschema fuel model visited ast H) as Ha.
    destruct (Ha _ _ Hf) as [_ [[=]|(o' & [= <-] & _ & Hbranches)]].
    exact (Hbranches _ _ _ Hon Hb).
Qed.

(** The theorem at the [Quote] branch of [Page.sections]. *)
Lemma C2_witness :
  exists v rest,
    JObj [ ("id", one);
           ("title", JObj [ ("__alias", JStr "__Quote_alias__title");
                            ("__typename", one); ("markdown", one); ("text", one) ]) ]
    = JObj (("id", v) :: rest) /\
    (v = one \/ aliasedFor "Quote" "id" v) /\
    ~ In "id" (Obj.keys rest) /\
    forall k v', In (k, v') rest -> aliasedFor "Quote" k v'.
Proof.
  assert (Hsite : forall n model', Sample.site !! n = Some model' ->
            plainFieldNames model' = true).
  { intros n model' H.
    assert (Hall : map_Forall (fun _ model => plainFieldNames model = true) Sample.site).
    { repeat (apply map_Forall_insert_2; [reflexivity|]). apply map_Forall_empty. }
    exact (Hall n model' H). }
  eapply (proj2 (C2_branch_fields_are_aliased_except_id (fun n => Sample.site !! n) Hsite)
            2%nat Sample.page ∅).
  - vm_compute. reflexivity.
  - right. left. reflexivity.
  - right. left. reflexivity.
  - right. left. reflexivity.
Defined.

(** C2 as stated fails: in the [Hero] branch of [Page.sections] the field
    [id] is selected as the plain leaf [1] and carries no alias. *)
Lemma C2_id_carries_no_alias :
  ~ (forall ast o branches modelName sel k v,
       convertFieldsToQueryAST (fun n => Sample.site !! n) 2 Sample.page ∅ = Ok ast ->
       In ("sections", JObj o) ast ->
       In ("__on", JObj branches) o ->
       In (modelName, JObj sel) branches ->
       In (k, v) sel ->
       aliasedFor modelName k v).
Proof.
  intros H.
  assert (Hid : aliasedFor "Hero" "id" one).
  { eapply H.
    - vm_compute. reflexivity.
    - right. left. reflexivity.
    - right. left. reflexivity.
    - left. reflexivity.
    - left. reflexivity. }
  destruct Hid as [Hid|(o & Hid & _)]; discriminate.
Qed.

(** A candidate with a field of its own called [id]: in its branch the key
    [id] holds the alias, and the query asks for [__Card_alias__id: id]
    only. *)
Example own_id_is_aliased :
  (ast ← convertFieldsToQueryAST (fun n => Sample.decks !! n) 2 Sample.deck ∅;
   mret (queryLines 0 false (JObj ast)))
  = Ok [ "cards {";
         "  __typename";
         "  ... on Card {";
         "    __Card_alias__id: id";
         "    __Card_alias__label: label";
         "  }";
         "}" ].
Proof. vm_compute. reflexivity. Qed.

(** The selection of [Page.sections] as it is sent: [title] is aliased in
    both branches, [id] appears in both as it is. *)
Example sections_query_text :
  (ast ← convertFieldsToQueryAST (fun n => Sample.site !! n) 2 Sample.page ∅;
   mret (queryLines 0 false (JObj (Obj.pick ast ["sections"]))))
  = Ok [ "sections {";
         "  __typename";
         "  ... on Hero {";
         "    id";
         "    __Hero_alias__title: title";
         "    __Hero_alias__link: link {";
         "      __typename";
         "      id";
         "    }";
         "  }";
         "  ... on Quote {";
         "    id";
         "    __Quote_alias__title: title {";
         "      __typename";
         "      markdown";
         "      text";
         "    }";
         "  }";
         "}" ].
Proof. vm_compute. reflexivity. Qed.

(** ** C10 *)








(** ** Strings *)

Lemma append_nil_l (a : string) : EmptyString +:+ a = a.
Proof. reflexivity. Qed.

Lemma append_cons x (a b : string) : String x a +:+ b = String x (a +:+ b).
Proof. reflexivity. Qed.

Lemma append_assoc (a b c : string) : (a +:+ b) +:+ c = a +:+ (b +:+ c).
Proof.
  induction a as [|x a IH]; [reflexivity|].
  now rewrite !append_cons, IH.
Qed.

Lemma append_nil_r (a : string) : a +:+ EmptyString = a.
Proof.
  induction a as [|x a IH]; [reflexivity|].
  now rewrite append_cons, IH.
Qed.

(** ** C3 *)

Lemma stripPrefix_app prefix s : stripPrefix prefix (prefix +:+ s) = Some s.
Proof.
  induction prefix as [|a prefix IH]; simpl; [reflexivity|].
  now rewrite Ascii.eqb_refl.
Qed.

Lemma stripPrefix_Some prefix : forall s rest,
  stripPrefix prefix s = Some rest -> s = prefix +:+ rest.
Proof.
  induction prefix as [|a prefix IH]; simpl; intros s rest H.
  - now injection H as ->.
  - destruct s as [|b s]; [discriminate|].
    destruct (Ascii.eqb_spec a b) as [->|_]; [|discriminate].
    change (String b s = String b (prefix +:+ rest)). now rewrite <- (IH _ _ H).
Qed.

Lemma stripPrefix_None prefix : forall s,
  String.prefix prefix s = false -> stripPrefix prefix s = None.
Proof.
  induction prefix as [|a prefix IH]; intros s H.
  - destruct s; discriminate.
  - destruct s as [|b s]; [reflexivity|]. simpl in *.
    destruct (ascii_dec a b) as [->|Hne].
    + rewrite Ascii.eqb_refl. auto.
    + apply Ascii.eqb_neq in Hne. now rewrite Hne.
Qed.

Lemma stripPrefix_apart (t : string) : forall u a b,
  String.prefix t u = false -> String.prefix u t = false ->
  stripPrefix (t +:+ a) (u +:+ b) = None.
Proof.
  induction t as [|x t IH]; intros u a b Htu Hut.
  - destruct u; discriminate.
  - destruct u as [|y u]; [discriminate|].
    rewrite !append_cons. simpl in *.
    destruct (ascii_dec x y) as [->|Hne].
    + rewrite Ascii.eqb_refl. destruct (ascii_dec y y) as [_|Hyy]; [|congruence]. auto.
    + apply Ascii.eqb_neq in Hne. now rewrite Hne.
Qed.

(** The alias for a model is out of reach of the prefix of another, when
    neither model name continues the other. *)
Lemma stripPrefix_other_alias typename otherModel fieldName :
  String.prefix typename otherModel = false ->
  String.prefix otherModel typename = false ->
  stripPrefix (aliasPrefix typename) (aliasForFieldName fieldName otherModel) = None.
Proof.
  intros H1 H2. unfold aliasForFieldName, aliasPrefix.
  rewrite !append_assoc, !append_cons, !append_nil_l.
  cbn [stripPrefix]. rewrite Ascii.eqb_refl.
  now apply stripPrefix_apart.
Qed.

(** Looking up a new key after [_.mapKeys], when one entry alone is renamed
    to it. *)
Lemma get_mapKeys_unique (g : string -> string) (o : obj) k v :
  In (k, v) o ->
  (forall k2 v2, In (k2, v2) o -> g k2 = g k -> k2 = k /\ v2 = v) ->
  Obj.get (g k) (Obj.mapKeys g o) = Some v.
Proof.
  unfold Obj.mapKeys. intros Hin Huniq.
  assert (Hgen : forall acc,
            In (k, v) o \/ Obj.get (g k) acc = Some v ->
            Obj.get (g k) (fold_left (fun acc kv => Obj.define (g (fst kv)) (snd kv) acc) o acc)
            = Some v).
  { clear Hin. induction o as [|[k0 v0] o IH]; simpl; intros acc H.
    - destruct H as [[]|H]. exact H.
    - apply IH.
      + intros k2 v2 H2. apply Huniq. now right.
      + destruct H as [[Heq|Hin]|Hacc].
        * injection Heq as -> ->. right. apply ObjFacts.get_define_eq.
        * now left.
        * right. destruct (String.eqb_spec (g k0) (g k)) as [Heq|Hne].
          -- destruct (Huniq k0 v0 (or_introl eq_refl) Heq) as [-> ->].
             apply ObjFacts.get_define_eq.
          -- rewrite ObjFacts.get_define_ne by congruence. exact Hacc. }
  apply Hgen. now left.
Qed.

Lemma removeAliasFieldNames_untouched v :
  mentionsTypename v = false -> removeAliasFieldNames v = v.
Proof.
  induction v as [| | | | |items IH|entries IH] using jsval_ind; simpl; try reflexivity.
  - intros H. f_equal. induction IH as [|x items Hx _ IHitems]; simpl in *; [reflexivity|].
    apply orb_false_iff in H as [H1 H2]. now rewrite Hx, IHitems.
  - intros H. apply orb_false_iff in H as [H1 H2].
    destruct (typenameOf entries); [discriminate|]. f_equal.
    clear H1. induction IH as [|[k x] entries Hx _ IHentries]; simpl in *; [reflexivity|].
    apply orb_false_iff in H2 as [H2 H3]. now rewrite Hx, IHentries.
Qed.

(** The alias for a model whose name continues [typename] with [_alias__]
    starts with the alias prefix of [typename]. *)
Lemma continued_alias typename rest fieldName :
  aliasForFieldName fieldName (typename +:+ "_alias__" +:+ rest)
  = aliasPrefix typename +:+ (rest +:+ "_alias__" +:+ fieldName).
Proof.
  unfold aliasForFieldName, aliasPrefix. now rewrite !append_assoc.
Qed.

(** C3, as amended.  For a fetched object whose [__typename] is [typename]
    (a name without regular-expression syntax, as every GraphQL type name
    is), [removeAliasFieldNames] renames each key by
    [stripAliasPrefix typename] and treats the values the same way in turn.
    That renaming undoes [aliasForFieldName]: the alias of [fieldName] for
    [typename] becomes [fieldName], and the value fetched under the alias
    is found under [fieldName] when no other key is renamed to it.  A key
    is changed only by losing the prefix [__<typename>_alias__]; a key that
    does not start with it stays as it is, and so does the alias for
    another model when neither model name is the beginning of the other.
    The alias for a model whose name continues [typename] with [_alias__]
    does start with that prefix, and loses it.  An object without a truthy
    [__typename] keeps all its keys, and a value with no typed object
    inside is returned unchanged. *)
Theorem C3_alias_round_trip (o : obj) (typename : string) :
  typenameOf o = Some typename ->
  literalTypenames (JObj o) = true ->
  removeAliasFieldNames (JObj o)
  = JObj (Obj.mapKeys (stripAliasPrefix typename)
            (List.map (fun kv => (fst kv, removeAliasFieldNames (snd kv))) o)) /\
  (forall fieldName,
     stripAliasPrefix typename (aliasForFieldName fieldName typename) = fieldName) /\
  (forall fieldName v,
     In (aliasForFieldName fieldName typename, v) o ->
     (forall k2 v2, In (k2, v2) o -> stripAliasPrefix typename k2 = fieldName ->
        k2 = aliasForFieldName fieldName typename /\ v2 = v) ->
     exists o', removeAliasFieldNames (JObj o) = JObj o' /\
       Obj.get fieldName o' = Some (removeAliasFieldNames v)) /\
  (forall k,
     stripAliasPrefix typename k = k \/
     k = aliasPrefix typename +:+ stripAliasPrefix typename k) /\
  (forall k, String.prefix (aliasPrefix typename) k = false ->
     stripAliasPrefix typename k = k) /\
  (forall otherModel fieldName,
     String.prefix typename otherModel = false ->
     String.prefix otherModel typename = false ->
     stripAliasPrefix typename (aliasForFieldName fieldName otherModel)
     = aliasForFieldName fieldName otherModel) /\
  (forall rest fieldName,
     stripAliasPrefix typename
       (aliasForFieldName fieldName (typename +:+ "_alias__" +:+ rest))
     = rest +:+ "_alias__" +:+ fieldName) /\
  (forall u, typenameOf u = None ->
     exists u', removeAliasFieldNames (JObj u) = JObj u' /\
       Obj.keys u' = Obj.keys u /\
       List.map snd u' = List.map removeAliasFieldNames (List.map snd u)) /\
  (forall v, mentionsTypename v = false -> removeAliasFieldNames v = v).
Proof.
  intros Htype _.
  assert (Hround : forall fieldName,
            stripAliasPrefix typename (aliasForFieldName fieldName typename) = fieldName).
  { intros fieldName. unfold stripAliasPrefix, aliasForFieldName.
    now rewrite stripPrefix_app. }
  assert (Hrename : removeAliasFieldNames (JObj o)
            = JObj (Obj.mapKeys (stripAliasPrefix typename)
                      (List.map (fun kv => (fst kv, removeAliasFieldNames (snd kv))) o))).
  { simpl. now rewrite Htype. }
  assert (Hkeep : forall k, String.prefix (aliasPrefix typename) k = false ->
            stripAliasPrefix typename k = k).
  { intros k H. unfold stripAliasPrefix. now rewrite stripPrefix_None. }
  repeat split; auto.
  - intros fieldName v Hin Huniq. eexists. split; [exact Hrename|].
    rewrite <- (Hround fieldName) at 1.
    apply get_mapKeys_unique.
    + apply in_map_iff. exists (aliasForFieldName fieldName typename, v). auto.
    + intros k2 v2 H2 Hk2. rewrite Hround in Hk2.
      apply in_map_iff in H2 as ([k3 v3] & [= <- <-] & H3).
      destruct (Huniq _ _ H3 Hk2) as [-> ->]. auto.
  - intros k. unfold stripAliasPrefix.
    destruct (stripPrefix (aliasPrefix typename) k) as [rest|] eqn:E; [right|now left].
    now apply stripPrefix_Some.
  - intros otherModel fieldName H1 H2. unfold stripAliasPrefix.
    now rewrite stripPrefix_other_alias.
  - intros rest fieldName. unfold stripAliasPrefix.
    now rewrite continued_alias, stripPrefix_app.
  - intros u Hu. eexists. split; [simpl; rewrite Hu; reflexivity|]. split.
    + unfold Obj.keys. rewrite List.map_map. reflexivity.
    + rewrite !List.map_map. reflexivity.
  - apply removeAliasFieldNames_untouched.
Qed.

(** C3 as stated fails: in an object of type [A], the key that carries the
    alias prefix of the different model [A_alias__B] does not stay as it
    is; it starts with [__A_alias__] as well, and loses that. *)
Lemma C3_continued_name_is_stripped :
  ~ (forall (o : obj) typename otherModel fieldName v,
       typenameOf o = Some typename -> otherModel <> typename ->
       In (aliasForFieldName fieldName otherModel, v) o ->
       exists o', removeAliasFieldNames (JObj o) = JObj o' /\
         In (aliasForFieldName fieldName otherModel) (Obj.keys o')).
Proof.
  intros H.
  destruct (H [("__typename", JStr "A"); ("__A_alias__B_alias__x", one)]
              "A" "A_alias__B" "x" one eq_refl)
    as (o' & Ho & Hin).
  - discriminate.
  - right. left. reflexivity.
  - vm_compute in Ho. injection Ho as <-.
    vm_compute in Hin. destruct Hin as [Hin|[Hin|[]]]; discriminate Hin.
Qed.

(** The theorem at the fetched hero: both aliased keys come back as
    [title] and [link]. *)
Lemma C3_witness :
  removeAliasFieldNames (JObj Sample.fetchedHero)
  = JObj [ ("__typename", JStr "Hero");
           ("id", JStr "h1");
           ("title", JStr "Hello");
           ("link", JObj [("__typename", JStr "Page"); ("id", JStr "p1")]) ].
Proof.
  rewrite (proj1 (C3_alias_round_trip Sample.fetchedHero "Hero" eq_refl eq_refl)).
  reflexivity.
Defined.

(** ** The retry loop of [onWebhook] *)

Section RetryFacts.

Variables Document Asset : Type.
Variable operation : Operation.
Variable cachedItem : option CachedItem.
Variable fetch : nat -> option HygraphItem.
Variable fetched : Effect Document Asset.
Variable kind : string.

Let fresh (item : HygraphItem) : bool := isNewerVersion operation item cachedItem.
Let run := retry Document Asset operation cachedItem fetch fetched kind.
Let attempt := attemptEffects Document Asset fetched kind.
Let attempts := attemptsEffects Document Asset fetched kind.

(** One iteration of the loop. *)
Lemma retry_unfold fuel tries trace :
  run (S fuel) tries trace =
  match fetch tries with
  | None => Some (Absent (trace ++ attempt tries))
  | Some item =>
      if negb (fresh item) && (tries + 1 <? 10)%nat
      then run fuel (tries + 1)%nat (trace ++ attempt tries)
      else Some (Settled item (fresh item)
                   (if fresh item then tries else (tries + 1)%nat)
                   (trace ++ attempt tries))
  end.
Proof.
  unfold run, attempt, attemptEffects, fresh. simpl.
  destruct (0 <? tries)%nat; simpl; rewrite <- ?app_assoc; reflexivity.
Qed.

Lemma attempts_snoc from count :
  attempts from (S count) = attempts from count ++ attempt (from + count)%nat.
Proof.
  unfold attempts, attemptsEffects, attempt.
  rewrite seq_S, flat_map_app. simpl. now rewrite app_nil_r.
Qed.

Lemma attempts_cons from count :
  attempts from (S count) = attempt from ++ attempts (S from) count.
Proof. reflexivity. Qed.

(** Attempts that fetch a stale item are all made, one after the other. *)
Lemma retry_stale_prefix count : forall fuel tries trace,
  (forall j, (tries <= j < tries + count)%nat ->
     exists item, fetch j = Some item /\ fresh item = false) ->
  (tries + count < 10)%nat ->
  run (count + fuel) tries trace = run fuel (tries + count)%nat (trace ++ attempts tries count).
Proof.
  induction count as [|count IH]; intros fuel tries trace Hstale Hlt.
  - simpl. rewrite Nat.add_0_r. unfold attempts, attemptsEffects. simpl.
    now rewrite app_nil_r.
  - change (S count + fuel)%nat with (S (count + fuel)). rewrite retry_unfold.
    destruct (Hstale tries ltac:(lia)) as (item & -> & ->). simpl.
    replace (tries + 1 <? 10)%nat with true by (symmetry; apply Nat.ltb_lt; lia).
    rewrite IH.
    + rewrite attempts_cons, app_assoc.
      replace (tries + 1 + count)%nat with (tries + S count)%nat by lia.
      replace (tries + 1)%nat with (S tries) by lia. reflexivity.
    + intros j Hj. apply Hstale. lia.
    + lia.
Qed.


(** The loop ends at the first attempt that fetches a fresh item. *)
Lemma retry_fresh k fuel trace item :
  (forall j, (j < k)%nat -> exists stale, fetch j = Some stale /\ fresh stale = false) ->
  fetch k = Some item -> fresh item = true -> (k < 10)%nat ->
  run (k + S fuel) 0 trace = Some (Settled item true k (trace ++ attempts 0 (S k))).
Proof.
  intros Hstale Hsome Hfresh Hk.
  rewrite retry_stale_prefix by (try (intros j Hj; apply Hstale); lia).
  rewrite Nat.add_0_l, retry_unfold, Hsome, Hfresh, attempts_snoc, app_assoc. reflexivity.
Qed.


(** However the loop is left with an item, the flag is the verdict of
    [isNewerVersion] on that item, the item is the one fetched last, and a
    flag that is off means that all ten attempts were made. *)
Lemma retry_settled fuel : forall tries trace item got n trace',
  run fuel tries trace = Some (Settled item got n trace') ->
  got = fresh item /\
  (got = true -> fetch n = Some item /\ (tries <= n)%nat /\ ((tries < 10)%nat -> (n < 10)%nat)) /\
  (got = false -> fetch (n - 1)%nat = Some item /\ (10 <= n \/ tries < n)%nat /\
                  ((tries < 10)%nat -> n = 10%nat)).
Proof.
  induction fuel as [|fuel IH]; intros tries trace item got n trace' H; [discriminate|].
  rewrite retry_unfold in H.
  destruct (fetch tries) as [item0|] eqn:Ef; [|discriminate].
  destruct (negb (fresh item0) && (tries + 1 <? 10)%nat) eqn:Ec.
  - apply IH in H as (Hgot & Ht & Hf). split; [exact Hgot|].
    apply andb_true_iff in Ec as [_ Ec]. apply Nat.ltb_lt in Ec. split.
    + intros Hg. destruct (Ht Hg) as (? & ? & ?). repeat split; auto; lia.
    + intros Hg. destruct (Hf Hg) as (? & ? & ?). repeat split; auto; lia.
  - injection H as <- <- <- <-. split; [reflexivity|]. split.
    + intros Hg. rewrite Hg. auto.
    + intros Hg. rewrite Hg in *. simpl in Ec. apply Nat.ltb_ge in Ec.
      replace (tries + 1 - 1)%nat with tries by lia. repeat split; auto; lia.
Qed.

End RetryFacts.

(** ** C5 *)

Lemma find_filter {A} (p : A -> bool) l : List.find p l = head (List.filter p l).
Proof.
  induction l as [|x l IH]; simpl; [reflexivity|].
  destruct (p x); [reflexivity|exact IH].
Qed.

Lemma publish_fresh_published hygraphItem cachedItem :
  isNewerVersion publish hygraphItem cachedItem = true -> publishedAtOwnTime hygraphItem.
Proof.
  unfold isNewerVersion, publishedItem, publishedAtOwnTime.
  destruct (documentInStages hygraphItem) as [docs|]; [|discriminate].
  destruct (List.find _ docs) as [doc|] eqn:E; [|discriminate].
  intros H. apply find_some in E as [Hin Hst].
  exists docs, doc. repeat split; auto; now apply String.eqb_eq.
Qed.

Lemma published_publish_fresh hygraphItem cachedItem :
  (publishedCount hygraphItem <= 1)%nat ->
  publishedAtOwnTime hygraphItem ->
  isNewerVersion publish hygraphItem cachedItem = true.
Proof.
  unfold isNewerVersion, publishedItem, publishedAtOwnTime, publishedCount.
  intros Hone (docs & doc & Hdocs & Hin & Hst & Htime).
  rewrite Hdocs in *. rewrite find_filter.
  assert (Hf : In doc (List.filter (fun doc => String.eqb (stage doc) "PUBLISHED") docs)).
  { apply filter_In. split; [exact Hin|]. now apply String.eqb_eq. }
  simpl in Hone. revert Hone Hf.
  destruct (List.filter _ docs) as [|doc0 [|doc1 rest]]; simpl; intros Hone Hf;
    [tauto| |lia].
  destruct Hf as [-> |[]]. now apply String.eqb_eq.
Qed.

Lemma find_first {A} (p : A -> bool) (l : list A) x :
  List.find p l = Some x <->
  exists before after, l = before ++ x :: after /\
    (forall y, In y before -> p y = false) /\ p x = true.
Proof.
  induction l as [|a l IH]; simpl.
  - split; [discriminate|]. intros (before & after & H & _). now destruct before.
  - destruct (p a) eqn:E.
    + split.
      * intros [= ->]. exists [], l. repeat split; auto. intros y [].
      * intros ([|b before] & after & Hl & Hbefore & Hx).
        -- now injection Hl as ->.
        -- injection Hl as <- _. rewrite (Hbefore a (or_introl eq_refl)) in E. discriminate.
    + rewrite IH. split.
      * intros (before & after & -> & Hbefore & Hx). exists (a :: before), after.
        repeat split; auto. intros y [<-|Hy]; auto.
      * intros ([|b before] & after & Hl & Hbefore & Hx).
        -- injection Hl as -> _. congruence.
        -- injection Hl as _ ->. exists before, after. repeat split; auto.
           intros y Hy. apply Hbefore. now right.
Qed.

Lemma publish_fresh_first hygraphItem cachedItem :
  isNewerVersion publish hygraphItem cachedItem = true <-> firstPublishedAtOwnTime hygraphItem.
Proof.
  unfold isNewerVersion, publishedItem, firstPublishedAtOwnTime. split.
  - destruct (documentInStages hygraphItem) as [docs|]; [|discriminate].
    destruct (List.find _ docs) as [doc|] eqn:E; [|discriminate].
    intros H. apply find_first in E as (before & after & -> & Hbefore & Hdoc).
    exists (before ++ doc :: after), before, doc, after. repeat split; auto.
    + intros earlier Hin. apply String.eqb_neq. auto.
    + now apply String.eqb_eq.
    + now apply String.eqb_eq.
  - intros (docs & before & doc & after & -> & -> & Hbefore & Hdoc & Htime).
    assert (E : List.find (fun doc => String.eqb (stage doc) "PUBLISHED")
                  (before ++ doc :: after) = Some doc).
    { apply find_first. exists before, after. repeat split; auto.
      - intros y Hy. apply String.eqb_neq. auto.
      - now apply String.eqb_eq. }
    rewrite E. now apply String.eqb_eq.
Qed.

(** C5, as amended.  For a webhook with operation [publish],
    [isNewerVersion] holds exactly when the first entry of stage
    [PUBLISHED] in [documentInStages] has the item's own [updatedAt].  For
    an item with at most one such entry (the content API returns one
    version per stage) that is to say that [documentInStages] has a
    [PUBLISHED] entry whose [updatedAt] is the item's own; an item without
    a [PUBLISHED] entry is not fresh.  Whenever the retry loop is left with
    an item before its tenth attempt has failed, that item was judged fresh
    and its first [PUBLISHED] entry has the item's [updatedAt]. *)
Theorem C5_publish_is_fresh_at_own_time
    (Document Asset : Type) (cachedItem : option CachedItem)
    (fetch : nat -> option HygraphItem) (fetched : Effect Document Asset) (kind : string)
    (hygraphItem : HygraphItem) :
  (isNewerVersion publish hygraphItem cachedItem = true
   <-> firstPublishedAtOwnTime hygraphItem) /\
  ((publishedCount hygraphItem <= 1)%nat ->
   (isNewerVersion publish hygraphItem cachedItem = true <-> publishedAtOwnTime hygraphItem)) /\
  (publishedCount hygraphItem = 0%nat ->
     isNewerVersion publish hygraphItem cachedItem = false) /\
  (forall fuel trace item gotNewerVersion tries trace',
     retry Document Asset publish cachedItem fetch fetched kind fuel 0 trace
     = Some (Settled item gotNewerVersion tries trace') ->
     (gotNewerVersion = true <-> (tries < 10)%nat) /\
     (gotNewerVersion = true -> firstPublishedAtOwnTime item)).
Proof.
  split; [|split; [|split]].
  - apply publish_fresh_first.
  - intros Hone.
    split; [apply publish_fresh_published|now apply published_publish_fresh].
  - unfold publishedCount, isNewerVersion, publishedItem.
    destruct (documentInStages hygraphItem) as [docs|]; [|reflexivity].
    rewrite find_filter.
    destruct (List.filter _ docs); [reflexivity|discriminate].
  - intros fuel trace item got tries trace' H.
    apply retry_settled in H as (Hgot & Ht & Hf). split.
    + split.
      * intros Hg. apply Ht; [exact Hg|lia].
      * intros Hlt. destruct got; [reflexivity|].
        destruct (Hf eq_refl) as (_ & _ & Hten). specialize (Hten ltac:(lia)). lia.
    + intros Hg. rewrite Hg in Hgot. symmetry in Hgot.
      eapply publish_fresh_first; eauto.
Qed.

(** The theorem at the page that the publish has reached. *)
Lemma C5_witness :
  isNewerVersion publish Sample.freshPage (Some Sample.cachedPage) = true
  <-> publishedAtOwnTime Sample.freshPage.
Proof.
  apply (C5_publish_is_fresh_at_own_time unit unit (Some Sample.cachedPage)
           Sample.catchesUp (FetchEntry "p1" "Page") "entry" Sample.freshPage).
  vm_compute. lia.
Defined.

(** C5 as stated fails: a page with two [PUBLISHED] entries, the second of
    which has the page's own [updatedAt], contains such an entry and is
    still not fresh, because [find] stops at the first. *)
Lemma C5_second_published_entry_is_not_seen :
  ~ (forall hygraphItem cachedItem,
       isNewerVersion publish hygraphItem cachedItem = true
       <-> publishedAtOwnTime hygraphItem).
Proof.
  intros H.
  assert (Hfresh : isNewerVersion publish Sample.twicePublished None = true).
  { apply H. unfold publishedAtOwnTime. eexists. eexists. split; [reflexivity|].
    split; [right; left; reflexivity|]. split; reflexivity. }
  discriminate Hfresh.
Qed.

(** ** C6 *)

Lemma ltb_irrefl s : String.ltb s s = false.
Proof.
  unfold String.ltb. pose proof (String.compare_antisym s s) as H.
  destruct (String.compare s s); simpl in H; congruence.
Qed.

(** C6.  For a webhook with operation [update], [isNewerVersion] holds
    exactly when there is no cached item or the cached [updatedAt] is
    strictly below the fetched one, in the order of JavaScript strings; a
    fetched item whose [updatedAt] equals the cached one is not fresh.  The
    flag that the retry loop leaves is always the verdict of the predicate
    on the item it leaves, and when the first [k] fetches are stale and the
    next one, among the ten, is fresh, the loop stops right there, after
    [k + 1] fetches. *)
Theorem C6_update_is_fresh_when_strictly_newer
    (Document Asset : Type) (cachedItem : option CachedItem)
    (fetch : nat -> option HygraphItem) (fetched : Effect Document Asset) (kind : string) :
  (forall hygraphItem,
     isNewerVersion update hygraphItem cachedItem = true <->
     cachedItem = None \/
     exists cached, cachedItem = Some cached /\
       String.ltb (cached_updatedAt cached) (item_updatedAt hygraphItem) = true) /\
  (forall hygraphItem cached,
     cachedItem = Some cached -> item_updatedAt hygraphItem = cached_updatedAt cached ->
     isNewerVersion update hygraphItem cachedItem = false) /\
  (forall fuel trace item gotNewerVersion tries trace',
     retry Document Asset update cachedItem fetch fetched kind fuel 0 trace
     = Some (Settled item gotNewerVersion tries trace') ->
     gotNewerVersion = isNewerVersion update item cachedItem) /\
  (forall k item trace,
     (k < 10)%nat ->
     (forall j, (j < k)%nat ->
        exists stale, fetch j = Some stale /\
          isNewerVersion update stale cachedItem = false) ->
     fetch k = Some item ->
     isNewerVersion update item cachedItem = true ->
     retry Document Asset update cachedItem fetch fetched kind 10 0 trace
     = Some (Settled item true k
               (trace ++ attemptsEffects Document Asset fetched kind 0 (S k)))).
Proof.
  split; [|split; [|split]].
  - intros hygraphItem. simpl. destruct cachedItem as [cached|].
    + split.
      * intros H. right. eauto.
      * intros [[=]|(c & [= <-] & H)]. exact H.
    + split; [now left|reflexivity].
  - intros hygraphItem cached -> Heq. simpl. rewrite Heq. apply ltb_irrefl.
  - intros fuel trace item got tries trace' H.
    now apply retry_settled in H as (Hgot & _).
  - intros k item trace Hk Hstale Hsome Hfresh.
    replace 10%nat with (k + S (9 - k))%nat by lia.
    now apply retry_fresh.
Qed.

(** The theorem where the content API answers with the cached timestamp
    three times and with a newer one at the fourth fetch. *)
Lemma C6_witness :
  retry unit unit update (Some Sample.cachedPage) Sample.catchesUp
    (FetchEntry "p1" "Page") "entry" 10 0 []
  = Some (Settled Sample.freshPage true 3
            ([] ++ attemptsEffects unit unit (FetchEntry "p1" "Page") "entry" 0 4)).
Proof.
  apply (C6_update_is_fresh_when_strictly_newer unit unit (Some Sample.cachedPage)
           Sample.catchesUp (FetchEntry "p1" "Page") "entry").
  - lia.
  - intros j Hj. exists Sample.stalePage. split; [|reflexivity].
    unfold Sample.catchesUp. apply Nat.ltb_lt in Hj. now rewrite Hj.
  - reflexivity.
  - reflexivity.
Defined.

(** ** C7 *)

Lemma attemptsEffects_counts Document Asset (fetched : Effect Document Asset) kind count :
  isFetch fetched = true -> isWarning fetched = false ->
  isSleep fetched = false -> isCacheUpdate fetched = false ->
  length (List.filter isFetch (attemptsEffects Document Asset fetched kind 0 count)) = count /\
  List.filter isSleep (attemptsEffects Document Asset fetched kind 0 count)
  = repeat (Sleep 500) (count - 1) /\
  List.filter isWarning (attemptsEffects Document Asset fetched kind 0 count) = [] /\
  List.filter isCacheUpdate (attemptsEffects Document Asset fetched kind 0 count) = [].
Proof.
  intros Hf Hw Hs Hc.
  assert (Hfrom : forall n from,
            length (List.filter isFetch (attemptsEffects Document Asset fetched kind (S from) n))
            = n /\
            List.filter isSleep (attemptsEffects Document Asset fetched kind (S from) n)
            = repeat (Sleep 500) n /\
            List.filter isWarning (attemptsEffects Document Asset fetched kind (S from) n) = [] /\
            List.filter isCacheUpdate (attemptsEffects Document Asset fetched kind (S from) n)
            = []).
  { induction n as [|n IH]; intros from; [repeat split|].
    destruct (IH (S from)) as (H1 & H2 & H3 & H4).
    change (attemptsEffects Document Asset fetched kind (S from) (S n))
      with (attemptEffects Document Asset fetched kind (S from)
            ++ attemptsEffects Document Asset fetched kind (S (S from)) n).
    rewrite !List.filter_app, !List.length_app, H1, H2, H3, H4.
    unfold attemptEffects. simpl. rewrite Hf, Hw, Hs, Hc. repeat split. }
  destruct count as [|count]; [repeat split|].
  destruct (Hfrom count 0%nat) as (H1 & H2 & H3 & H4).
  change (attemptsEffects Document Asset fetched kind 0 (S count))
    with (attemptEffects Document Asset fetched kind 0
          ++ attemptsEffects Document Asset fetched kind 1 count).
  rewrite !List.filter_app, !List.length_app, H1, H2, H3, H4.
  unfold attemptEffects. simpl. rewrite Hf, Hw, Hs, Hc. simpl.
  rewrite Nat.sub_0_r. repeat split.
Qed.

Section WebhookFacts.

Variables Document Asset : Type.
Variable convertDocument : HygraphItem -> option Document.
Variable convertAsset : HygraphItem -> Asset.
Variable cachedDocumentById : string -> option CachedItem.
Variable cachedAssetById : string -> option CachedItem.
Variable getEntryById : nat -> string -> string -> option HygraphItem.
Variable getAssetById : nat -> string -> option HygraphItem.

Let handle :=
  onWebhook Document Asset convertDocument convertAsset
    cachedDocumentById cachedAssetById getEntryById getAssetById.


End WebhookFacts.


(** ** The pages of [getEntries] *)

Lemma NoDup_names_filter (f : Stream -> bool) (l : list Stream) :
  List.NoDup (List.map stream_name l) -> List.NoDup (List.map stream_name (List.filter f l)).
Proof.
  induction l as [|s l IH]; simpl; intros H; [constructor|].
  apply List.NoDup_cons_iff in H as [Hs Hl]. destruct (f s); simpl; auto.
  apply List.NoDup_cons_iff. split; auto.
  intros Hin. apply Hs. apply in_map_iff in Hin as (s' & <- & Hin).
  apply in_map. apply filter_In in Hin. tauto.
Qed.

Lemma streamsQuery_ext sk1 sk2 (l : list Stream) :
  (forall s, In s l -> sk1 (stream_name s) = sk2 (stream_name s)) ->
  streamsQuery sk1 l = streamsQuery sk2 l.
Proof.
  intros H. unfold streamsQuery. apply map_ext_in. intros s Hs. now rewrite H.
Qed.

Lemma get_streamsQuery sk (l : list Stream) s :
  List.NoDup (List.map stream_name l) -> In s l ->
  Obj.get (stream_name s) (streamsQuery sk l)
  = Some (connectionQuery (stream_first s) (sk (stream_name s)) (stream_fields s)).
Proof.
  induction l as [|s0 l IH]; simpl; intros Hnd Hin; [tauto|].
  apply List.NoDup_cons_iff in Hnd as [Hs0 Hl].
  destruct (String.eqb_spec (stream_name s) (stream_name s0)) as [Heq|Hne].
  - destruct Hin as [->|Hin]; [reflexivity|].
    exfalso. apply Hs0. rewrite <- Heq. now apply in_map.
  - destruct Hin as [->|Hin]; [congruence|auto].
Qed.

Lemma define_streamsQuery sk (l : list Stream) s v :
  List.NoDup (List.map stream_name l) -> In s l ->
  Obj.define (stream_name s) (connectionQuery (stream_first s) v (stream_fields s))
    (streamsQuery sk l)
  = streamsQuery (fun x => if String.eqb x (stream_name s) then v else sk x) l.
Proof.
  induction l as [|s0 l IH]; simpl; intros Hnd Hin; [tauto|].
  apply List.NoDup_cons_iff in Hnd as [Hs0 Hl].
  destruct (String.eqb_spec (stream_name s) (stream_name s0)) as [Heq|Hne].
  - assert (s = s0) as ->.
    { destruct Hin as [->|Hin]; [reflexivity|].
      exfalso. apply Hs0. rewrite <- Heq. now apply in_map. }
    rewrite String.eqb_refl. f_equal.
    apply streamsQuery_ext. intros s Hs.
    destruct (String.eqb_spec (stream_name s) (stream_name s0)) as [Heq'|_]; [|reflexivity].
    exfalso. apply Hs0. rewrite <- Heq'. now apply in_map.
  - destruct Hin as [->|Hin]; [congruence|].
    apply String.eqb_neq in Hne. rewrite String.eqb_sym, Hne.
    f_equal. auto.
Qed.

Lemma set_streamsQuery sk (l : list Stream) s v :
  List.NoDup (List.map stream_name l) -> In s l ->
  Obj.set (stream_name s) (connectionQuery (stream_first s) v (stream_fields s))
    (streamsQuery sk l)
  = streamsQuery (fun x => if String.eqb x (stream_name s) then v else sk x) l.
Proof.
  intros Hnd Hin. rewrite set_own; [now apply define_streamsQuery|].
  unfold Obj.keys, streamsQuery. rewrite List.map_map. cbn [fst].
  now apply (in_map stream_name).
Qed.

(** Advancing the offset of one stream of the combined query. *)
Lemma addToSkip_streamsQuery sk (l : list Stream) s size :
  List.NoDup (List.map stream_name l) -> In s l ->
  addToSkip size (stream_name s) (streamsQuery sk l)
  = Ok (streamsQuery
          (fun x => if String.eqb x (stream_name s) then sk (stream_name s) + size else sk x) l).
Proof.
  intros Hnd Hin. unfold addToSkip. rewrite (get_streamsQuery sk l s Hnd Hin).
  simpl. f_equal. now apply (set_streamsQuery sk l s).
Qed.

Lemma named_In l s : In s l -> named l (stream_name s) = true.
Proof.
  intros H. apply existsb_exists. exists s. split; [exact H|apply String.eqb_refl].
Qed.

Lemma named_false l x : ~ In x (List.map stream_name l) -> named l x = false.
Proof.
  intros H. apply not_true_is_false. intros Ht.
  apply existsb_exists in Ht as (s & Hs & Heq). apply String.eqb_eq in Heq.
  apply H. rewrite <- Heq. now apply in_map.
Qed.

Lemma foldM_cons {A B} (f : A -> B -> res A) b l a :
  foldM f (b :: l) a = bind (f a b) (foldM f l).
Proof. reflexivity. Qed.

(** One iteration of the [for ... of] loop, for a stream of the query. *)
Lemma mergeModelResult_stream sk (all : list Stream) s acc types nodes next size :
  List.NoDup (List.map stream_name all) -> In s all ->
  mergeModelResult (mkMergeState (streamsQuery sk all) acc types)
    (stream_name s, mkModelResult nodes (mkPageInfo next size))
  = Ok (mkMergeState
          (streamsQuery
             (fun x => if String.eqb x (stream_name s) && next
                       then sk (stream_name s) + size else sk x) all)
          (acc ++ List.map removeAliasFieldNames nodes)
          (types ++ if next then [stream_name s] else [])).
Proof.
  intros Hall Hin. unfold mergeModelResult. simpl. destruct next.
  - rewrite (addToSkip_streamsQuery sk all s size Hall Hin). simpl.
    do 2 f_equal. apply streamsQuery_ext. intros s' _. now rewrite andb_true_r.
  - simpl. rewrite app_nil_r. do 2 f_equal. apply streamsQuery_ext.
    intros s' _. now rewrite andb_false_r.
Qed.

(** The [for ... of] loop over a response in which the streams [l] of the
    query answer: their entries are appended, and the offsets of those that
    report a next page are advanced by the reported page size. *)
Lemma merge_response (all : list Stream)
    (nodes : string -> list jsval) (next : string -> bool) (size : string -> Z)
    (l : list Stream) :
  List.NoDup (List.map stream_name all) -> incl l all ->
  List.NoDup (List.map stream_name l) ->
  forall sk acc types,
    exists sk',
      foldM mergeModelResult
        (List.map
           (fun s => (stream_name s,
                      mkModelResult (nodes (stream_name s))
                        (mkPageInfo (next (stream_name s)) (size (stream_name s)))))
           l)
        (mkMergeState (streamsQuery sk all) acc types)
      = Ok (mkMergeState (streamsQuery sk' all)
              (acc ++ flat_map (fun s => List.map removeAliasFieldNames (nodes (stream_name s))) l)
              (types ++ List.map stream_name
                          (List.filter (fun s => next (stream_name s)) l))) /\
      (forall x, sk' x = if named l x && next x then sk x + size x else sk x).
Proof.
  intros Hall. induction l as [|s l IH]; intros Hincl Hnd sk acc types.
  - exists sk. simpl. rewrite !app_nil_r. split; reflexivity.
  - simpl in Hnd. apply List.NoDup_cons_iff in Hnd as [Hs Hl].
    assert (Hin : In s all) by (apply Hincl; now left).
    assert (Hincl' : incl l all) by (intros x Hx; apply Hincl; now right).
    rewrite List.map_cons, foldM_cons.
    rewrite (mergeModelResult_stream sk all s acc types _ _ _ Hall Hin).
    cbn [bind].
    match goal with
    | |- context [foldM _ _ (mkMergeState (streamsQuery ?sk1 all) ?acc1 ?types1)] =>
        destruct (IH Hincl' Hl sk1 acc1 types1) as (sk' & Hfold & Hsk)
    end.
    exists sk'. split.
    + rewrite Hfold. cbn [flat_map List.filter].
      destruct (next (stream_name s)); cbn [List.map]; now rewrite <- !app_assoc.
    + intros x. rewrite Hsk. cbn [named existsb]. fold (named l x).
      destruct (String.eqb_spec (stream_name s) x) as [<-|Hne].
      * rewrite String.eqb_refl, (named_false l _ Hs). simpl.
        destruct (next (stream_name s)); reflexivity.
      * apply String.eqb_neq in Hne. rewrite String.eqb_sym, Hne. reflexivity.
Qed.

(** [_.pick] by the names of some of the streams keeps exactly those
    streams. *)
Lemma pick_streamsQuery sk (all : list Stream) (f : Stream -> bool) :
  List.NoDup (List.map stream_name all) ->
  Obj.pick (streamsQuery sk all) (List.map stream_name (List.filter f all))
  = streamsQuery sk (List.filter f all).
Proof.
  intros Hall. unfold Obj.pick.
  assert (Hgen : forall l acc,
            incl l all -> List.NoDup (List.map stream_name l) ->
            (forall s, In s l -> ~ In (stream_name s) (Obj.keys acc)) ->
            fold_left
              (fun acc n =>
                 match Obj.get n (streamsQuery sk all) with
                 | Some v => Obj.define n v acc
                 | None => acc
                 end)
              (List.map stream_name l) acc
            = acc ++ streamsQuery sk l).
  { induction l as [|s l IH]; intros acc Hincl Hnd Hacc; simpl.
    - now rewrite app_nil_r.
    - apply List.NoDup_cons_iff in Hnd as [Hs Hl].
      rewrite (get_streamsQuery sk all s Hall) by (apply Hincl; now left).
      rewrite define_fresh by (apply Hacc; now left).
      rewrite IH.
      + now rewrite <- app_assoc.
      + intros x Hx. apply Hincl. now right.
      + exact Hl.
      + intros s' Hs' Hin. unfold Obj.keys in Hin. rewrite List.map_app in Hin.
        apply in_app_iff in Hin as [Hin|[Hin|[]]].
        * apply (Hacc s'); [now right|exact Hin].
        * simpl in Hin. apply Hs. rewrite Hin. now apply in_map. }
  rewrite Hgen; [reflexivity| | |intros s _ []].
  - intros s Hs. apply filter_In in Hs. tauto.
  - now apply NoDup_names_filter.
Qed.

Lemma fetchPages_unfold request fuel round (query : obj) result sent :
  fetchPages request (S fuel) round query result sent =
  let text := convertASTToQuery [("query", JObj query)] in
  match request round text with
  | inl error => Some (mkFetchOutcome [] (sent ++ [text]) [fetchEntriesWarning error text])
  | inr queryResult =>
      match foldM mergeModelResult queryResult (mkMergeState query result []) with
      | Ok st =>
          match ms_typesWithNextPage st with
          | _ :: _ =>
              fetchPages request fuel (S round)
                (Obj.pick (ms_query st) (ms_typesWithNextPage st)) (ms_result st)
                (sent ++ [text])
          | [] => Some (mkFetchOutcome (ms_result st) (sent ++ [text]) [])
          end
      | Throw error =>
          Some (mkFetchOutcome [] (sent ++ [text]) [fetchEntriesWarning error text])
      | OutOfFuel => None
      end
  end.
Proof. reflexivity. Qed.

Section PagingFacts.

Variable streams : list Stream.
Variable pages : string -> nat.
Variable page : nat -> string -> Page.

Hypothesis distinct : List.NoDup (List.map stream_name streams).

Let active := activeAt streams pages.
Let skip := skipAt page.
Let rounds := lastRound streams pages.

Lemma activeAt_next r :
  List.filter (fun s => (S r <? pages (stream_name s))%nat) (active r) = active (S r).
Proof.
  unfold active, activeAt. induction streams as [|s l IH]; simpl; [reflexivity|].
  assert (IH' := IH (proj2 (proj1 (List.NoDup_cons_iff _ _) distinct))).
  destruct (r <? pages (stream_name s))%nat eqn:E1;
    destruct (S r <? pages (stream_name s))%nat eqn:E2; simpl; rewrite ?E2, ?IH'; auto.
  apply Nat.ltb_lt in E2. apply Nat.ltb_ge in E1. lia.
Qed.

Lemma active_nil r : active r = [] <-> (rounds <= r)%nat.
Proof.
  unfold active, activeAt, rounds, lastRound. clear distinct.
  induction streams as [|s l IH]; simpl; [split; [lia|reflexivity]|].
  destruct (r <? pages (stream_name s))%nat eqn:E.
  - apply Nat.ltb_lt in E. split; [discriminate|lia].
  - apply Nat.ltb_ge in E. rewrite IH. lia.
Qed.

Lemma active_distinct r : List.NoDup (List.map stream_name (active r)).
Proof. apply NoDup_names_filter, distinct. Qed.

Lemma active_In r s : In s (active (S r)) -> In s (active r).
Proof.
  unfold active, activeAt. rewrite !filter_In. intros [Hin Hlt].
  split; [exact Hin|]. apply Nat.ltb_lt in Hlt. apply Nat.ltb_lt. lia.
Qed.

Variable request : nat -> string -> string + ConnectionResult.

Hypothesis answers :
  forall r, (r < rounds)%nat ->
    request r (queryAt streams pages page r) = inr (responseAt streams pages page r).

(** From round [r] on, the loop makes the remaining rounds and no more. *)
Lemma fetchPages_rounds d : forall r fuel acc sent,
  (r + S d)%nat = rounds -> (S d <= fuel)%nat ->
  fetchPages request fuel r (streamsQuery (skip r) (active r)) acc sent
  = Some (mkFetchOutcome
            (acc ++ flat_map (entriesAt streams pages page) (seq r (S d)))
            (sent ++ List.map (queryAt streams pages page) (seq r (S d)))
            []).
Proof.
  induction d as [|d IH]; intros r fuel acc sent Hr Hfuel;
    (destruct fuel as [|fuel]; [lia|]);
    rewrite fetchPages_unfold; cbv zeta;
    change (convertASTToQuery [("query", JObj (streamsQuery (skip r) (active r)))])
      with (queryAt streams pages page r);
    rewrite answers by lia;
    destruct (merge_response (active r)
                (fun x => page_nodes (page r x))
                (fun x => (S r <? pages x)%nat)
                (fun x => page_size (page r x))
                (active r) (active_distinct r) (incl_refl _) (active_distinct r)
                (skip r) acc []) as (sk' & Hmerge & Hsk);
    unfold responseAt; fold active; rewrite Hmerge;
    cbn [ms_typesWithNextPage ms_query ms_result app];
    rewrite activeAt_next;
    fold (entriesAt streams pages page r).
  - assert (Hnil : active (S r) = []) by (apply active_nil; lia).
    rewrite Hnil. simpl. rewrite app_nil_r. reflexivity.
  - assert (Hsome : active (S r) <> []) by (rewrite active_nil; lia).
    assert (Hpick : Obj.pick (streamsQuery sk' (active r))
                      (List.map stream_name (active (S r)))
                    = streamsQuery (skip (S r)) (active (S r))).
    { transitivity (streamsQuery sk' (active (S r))).
      - rewrite <- (activeAt_next r). apply pick_streamsQuery, active_distinct.
      - apply streamsQuery_ext. intros s Hs. rewrite Hsk.
        rewrite (named_In (active r) s (active_In r s Hs)).
        unfold active, activeAt in Hs. apply filter_In in Hs as [_ Hs]. rewrite Hs.
        reflexivity. }
    rewrite Hpick.
    destruct (List.map stream_name (active (S r))) as [|n0 l0] eqn:Eact.
    + destruct (active (S r)); [congruence|discriminate].
    + rewrite (IH (S r) fuel) by lia.
      cbn [seq flat_map List.map]. now rewrite <- !app_assoc.
Qed.

(** A run in which the first [k] requests are answered, with more rounds
    to come. *)
Variable k : nat.

Hypothesis answered_before :
  forall r, (r < k)%nat ->
    request r (queryAt streams pages page r) = inr (responseAt streams pages page r).

Hypothesis more_rounds : (k < rounds)%nat.

(** The loop reaches round [k] with the entries of the rounds before it. *)
Lemma fetchPages_reaches d : forall r fuel acc sent,
  (r + d)%nat = k ->
  fetchPages request (d + fuel) r (streamsQuery (skip r) (active r)) acc sent
  = fetchPages request fuel k (streamsQuery (skip k) (active k))
      (acc ++ flat_map (entriesAt streams pages page) (seq r d))
      (sent ++ List.map (queryAt streams pages page) (seq r d)).
Proof.
  induction d as [|d IH]; intros r fuel acc sent Hr.
  - rewrite Nat.add_0_r in Hr. subst r. cbn [Nat.add seq flat_map List.map].
    now rewrite !app_nil_r.
  - change (S d + fuel)%nat with (S (d + fuel)).
    rewrite fetchPages_unfold; cbv zeta.
    change (convertASTToQuery [("query", JObj (streamsQuery (skip r) (active r)))])
      with (queryAt streams pages page r).
    rewrite answered_before by lia.
    destruct (merge_response (active r)
                (fun x => page_nodes (page r x))
                (fun x => (S r <? pages x)%nat)
                (fun x => page_size (page r x))
                (active r) (active_distinct r) (incl_refl _) (active_distinct r)
                (skip r) acc []) as (sk' & Hmerge & Hsk).
    unfold responseAt; fold active; rewrite Hmerge.
    cbn [ms_typesWithNextPage ms_query ms_result app].
    rewrite activeAt_next.
    fold (entriesAt streams pages page r).
    assert (Hsome : active (S r) <> []) by (rewrite active_nil; lia).
    assert (Hpick : Obj.pick (streamsQuery sk' (active r))
                      (List.map stream_name (active (S r)))
                    = streamsQuery (skip (S r)) (active (S r))).
    { transitivity (streamsQuery sk' (active (S r))).
      - rewrite <- (activeAt_next r). apply pick_streamsQuery, active_distinct.
      - apply streamsQuery_ext. intros s Hs. rewrite Hsk.
        rewrite (named_In (active r) s (active_In r s Hs)).
        unfold active, activeAt in Hs. apply filter_In in Hs as [_ Hs]. rewrite Hs.
        reflexivity. }
    rewrite Hpick.
    destruct (List.map stream_name (active (S r))) as [|n0 l0] eqn:Eact.
    + destruct (active (S r)); [congruence|discriminate].
    + rewrite (IH (S r) fuel) by lia.
      cbn [seq flat_map List.map]. now rewrite <- !app_assoc.
Qed.

End PagingFacts.

(** The combined query that [getEntries] starts from has one entry per
    key. *)
Lemma initialQuery_distinct depth models maxPaginationSize query :
  initialQuery depth models maxPaginationSize = Ok query ->
  List.NoDup (Obj.keys query).
Proof.
  unfold initialQuery.
  apply (foldM_invariant (fun q : obj => List.NoDup (Obj.keys q))); [|constructor].
  intros q model q' _ Hq H. apply bind_Ok in H as (nodeFields & _ & [= <-]).
  now apply set_keys_NoDup.
Qed.

Lemma set_connection_streams name first fields (streams : list Stream) :
  exists streams',
    Obj.set name (connectionQuery first 0 fields) (streamsQuery (fun _ => 0) streams)
    = streamsQuery (fun _ => 0) streams'.
Proof.
  assert (Hdefine : exists streams',
            Obj.define name (connectionQuery first 0 fields) (streamsQuery (fun _ => 0) streams)
            = streamsQuery (fun _ => 0) streams').
  { induction streams as [|s l [l' IH]]; simpl.
    - now exists [mkStream name first fields].
    - destruct (String.eqb_spec name (stream_name s)) as [->|_].
      + now exists (mkStream (stream_name s) first fields :: l).
      + exists (s :: l'). simpl. now rewrite IH. }
  destruct (set_cases name (connectionQuery first 0 fields) (streamsQuery (fun _ => 0) streams))
    as [->|(_ & _ & ->)]; [exact Hdefine|eauto].
Qed.

(** The combined query that [getEntries] starts from is the query of some
    streams, all at offset 0. *)
Lemma initialQuery_streams depth models maxPaginationSize query :
  initialQuery depth models maxPaginationSize = Ok query ->
  exists streams, query = streamsQuery (fun _ => 0) streams.
Proof.
  unfold initialQuery.
  apply (foldM_invariant (fun q : obj => exists streams, q = streamsQuery (fun _ => 0) streams)).
  - intros q model q' _ [streams ->] H.
    apply bind_Ok in H as (nodeFields & _ & [= <-]).
    destruct (set_connection_streams
                (toLowerCaseFirst (pluralId (context model)) +:+ "Connection")
                (default 100 maxPaginationSize) nodeFields streams) as [streams' ->].
    eauto.
  - now exists [].
Qed.

Lemma lastRound_positive (streams : list Stream) pages :
  streams <> [] ->
  (forall s, In s streams -> (1 <= pages (stream_name s))%nat) ->
  (1 <= lastRound streams pages)%nat.
Proof.
  unfold lastRound. destruct streams as [|s l]; [congruence|].
  intros _ H. specialize (H s (or_introl eq_refl)). simpl. lia.
Qed.

(** ** C4 *)

(** C4.  Let [getEntries] start from the combined query of a non-empty
    list of streams, and let stream [i] have [pages i >= 1] pages: in every
    round the content API answers each stream still asked for, in the order
    of the query, reporting [hasNextPage] until the stream's last page.
    Then [getEntries] issues exactly [lastRound] requests, the largest
    [pages i]; the query of round [r] holds exactly the streams whose
    previous response reported a next page, each with its [skip] advanced by
    the page sizes reported to it so far; and the array returned is the
    concatenation, round by round and stream by stream, of all entries
    received (each passed through [removeAliasFieldNames]).  No warning is
    logged. *)
Theorem C4_rounds_are_the_longest_stream
    (request : nat -> string -> string + ConnectionResult)
    (depth : nat) (models : list ModelWithContext) (maxPaginationSize : option Z)
    (streams : list Stream) (pages : string -> nat) (page : nat -> string -> Page) :
  initialQuery depth models maxPaginationSize = Ok (streamsQuery (fun _ => 0) streams) ->
  streams <> [] ->
  (forall s, In s streams -> (1 <= pages (stream_name s))%nat) ->
  (forall r, (r < lastRound streams pages)%nat ->
     request r (queryAt streams pages page r) = inr (responseAt streams pages page r)) ->
  forall rounds, (lastRound streams pages <= rounds)%nat ->
    getEntries request depth rounds models maxPaginationSize
    = Ok (mkFetchOutcome
            (flat_map (entriesAt streams pages page) (seq 0 (lastRound streams pages)))
            (List.map (queryAt streams pages page) (seq 0 (lastRound streams pages)))
            []) /\
    length (List.map (queryAt streams pages page) (seq 0 (lastRound streams pages)))
    = lastRound streams pages /\
    (forall r,
       List.map stream_name (activeAt streams pages (S r))
       = List.map fst
           (List.filter (fun kv => hasNextPage (pageInfo (snd kv)))
              (responseAt streams pages page r))).
Proof.
  intros Hinit Hne Hpages Hanswers rounds Hrounds.
  assert (Hdistinct : List.NoDup (List.map stream_name streams)).
  { apply initialQuery_distinct in Hinit. unfold Obj.keys, streamsQuery in Hinit.
    rewrite List.map_map in Hinit. exact Hinit. }
  pose proof (lastRound_positive streams pages Hne Hpages) as Hpos.
  split; [|split].
  - unfold getEntries. rewrite Hinit. cbn [mbind res_bind bind].
    assert (Hactive : activeAt streams pages 0 = streams).
    { unfold activeAt. rewrite forallb_filter_id; [reflexivity|].
      apply forallb_forall. intros s Hs. apply Nat.ltb_lt. specialize (Hpages s Hs). lia. }
    pose proof (fetchPages_rounds streams pages page Hdistinct request Hanswers
                  (lastRound streams pages - 1) 0 rounds [] []) as Hrun.
    rewrite Hactive in Hrun. cbn [skipAt] in Hrun.
    replace (S (lastRound streams pages - 1)) with (lastRound streams pages) in Hrun by lia.
    rewrite Hrun by lia. reflexivity.
  - now rewrite List.length_map, List.length_seq.
  - intros r. rewrite <- (activeAt_next streams pages Hdistinct r).
    unfold responseAt. induction (activeAt streams pages r) as [|s l IH]; [reflexivity|].
    cbn [List.map List.filter snd pageInfo hasNextPage].
    destruct (S r <? pages (stream_name s))%nat; cbn [List.map fst]; now rewrite IH.
Qed.

(** The theorem at the sample site: pages come in two rounds, posts in
    one; two requests are made and all four entries returned. *)
Lemma C4_witness :
  getEntries Sample.answering 3 5 Sample.models (Some 2)
  = Ok (mkFetchOutcome
          (flat_map (entriesAt Sample.siteStreams Sample.sitePages Sample.sitePage)
             (seq 0 (lastRound Sample.siteStreams Sample.sitePages)))
          (List.map (queryAt Sample.siteStreams Sample.sitePages Sample.sitePage)
             (seq 0 (lastRound Sample.siteStreams Sample.sitePages)))
          []).
Proof.
  apply (C4_rounds_are_the_longest_stream Sample.answering 3 Sample.models (Some 2)
           Sample.siteStreams Sample.sitePages Sample.sitePage).
  - vm_compute. reflexivity.
  - discriminate.
  - intros s [<-|[<-|[]]]; vm_compute; lia.
  - intros r Hr. change (lastRound Sample.siteStreams Sample.sitePages) with 2%nat in Hr.
    destruct r as [|[|r]]; [reflexivity|reflexivity|lia].
  - vm_compute. lia.
Defined.

(** ** C8 *)

(** Merging a response never leaves the embedding without a result. *)
Lemma merge_total (l : ConnectionResult) : forall st,
  foldM mergeModelResult l st <> OutOfFuel.
Proof.
  apply foldM_total. intros st kv _. unfold mergeModelResult.
  destruct (hasNextPage (pageInfo (snd kv))); [|discriminate].
  unfold addToSkip.
  repeat match goal with
         | |- context [match ?x with _ => _ end] => destruct x; try discriminate
         | |- context [if ?x then _ else _] => destruct x; try discriminate
         end.
Qed.

(** A loop that is not over after [fuel] rounds has sent [fuel] requests
    and goes on from some state. *)
Lemma fetchPages_continues request fuel : forall round query result sent,
  fetchPages request fuel round query result sent = None ->
  exists query' result' sent',
    length sent' = (length sent + fuel)%nat /\
    forall more,
      fetchPages request (fuel + more) round query result sent
      = fetchPages request more (round + fuel) query' result' sent'.
Proof.
  induction fuel as [|fuel IH]; intros round query result sent H.
  - exists query, result, sent. split; [lia|]. intros more.
    now rewrite Nat.add_0_r.
  - rewrite fetchPages_unfold in H. cbv zeta in H.
    destruct (request round _) as [error|queryResult] eqn:Ereq; [discriminate|].
    destruct (foldM mergeModelResult queryResult _) as [st|e|] eqn:Emerge;
      [|discriminate|exfalso; revert Emerge; apply merge_total].
    destruct (ms_typesWithNextPage st) as [|n l] eqn:Et; [discriminate|].
    destruct (IH _ _ _ _ H) as (query' & result' & sent' & Hlen & Hrun).
    exists query', result', sent'. split.
    + rewrite Hlen, List.length_app. simpl. lia.
    + intros more. change (S fuel + more)%nat with (S (fuel + more)).
      rewrite fetchPages_unfold. cbv zeta. rewrite Ereq, Emerge, Et.
      rewrite Hrun. f_equal. lia.
Qed.

(** C8.  Let the first [k] requests of [getEntries] be answered and leave
    more to fetch, and let the next request be rejected.  Then, however
    many rounds are allowed, [getEntries] returns the empty array after
    exactly [k + 1] requests and logs exactly one warning, made of that
    error and of the query that was rejected.  When the combined query is
    that of a list of streams whose pages the content API had served round
    by round, the requests are those of the rounds [0 .. k], and the loop
    was holding all the entries of the rounds before [k] when the request
    was rejected: they are not returned. *)
Theorem C8_rejected_request_empties_the_result
    (request : nat -> string -> string + ConnectionResult)
    (depth : nat) (models : list ModelWithContext) (maxPaginationSize : option Z)
    (query : obj) (k : nat) (error : string) :
  initialQuery depth models maxPaginationSize = Ok query ->
  fetchPages request k 0 query [] [] = None ->
  (forall text, request k text = inl error) ->
  forall rounds, (k < rounds)%nat ->
    (exists sent text,
       getEntries request depth rounds models maxPaginationSize
       = Ok (mkFetchOutcome [] (sent ++ [text]) [fetchEntriesWarning error text]) /\
       length sent = k) /\
    (forall (streams : list Stream) (pages : string -> nat) (page : nat -> string -> Page),
       query = streamsQuery (fun _ => 0) streams ->
       (forall s, In s streams -> (1 <= pages (stream_name s))%nat) ->
       (k < lastRound streams pages)%nat ->
       (forall r, (r < k)%nat ->
          request r (queryAt streams pages page r) = inr (responseAt streams pages page r)) ->
       getEntries request depth rounds models maxPaginationSize
       = Ok (mkFetchOutcome []
               (List.map (queryAt streams pages page) (seq 0 (S k)))
               [fetchEntriesWarning error (queryAt streams pages page k)]) /\
       fetchPages request rounds 0 query [] []
       = fetchPages request (rounds - k) k
           (streamsQuery (skipAt page k) (activeAt streams pages k))
           (flat_map (entriesAt streams pages page) (seq 0 k))
           (List.map (queryAt streams pages page) (seq 0 k))).
Proof.
  intros Hinit Hgoes Hrejected rounds Hrounds. split.
  - destruct (fetchPages_continues request k 0 query [] [] Hgoes)
      as (query' & result' & sent' & Hlen & Hrun).
    exists sent', (convertASTToQuery [("query", JObj query')]).
    split; [|exact Hlen].
    unfold getEntries. rewrite Hinit. cbn [mbind res_bind bind].
    replace rounds with (k + S (rounds - S k))%nat by lia.
    rewrite Hrun, fetchPages_unfold. cbv zeta. cbn [Nat.add].
    now rewrite Hrejected.
  - intros streams pages page -> Hpages Hk Hanswers.
    assert (Hdistinct : List.NoDup (List.map stream_name streams)).
    { apply initialQuery_distinct in Hinit. unfold Obj.keys, streamsQuery in Hinit.
      rewrite List.map_map in Hinit. exact Hinit. }
    assert (Hactive : activeAt streams pages 0 = streams).
    { unfold activeAt. rewrite forallb_filter_id; [reflexivity|].
      apply forallb_forall. intros s Hs. apply Nat.ltb_lt. specialize (Hpages s Hs). lia. }
    pose proof (fetchPages_reaches streams pages page Hdistinct request k Hanswers Hk
                  k 0 (rounds - k) [] [] eq_refl) as Hrun.
    rewrite Hactive in Hrun. cbn [skipAt app] in Hrun.
    replace (k + (rounds - k))%nat with rounds in Hrun by lia.
    split; [|exact Hrun].
    unfold getEntries. rewrite Hinit. cbn [mbind res_bind bind]. rewrite Hrun.
    replace (rounds - k)%nat with (S (rounds - S k)) by lia.
    rewrite fetchPages_unfold. cbv zeta.
    change (convertASTToQuery
              [("query", JObj (streamsQuery (skipAt page k) (activeAt streams pages k)))])
      with (queryAt streams pages page k).
    rewrite Hrejected, seq_S, List.map_app. reflexivity.
Qed.

(** The theorem where the first round brings two pages and a post and the
    second request is rejected: nothing is returned. *)
Lemma C8_witness :
  getEntries Sample.failingSecond 3 5 Sample.models (Some 2)
  = Ok (mkFetchOutcome []
          (List.map (queryAt Sample.siteStreams Sample.sitePages Sample.sitePage) (seq 0 2))
          [fetchEntriesWarning "Error: socket hang up"
             (queryAt Sample.siteStreams Sample.sitePages Sample.sitePage 1)]) /\
  fetchPages Sample.failingSecond 5 0
    (streamsQuery (fun _ => 0) Sample.siteStreams) [] []
  = fetchPages Sample.failingSecond 4 1
      (streamsQuery (skipAt Sample.sitePage 1)
         (activeAt Sample.siteStreams Sample.sitePages 1))
      (flat_map (entriesAt Sample.siteStreams Sample.sitePages Sample.sitePage) (seq 0 1))
      (List.map (queryAt Sample.siteStreams Sample.sitePages Sample.sitePage) (seq 0 1)).
Proof.
  apply (proj2 (C8_rejected_request_empties_the_result Sample.failingSecond 3 Sample.models
                  (Some 2) (streamsQuery (fun _ => 0) Sample.siteStreams) 1
                  "Error: socket hang up"
                  ltac:(vm_compute; reflexivity) ltac:(vm_compute; reflexivity)
                  (fun _ => eq_refl) 5%nat ltac:(lia))
           Sample.siteStreams Sample.sitePages Sample.sitePage).
  - reflexivity.
  - intros s [<-|[<-|[]]]; vm_compute; lia.
  - vm_compute. lia.
  - intros r Hr. destruct r as [|r]; [reflexivity|lia].
Defined.

(** The entries that the loop was holding when the second request was
    rejected: two pages and a post. *)
Example entries_held_at_rejection :
  flat_map (entriesAt Sample.siteStreams Sample.sitePages Sample.sitePage) (seq 0 1)
  = [ Sample.node "Page" "p1"; Sample.node "Page" "p2"; Sample.node "Post" "q1" ].
Proof. reflexivity. Qed.

(** ** C9 *)

Lemma replaceAll_append c by_ (a b : string) :
  replaceAll c by_ (a +:+ b) = replaceAll c by_ a +:+ replaceAll c by_ b.
Proof.
  induction a as [|x a IH]; [reflexivity|].
  rewrite append_cons. cbn [replaceAll]. now rewrite IH, append_assoc.
Qed.

(** The two [replace] calls in a row escape each character on its own. *)
Lemma quoteString_escaped (value : string) :
  quoteString value = String dquote (escaped value +:+ String dquote EmptyString).
Proof.
  unfold quoteString. do 2 f_equal.
  induction value as [|c value IH]; [reflexivity|].
  cbn [replaceAll escaped]. rewrite replaceAll_append, IH. f_equal.
  unfold escapeChar.
  destruct (Ascii.eqb c dquote) eqn:Eq; [reflexivity|].
  cbn [replaceAll]. rewrite append_nil_r.
  destruct (Ascii.eqb c newline); reflexivity.
Qed.

Lemma concat_empty_cons (x : string) (xs : list string) :
  String.concat EmptyString (x :: xs) = x +:+ String.concat EmptyString xs.
Proof.
  destruct xs as [|y xs]; cbn [String.concat].
  - now rewrite append_nil_r.
  - now rewrite append_nil_l.
Qed.

Lemma appendArgEntry_text acc kv :
  acc <> EmptyString ->
  appendArgEntry acc kv = acc +:+ ", " +:+ fst kv +:+ ": " +:+ toString (snd kv).
Proof.
  intros Hacc. unfold appendArgEntry. apply String.eqb_neq in Hacc. now rewrite Hacc.
Qed.

Lemma appendArgEntry_nonempty acc kv : appendArgEntry acc kv <> EmptyString.
Proof.
  unfold appendArgEntry. destruct acc as [|x acc]; [|discriminate].
  cbn [String.eqb]. rewrite !append_nil_l. destruct (fst kv); discriminate.
Qed.

Lemma fold_appendArgEntry_from (entries : list (string * jsval)) : forall acc,
  acc <> EmptyString ->
  fold_left appendArgEntry entries acc
  = acc +:+ String.concat EmptyString
              (List.map (fun kv => ", " +:+ fst kv +:+ ": " +:+ toString (snd kv)) entries).
Proof.
  induction entries as [|kv entries IH]; intros acc Hacc.
  - cbn [fold_left List.map String.concat]. now rewrite append_nil_r.
  - cbn [fold_left List.map]. rewrite concat_empty_cons.
    rewrite (IH _ (appendArgEntry_nonempty acc kv)), (appendArgEntry_text acc kv Hacc).
    now rewrite !append_assoc.
Qed.

Lemma concat_comma_cons (x : string) (xs : list string) :
  String.concat ", " (x :: xs)
  = x +:+ String.concat EmptyString (List.map (fun y => ", " +:+ y) xs).
Proof.
  revert x. induction xs as [|y xs IH]; intros x.
  - cbn [List.map String.concat]. now rewrite append_nil_r.
  - change (String.concat ", " (x :: y :: xs))
      with (x +:+ ", " +:+ String.concat ", " (y :: xs)).
    rewrite (IH y). cbn [List.map]. rewrite concat_empty_cons.
    now rewrite !append_assoc.
Qed.

(** The reducer of [serializeQueryArgObject] joins the entries with a comma
    and a space, with nothing after the last. *)
Lemma fold_appendArgEntry (entries : list (string * jsval)) :
  fold_left appendArgEntry entries EmptyString
  = String.concat ", "
      (List.map (fun kv => fst kv +:+ ": " +:+ toString (snd kv)) entries).
Proof.
  destruct entries as [|kv entries]; [reflexivity|].
  cbn [fold_left List.map]. rewrite concat_comma_cons, List.map_map.
  rewrite (fold_appendArgEntry_from entries _ (appendArgEntry_nonempty _ kv)).
  reflexivity.
Qed.

(** What [serializeQueryArgValue] does by kind of value; for an object this
    needs that [_.reduce] iterates its own entries, which it does unless the
    object has a [length] that is a valid array length. *)
Lemma serializeQueryArgValue_by_kind :
  (forall s,
     serializeQueryArgValue (JStr s)
     = JStr (String dquote (escaped s +:+ String dquote EmptyString))) /\
  (forall items,
     serializeQueryArgValue (JArr items)
     = JStr ("[" +:+
             String.concat ", "
               (List.map (fun v => joinItem toString (serializeQueryArgValue v)) items)
             +:+ "]")) /\
  (forall o,
     arrayLikeLength o = None ->
     (forall e, Obj.get "enum" o = Some e -> truthy e = false) ->
     serializeQueryArgValue (JObj o)
     = JStr ("{ " +:+ String.concat ", " (List.map (argEntry serializeQueryArgValue) o)
             +:+ " }")) /\
  (forall o e,
     Obj.get "enum" o = Some e -> truthy e = true ->
     serializeQueryArgValue (JObj o) = e).
Proof.
  split; [|split; [|split]].
  - intros s. simpl. now rewrite quoteString_escaped.
  - reflexivity.
  - intros o Hlen Henum. cbn [serializeQueryArgValue]. rewrite Hlen.
    rewrite fold_appendArgEntry, List.map_map.
    destruct (Obj.get "enum" o) as [e|]; [rewrite (Henum e eq_refl)|]; reflexivity.
  - intros o e Hget He. cbn [serializeQueryArgValue]. now rewrite Hget, He.
Qed.

(** C9 at the failing input.  The claim has a plain object emitted as its
    own entries, [{ title: "Duet", length: 2 }]; the code hands it to
    [_.reduce], which takes an object with a numeric [length] for an array
    of that length and visits the indices 0 and 1, so the two entries are
    lost and two undefined ones are emitted. *)
Theorem C9_object_with_length_loses_its_entries :
  serializeQueryArgValue (JObj [("title", JStr "Duet"); ("length", JNum 2)])
  = JStr "{ 0: undefined, 1: undefined }" /\
  serializeQueryArgObject [("title", JStr "Duet"); ("length", JNum 2)]
  = "{ 0: undefined, 1: undefined }".
Proof. split; reflexivity. Qed.

(** * Further properties of the client and of the content source *)

(** ** The query in a log line *)

Lemma collapseSpaces_singleSpaced s : forall b,
  singleSpaced b (collapseSpaces b s) = true.
Proof.
  induction s as [|a s IH]; intros b; [reflexivity|].
  cbn [collapseSpaces]. destruct (isSpace a) eqn:Ea.
  - destruct b; [apply IH|].
    cbn [singleSpaced]. change (isSpace " ") with true. cbn. apply IH.
  - cbn [singleSpaced]. rewrite Ea. apply IH.
Qed.

Lemma collapseSpaces_fixed s : forall b,
  singleSpaced b s = true -> collapseSpaces b s = s.
Proof.
  induction s as [|a s IH]; intros b; [reflexivity|].
  cbn [singleSpaced collapseSpaces]. destruct (isSpace a) eqn:Ea.
  - intros H. apply andb_prop in H as [H Hs]. apply andb_prop in H as [Ha Hb].
    apply Ascii.eqb_eq in Ha. subst a. destruct b; [discriminate|].
    now rewrite (IH true Hs).
  - intros H. now rewrite (IH false H).
Qed.

Lemma singleSpaced_no_newline s : forall b,
  singleSpaced b s = true -> replaceAll newline EmptyString s = s.
Proof.
  induction s as [|a s IH]; intros b; [reflexivity|].
  cbn [singleSpaced replaceAll]. destruct (Ascii.eqb_spec a newline) as [->|Hne].
  - change (isSpace newline) with true. cbn. discriminate.
  - intros H. rewrite append_cons, append_nil_l. f_equal.
    destruct (isSpace a).
    + apply andb_prop in H as [_ Hs]. exact (IH _ Hs).
    + exact (IH _ H).
Qed.

Lemma hasChar_singleSpaced c s : forall b,
  singleSpaced b s = true -> isSpace c = true -> c <> " "%char -> hasChar c s = false.
Proof.
  induction s as [|a s IH]; intros b H Hc Hne; [reflexivity|].
  cbn [singleSpaced hasChar] in *. destruct (Ascii.eqb_spec a c) as [->|Hac].
  - rewrite Hc in H. apply andb_prop in H as [H _]. apply andb_prop in H as [H _].
    apply Ascii.eqb_eq in H. contradiction.
  - cbn. destruct (isSpace a).
    + apply andb_prop in H as [_ H]. eauto.
    + eauto.
Qed.

Lemma withoutSpaces_collapseSpaces s : forall b,
  withoutSpaces (collapseSpaces b s) = withoutSpaces s.
Proof.
  induction s as [|a s IH]; intros b; [reflexivity|].
  cbn [collapseSpaces withoutSpaces]. destruct (isSpace a) eqn:Ea.
  - destruct b; [apply IH|]. cbn [withoutSpaces]. change (isSpace " ") with true.
    cbv iota. apply IH.
  - cbn [withoutSpaces]. rewrite Ea. now rewrite IH.
Qed.

Lemma withoutSpaces_without_newlines s :
  withoutSpaces (replaceAll newline EmptyString s) = withoutSpaces s.
Proof.
  induction s as [|a s IH]; [reflexivity|].
  cbn [replaceAll withoutSpaces]. destruct (Ascii.eqb_spec a newline) as [->|Hne].
  - rewrite append_nil_l. change (isSpace newline) with true. cbv iota. exact IH.
  - rewrite append_cons, append_nil_l. cbn [withoutSpaces]. now rewrite IH.
Qed.

(** X1.  What [removeNewLinesAndCollapseSpaces] returns, for a text in
    ASCII, is single-spaced: its only whitespace characters are blanks, no
    blank follows another one, and so no line break is left.  Nothing but
    whitespace is touched: without its whitespace the result is the text
    without its whitespace. *)
Theorem removeNewLinesAndCollapseSpaces_single_spaced (str : string) :
  singleSpaced false (removeNewLinesAndCollapseSpaces str) = true /\
  hasChar newline (removeNewLinesAndCollapseSpaces str) = false /\
  withoutSpaces (removeNewLinesAndCollapseSpaces str) = withoutSpaces str.
Proof.
  assert (H : singleSpaced false (removeNewLinesAndCollapseSpaces str) = true)
    by apply collapseSpaces_singleSpaced.
  split; [exact H|]. split.
  - apply (hasChar_singleSpaced newline _ false H); [reflexivity|discriminate].
  - unfold removeNewLinesAndCollapseSpaces.
    now rewrite withoutSpaces_collapseSpaces, withoutSpaces_without_newlines.
Qed.

(** X2.  [removeNewLinesAndCollapseSpaces] is idempotent: a query that
    was collapsed for one log line is not changed by being collapsed
    again. *)
Theorem removeNewLinesAndCollapseSpaces_idempotent (str : string) :
  removeNewLinesAndCollapseSpaces (removeNewLinesAndCollapseSpaces str)
  = removeNewLinesAndCollapseSpaces str.
Proof.
  pose proof (collapseSpaces_singleSpaced (replaceAll newline EmptyString str) false) as H.
  unfold removeNewLinesAndCollapseSpaces at 1.
  fold (removeNewLinesAndCollapseSpaces str) in H.
  rewrite (singleSpaced_no_newline _ _ H). now apply collapseSpaces_fixed.
Qed.

(** ** String literals *)

Lemma unescaped_cons a s :
  a <> backslash -> unescaped (String a s) = String a (unescaped s).
Proof.
  intros Ha. destruct s as [|b s]; [reflexivity|].
  cbn [unescaped]. apply Ascii.eqb_neq in Ha. now rewrite Ha.
Qed.

(** Reading back what [escaped] wrote, up to the closing quote. *)
Lemma unescaped_escaped s : forall t,
  hasChar backslash s = false ->
  unescaped (escaped s +:+ String dquote t) = s +:+ String dquote (unescaped t).
Proof.
  induction s as [|c s IH]; intros t Hs.
  - rewrite !append_nil_l. cbn [escaped]. apply unescaped_cons. discriminate.
  - cbn [hasChar] in Hs. apply orb_false_elim in Hs as [Hc Hs].
    cbn [escaped]. rewrite append_assoc, (append_cons c s). unfold escapeChar.
    destruct (Ascii.eqb_spec c dquote) as [->|Hq].
    + rewrite !append_cons, append_nil_l.
      change (unescaped (String "\" (String dquote (escaped s +:+ String dquote t))))
        with (String dquote (unescaped (escaped s +:+ String dquote t))).
      now rewrite IH.
    + destruct (Ascii.eqb_spec c newline) as [->|Hn].
      * rewrite !append_cons, append_nil_l.
        change (unescaped (String "\" (String "n" (escaped s +:+ String dquote t))))
          with (String newline (unescaped (escaped s +:+ String dquote t))).
        now rewrite IH.
      * rewrite append_cons, append_nil_l.
        rewrite unescaped_cons by (now apply Ascii.eqb_neq).
        now rewrite IH.
Qed.

Lemma append_length (a b : string) :
  String.length (a +:+ b) = (String.length a + String.length b)%nat.
Proof.
  induction a as [|x a IH]; [reflexivity|].
  rewrite append_cons. cbn [String.length]. now rewrite IH.
Qed.

Lemma append_inj_r (a b t : string) : a +:+ t = b +:+ t -> a = b.
Proof.
  revert b. induction a as [|x a IH]; intros [|y b] H.
  - reflexivity.
  - exfalso. apply (f_equal String.length) in H.
    rewrite append_nil_l, append_cons in H. cbn [String.length] in H.
    rewrite append_length in H. lia.
  - exfalso. apply (f_equal String.length) in H.
    rewrite append_nil_l, append_cons in H. cbn [String.length] in H.
    rewrite append_length in H. lia.
  - rewrite !append_cons in H. injection H as -> H. f_equal. auto.
Qed.

(** X3.  Two string values without a backslash that [serializeQueryArgValue]
    writes as the same literal are the same value: quotes and line breaks
    are escaped so that the value can be read back. *)
Theorem string_literals_tell_values_apart (a b : string) :
  hasChar backslash a = false -> hasChar backslash b = false ->
  serializeQueryArgValue (JStr a) = serializeQueryArgValue (JStr b) -> a = b.
Proof.
  intros Ha Hb H. cbn [serializeQueryArgValue] in H.
  assert (Hq : quoteString a = quoteString b) by congruence. clear H.
  rewrite !quoteString_escaped in Hq.
  assert (H : escaped a +:+ String dquote EmptyString = escaped b +:+ String dquote EmptyString)
    by congruence.
  apply (f_equal unescaped) in H.
  rewrite !unescaped_escaped in H by assumption.
  now apply append_inj_r in H.
Qed.

(** The theorem at a value with a double quote and a line break in it. *)
Lemma string_literals_tell_values_apart_witness :
  String dquote (String newline "title") = String dquote (String newline "title").
Proof.
  apply (string_literals_tell_values_apart
           (String dquote (String newline "title")) (String dquote (String newline "title")));
    reflexivity.
Defined.

(** X4.  A backslash is not escaped: a value with a line break in it and
    the value with a backslash and the letter n in its place are written as
    the same literal, wherever in the value that is. *)
Theorem backslash_is_not_escaped (a b : string) :
  serializeQueryArgValue (JStr (a +:+ String newline b))
  = serializeQueryArgValue (JStr (a +:+ String backslash (String "n" b))).
Proof.
  cbn [serializeQueryArgValue]. f_equal. unfold quoteString. do 2 f_equal.
  rewrite !replaceAll_append. f_equal.
Qed.

(** ** The layout of a query *)

Lemma spaces_add a b : spaces (a + b) = spaces a +:+ spaces b.
Proof. induction a as [|a IH]; [reflexivity|]. cbn [Nat.add spaces]. now rewrite IH. Qed.

Lemma indented_deeper level line : indented (2 * S level) line -> indented (2 * level) line.
Proof.
  intros [text ->]. exists ("  " +:+ text).
  replace (2 * S level)%nat with (2 * level + 2)%nat by lia.
  now rewrite spaces_add, append_assoc.
Qed.

Lemma flat_map_Forall {A B} (Q : B -> Prop) (f : A -> list B) (l : list A) :
  (forall x, In x l -> List.Forall Q (f x)) -> List.Forall Q (flat_map f l).
Proof.
  induction l as [|x l IH]; intros H; [constructor|].
  cbn [flat_map]. apply List.Forall_app. split; [apply H; now left|].
  apply IH. intros y Hy. apply H. now right.
Qed.

(** The lines of a value, and the lines of the branches of an object when
    it is read as an [__on]. *)
Lemma queryLines_layout (v : jsval) :
  (forall level rest, List.Forall (indented (2 * level)) (queryLines level rest v)) /\
  (forall branches, v = JObj branches ->
     forall branch, In branch branches ->
       forall level rest, List.Forall (indented (2 * level)) (queryLines level rest (snd branch))).
Proof.
  induction v as [| | | | | |entries IH] using jsval_ind;
    try (split; [intros; constructor|discriminate]).
  rewrite List.Forall_forall in IH.
  assert (Hbranches : forall branch, In branch entries ->
            forall level rest,
              List.Forall (indented (2 * level)) (queryLines level rest (snd branch))).
  { intros branch Hin. exact (proj1 (IH branch Hin)). }
  split; [|intros branches [= <-]; exact Hbranches].
  intros level rest. cbn [queryLines]. apply flat_map_Forall. intros kv Hkv.
  destruct (rest && _); [constructor|].
  destruct (String.eqb (fst kv) "__on").
  - destruct (snd kv) as [| | | | | |branches] eqn:Ev; try constructor.
    apply flat_map_Forall. intros branch Hbranch.
    constructor; [eexists; reflexivity|].
    apply List.Forall_app. split.
    + eapply List.Forall_impl; [intros line; apply indented_deeper|].
      apply (proj2 (IH kv Hkv) branches Ev branch Hbranch).
    + constructor; [eexists; reflexivity|constructor].
  - destruct (snd kv) as [| | | | |items|value] eqn:Ev;
      try (constructor; [eexists; reflexivity|constructor]).
    constructor.
    + unfold openObject.
      destruct (Obj.get "__arguments" value) as [args|]; [destruct (truthy args)|];
        eexists; reflexivity.
    + apply List.Forall_app. split.
      * eapply List.Forall_impl; [intros line; apply indented_deeper|].
        rewrite <- Ev. apply (proj1 (IH kv Hkv)).
      * constructor; [eexists; reflexivity|constructor].
Qed.

Lemma flat_map_split {A B} (f : A -> list B) (l : list A) x :
  In x l -> exists before after, flat_map f l = before ++ f x ++ after.
Proof.
  intros H. apply in_split in H as (l1 & l2 & ->).
  exists (flat_map f l1), (flat_map f l2). now rewrite flat_map_app.
Qed.

(** X5.  Every line that [convertASTToQuery] writes for a selection at
    nesting level [level] starts with [2 * level] blanks, whatever the AST
    holds.  A nested object is written as its opening line and the closing
    brace, both at this level, with the lines of its selection at the next
    level in between, which start with two blanks more; an inline fragment
    is written the same way around the lines of its branch. *)
Theorem convertASTToQuery_indents_by_depth (queryAST : jsval) (level : nat) (rest : bool) :
  List.Forall (indented (2 * level)) (queryLines level rest queryAST) /\
  (forall entries key value,
     queryAST = JObj entries -> In (key, JObj value) entries ->
     String.eqb key "__on" = false ->
     rest && (String.eqb key "__alias" || String.eqb key "__arguments") = false ->
     exists before after,
       queryLines level rest queryAST
       = before ++ openObject (spaces (2 * level)) key value
                   :: queryLines (S level) true (JObj value)
                   ++ (spaces (2 * level) +:+ "}") :: after /\
       List.Forall (indented (2 * level + 2)) (queryLines (S level) true (JObj value))) /\
  (forall entries branches modelName fields,
     queryAST = JObj entries -> In ("__on", JObj branches) entries ->
     In (modelName, fields) branches ->
     exists before after,
       queryLines level rest queryAST
       = before ++ (spaces (2 * level) +:+ "... on " +:+ modelName +:+ " {")
                   :: queryLines (S level) false fields
                   ++ (spaces (2 * level) +:+ "}") :: after /\
       List.Forall (indented (2 * level + 2)) (queryLines (S level) false fields)).
Proof.
  assert (Hnext : forall r v,
            List.Forall (indented (2 * level + 2)) (queryLines (S level) r v)).
  { intros r v. replace (2 * level + 2)%nat with (2 * S level)%nat by lia.
    apply queryLines_layout. }
  split; [apply queryLines_layout|]. split.
  - intros entries key value -> Hin Hon Hrest.
    pose proof (Hnext true (JObj value)) as Hn. cbn [queryLines].
    destruct (flat_map_split
                (fun kv : string * jsval =>
                   let key := fst kv in
                   if rest && (String.eqb key "__alias" || String.eqb key "__arguments") then []
                   else if String.eqb key "__on" then
                     match snd kv with
                     | JObj branches =>
                         flat_map
                           (fun branch : string * jsval =>
                              (spaces (2 * level) +:+ "... on " +:+ fst branch +:+ " {")
                                :: queryLines (S level) false (snd branch)
                                ++ [spaces (2 * level) +:+ "}"])
                           branches
                     | _ => []
                     end
                   else
                     match snd kv with
                     | JObj value =>
                         openObject (spaces (2 * level)) key value
                           :: queryLines (S level) true (snd kv)
                           ++ [spaces (2 * level) +:+ "}"]
                     | JStr alias => [spaces (2 * level) +:+ alias +:+ ": " +:+ key]
                     | _ => [spaces (2 * level) +:+ key]
                     end)
                entries (key, JObj value) Hin) as (before & after & Heq).
    cbv beta zeta in Heq. cbn [fst snd] in Heq. rewrite Hrest, Hon in Heq.
    exists before, after. split; [|exact Hn].
    etransitivity; [exact Heq|]. cbn [app]. now rewrite <- List.app_assoc.
  - intros entries branches modelName fields -> Hin Hbranch.
    pose proof (Hnext false fields) as Hn. cbn [queryLines].
    destruct (flat_map_split
                (fun kv : string * jsval =>
                   let key := fst kv in
                   if rest && (String.eqb key "__alias" || String.eqb key "__arguments") then []
                   else if String.eqb key "__on" then
                     match snd kv with
                     | JObj branches =>
                         flat_map
                           (fun branch : string * jsval =>
                              (spaces (2 * level) +:+ "... on " +:+ fst branch +:+ " {")
                                :: queryLines (S level) false (snd branch)
                                ++ [spaces (2 * level) +:+ "}"])
                           branches
                     | _ => []
                     end
                   else
                     match snd kv with
                     | JObj value =>
                         openObject (spaces (2 * level)) key value
                           :: queryLines (S level) true (snd kv)
                           ++ [spaces (2 * level) +:+ "}"]
                     | JStr alias => [spaces (2 * level) +:+ alias +:+ ": " +:+ key]
                     | _ => [spaces (2 * level) +:+ key]
                     end)
                entries ("__on", JObj branches) Hin) as (before & after & Heq).
    cbv beta zeta in Heq. cbn [fst snd] in Heq.
    change (String.eqb "__on" "__alias") with false in Heq.
    change (String.eqb "__on" "__arguments") with false in Heq.
    change (String.eqb "__on" "__on") with true in Heq.
    rewrite andb_false_r in Heq.
    destruct (flat_map_split
                (fun branch : string * jsval =>
                   (spaces (2 * level) +:+ "... on " +:+ fst branch +:+ " {")
                     :: queryLines (S level) false (snd branch)
                     ++ [spaces (2 * level) +:+ "}"])
                branches (modelName, fields) Hbranch) as (before' & after' & Heq').
    cbv beta in Heq'. cbn [fst snd] in Heq'. rewrite Heq' in Heq.
    exists (before ++ before'), (after' ++ after). split; [|exact Hn].
    etransitivity; [exact Heq|]. cbn [app]. rewrite <- !List.app_assoc. cbn [app].
    now rewrite <- List.app_assoc.
Qed.

(** The lines of a hero inside the sections of a page: each level two
    blanks further in. *)
Example nested_lines_are_indented :
  queryLines 1 false
    (JObj [ ("sections",
              JObj [ ("__typename", one);
                     ("__on", JObj [("Hero", JObj [("id", one)])]) ]) ])
  = [ "  sections {";
      "    __typename";
      "    ... on Hero {";
      "      id";
      "    }";
      "  }" ].
Proof. reflexivity. Qed.

(** ** What a model selects *)

(** X6.  The selection that [convertFieldsToQueryAST] compiles for a model
    has one entry per key; every key is the name of a field of the model,
    and none is [__proto__], which an assignment does not make a key; every
    field of kind rich text, color, image or scalar with another name is
    selected, under any ledger. *)
Theorem convertFieldsToQueryAST_selects_own_fields
    (getModelByName : string -> option ModelWithContext) (fuel : nat)
    (model : ModelWithContext) (visitedModelsCount : ledger) (ast : obj) :
  convertFieldsToQueryAST getModelByName fuel model visitedModelsCount = Ok ast ->
  List.NoDup (Obj.keys ast) /\
  (forall k, In k (Obj.keys ast) ->
     In k (List.map field_name (fieldsOf model)) /\ k <> "__proto__") /\
  (forall field, In field (fieldsOf model) -> isSimpleField field = true ->
     field_name field <> "__proto__" -> In (field_name field) (Obj.keys ast)).
Proof. apply convert_keys. Qed.

Lemma defaultDocumentQueryFields_assign getModelByName fuel model :
  defaultDocumentQueryFields getModelByName fuel model
  = fieldAst ← convertFieldsToQueryAST getModelByName fuel model ∅;
    Ok (Obj.assign systemFields fieldAst).
Proof. reflexivity. Qed.

(** The theorem at the sample page. *)
Lemma convertFieldsToQueryAST_selects_own_fields_witness :
  let ast := Sample.fieldsOrNone
               (convertFieldsToQueryAST (fun n => Sample.site !! n) 3 Sample.page ∅) in
  List.NoDup (Obj.keys ast) /\
  (forall k, In k (Obj.keys ast) ->
     In k (List.map field_name (fieldsOf Sample.page)) /\ k <> "__proto__") /\
  (forall field, In field (fieldsOf Sample.page) -> isSimpleField field = true ->
     field_name field <> "__proto__" -> In (field_name field) (Obj.keys ast)).
Proof.
  apply (convertFieldsToQueryAST_selects_own_fields (fun n => Sample.site !! n) 3
           Sample.page ∅).
  reflexivity.
Defined.

(** A scalar field called [__proto__] is compiled to nothing. *)
Example proto_field_is_not_selected :
  convertFieldsToQueryAST (fun _ => None) 1
    (mkModel "Page" "data" (mkContext "Pages" ∅)
       (Some [ mkField "__proto__" (FItem (FScalar "string"));
               mkField "title" (FItem (FScalar "string")) ])) ∅
  = Ok [("title", one)].
Proof. reflexivity. Qed.

(** X7.  The selection of [defaultDocumentQueryFields] is the literal of
    the ten system fields with the compiled selection of the model spread
    over it.  Its keys are the ten system fields, in the order of the
    literal, followed by the other keys of the compiled selection in their
    order.  Under every key it holds what the compiled selection holds
    there, if it has that key, and what the literal holds otherwise: a
    model field that is called like a system field and is selected takes
    the place of the system field; a name that is no field of the model
    keeps the selection of the literal. *)
Theorem defaultDocumentQueryFields_system_fields
    (getModelByName : string -> option ModelWithContext) (fuel : nat)
    (model : ModelWithContext) (selection : obj) :
  defaultDocumentQueryFields getModelByName fuel model = Ok selection ->
  exists fieldAst,
    convertFieldsToQueryAST getModelByName fuel model ∅ = Ok fieldAst /\
    Obj.keys selection
    = Obj.keys systemFields
      ++ List.filter (fun k => negb (existsb (String.eqb k) (Obj.keys systemFields)))
           (Obj.keys fieldAst) /\
    (forall k,
       Obj.get k selection
       = match Obj.get k fieldAst with
         | Some v => Some v
         | None => Obj.get k systemFields
         end) /\
    (forall k, ~ In k (List.map field_name (fieldsOf model)) ->
       Obj.get k selection = Obj.get k systemFields).
Proof.
  rewrite defaultDocumentQueryFields_assign. intros H.
  apply bind_Ok in H as (fieldAst & Hast & [= <-]).
  destruct (convert_keys _ _ _ _ _ Hast) as (Hnd & Hsub & _).
  exists fieldAst. split; [exact Hast|]. split; [|split].
  - now apply assign_keys_order.
  - intros k. now apply get_assign.
  - intros k Hk. apply get_assign_ne. intros Hin. apply Hk. now apply Hsub.
Qed.

(** The theorem at a page that has a rich text called [createdBy] next to
    its title. *)
Lemma defaultDocumentQueryFields_system_fields_witness :
  let selection :=
    Sample.fieldsOrNone (defaultDocumentQueryFields (fun _ => None) 1 Examples.signedPage) in
  exists fieldAst,
    convertFieldsToQueryAST (fun _ => None) 1 Examples.signedPage ∅ = Ok fieldAst /\
    Obj.keys selection
    = Obj.keys systemFields
      ++ List.filter (fun k => negb (existsb (String.eqb k) (Obj.keys systemFields)))
           (Obj.keys fieldAst) /\
    (forall k,
       Obj.get k selection
       = match Obj.get k fieldAst with
         | Some v => Some v
         | None => Obj.get k systemFields
         end) /\
    (forall k, ~ In k (List.map field_name (fieldsOf Examples.signedPage)) ->
       Obj.get k selection = Obj.get k systemFields).
Proof.
  apply (defaultDocumentQueryFields_system_fields (fun _ => None) 1 Examples.signedPage).
  reflexivity.
Defined.

(** At that page the rich text is selected where the system field
    [createdBy] was, and the title comes last. *)
Example system_field_replaced :
  defaultDocumentQueryFields (fun _ => None) 1 Examples.signedPage
  = Ok [ ("__typename", one); ("id", one); ("createdAt", one);
         ("createdBy", JObj [("__typename", one); ("markdown", one); ("text", one)]);
         ("updatedAt", one);
         ("updatedBy", JObj [("id", one)]);
         ("publishedAt", one);
         ("publishedBy", JObj [("id", one)]);
         ("stage", one);
         ("documentInStages",
           JObj [ ("__arguments", JObj [("stages", JObj [("enum", JStr "PUBLISHED")])]);
                  ("stage", one); ("updatedAt", one) ]);
         ("title", one) ].
Proof. reflexivity. Qed.

(** ** The first query of [getEntries] *)

Lemma connectionName_not_proto model : connectionName model <> "__proto__".
Proof.
  unfold connectionName. intros H. apply (f_equal String.length) in H.
  rewrite append_length in H. cbn in H. lia.
Qed.

Section InitialQuery.

Variable getModelByName : string -> option ModelWithContext.
Variable depth : nat.
Variable first : Z.

Let step (query : obj) (model : ModelWithContext) : res obj :=
  nodeFields ← defaultDocumentQueryFields getModelByName depth model;
  mret (Obj.set (connectionName model) (connectionQuery first 0 nodeFields) query).

Lemma connections_keys (l : list ModelWithContext) : forall acc query,
  foldM step l acc = Ok query ->
  (forall k, In k (Obj.keys query) <->
     In k (Obj.keys acc) \/ exists model, In model l /\ k = connectionName model) /\
  (forall k v, In (k, v) query ->
     In (k, v) acc \/
     exists model nodeFields, In model l /\ k = connectionName model /\
       defaultDocumentQueryFields getModelByName depth model = Ok nodeFields /\
       v = connectionQuery first 0 nodeFields).
Proof.
  induction l as [|model l IH]; intros acc query H.
  - injection H as <-. split; [|auto].
    intros k. split; [auto|]. intros [?|(model & [] & _)]. assumption.
  - cbn [foldM] in H. apply bind_Ok in H as (acc1 & H1 & H2).
    unfold step in H1. apply bind_Ok in H1 as (nodeFields & Hfields & [= <-]).
    destruct (IH _ _ H2) as [Hkeys Hvalues]. split.
    + intros k. rewrite Hkeys, (set_keys_In _ _ _ _ (connectionName_not_proto model)). split.
      * intros [[->|?]|(m & Hm & ->)]; eauto.
        -- right. exists model. split; [now left|reflexivity].
        -- right. exists m. split; [now right|reflexivity].
      * intros [?|(m & [<-|Hm] & ->)]; eauto.
    + intros k v Hin. destruct (Hvalues k v Hin) as [Hacc|(m & f & Hm & ? & ? & ?)].
      * apply In_set in Hacc as [[-> ->]|?]; [|now left].
        right. exists model, nodeFields. repeat split; auto. now left.
      * right. exists m, f. repeat split; auto. now right.
Qed.

End InitialQuery.

(** X8.  The combined query that [getEntries] starts from has exactly one
    connection per model of type [data], under the key
    [toLowerCaseFirst(pluralId) + 'Connection'] (components get none), and
    every connection asks for the [DRAFT] stage, [maxPaginationSize ?? 100]
    entries, offset 0, and the default selection of a model with that
    key. *)
Theorem initialQuery_one_connection_per_data_model
    (depth : nat) (models : list ModelWithContext) (maxPaginationSize : option Z)
    (query : obj) :
  initialQuery depth models maxPaginationSize = Ok query ->
  (forall k, In k (Obj.keys query) <->
     exists model, In model models /\ model_type model = "data" /\ k = connectionName model) /\
  (forall k v, In (k, v) query ->
     exists model nodeFields,
       In model models /\ model_type model = "data" /\ k = connectionName model /\
       defaultDocumentQueryFields (modelByName (keyByName models)) depth model
       = Ok nodeFields /\
       v = connectionQuery (default 100 maxPaginationSize) 0 nodeFields).
Proof.
  unfold initialQuery. intros H.
  destruct (connections_keys _ _ _ _ _ _ H) as [Hkeys Hvalues]. split.
  - intros k. rewrite Hkeys. split.
    + intros [[]|(model & Hm & ->)]. apply filter_In in Hm as [Hm Ht].
      apply String.eqb_eq in Ht. eauto.
    + intros (model & Hm & Ht & ->). right. exists model. split; [|reflexivity].
      apply filter_In. split; [exact Hm|]. now apply String.eqb_eq.
  - intros k v Hin. destruct (Hvalues k v Hin) as [[]|(model & f & Hm & ? & ? & ?)].
    apply filter_In in Hm as [Hm Ht]. apply String.eqb_eq in Ht.
    exists model, f. auto.
Qed.

(** The theorem at the sample site: pages and posts are asked for, heroes
    and quotes are not. *)
Lemma initialQuery_one_connection_per_data_model_witness :
  let query := Sample.fieldsOrNone (initialQuery 3 Sample.models (Some 2)) in
  (forall k, In k (Obj.keys query) <->
     exists model, In model Sample.models /\ model_type model = "data" /\
       k = connectionName model) /\
  (forall k v, In (k, v) query ->
     exists model nodeFields,
       In model Sample.models /\ model_type model = "data" /\ k = connectionName model /\
       defaultDocumentQueryFields (modelByName (keyByName Sample.models)) 3 model
       = Ok nodeFields /\
       v = connectionQuery (default 100 (Some 2)) 0 nodeFields).
Proof.
  apply (initialQuery_one_connection_per_data_model 3 Sample.models (Some 2)).
  reflexivity.
Defined.

(** With an empty query, a response is merged without a next page or the
    merge throws. *)
Lemma merge_nothing_asked (l : ConnectionResult) : forall st,
  ms_query st = [] -> ms_typesWithNextPage st = [] ->
  match foldM mergeModelResult l st with
  | Ok st' => ms_typesWithNextPage st' = []
  | Throw _ => True
  | OutOfFuel => False
  end.
Proof.
  induction l as [|[name modelResult] l IH]; intros st Hq Ht; [exact Ht|].
  cbn [foldM]. unfold mergeModelResult at 2. cbn [fst snd].
  destruct (hasNextPage (pageInfo modelResult)).
  - rewrite Hq. unfold addToSkip. cbn [Obj.get].
    destruct (inherited name); exact I.
  - cbn. apply IH; [exact Hq|exact Ht].
Qed.

(** X9.  When no model is of type [data], [getEntries] still sends one
    request, the empty query, and no second one, whatever the content API
    answers; at most one warning is logged. *)
Theorem getEntries_without_data_models
    (request : nat -> string -> string + ConnectionResult)
    (depth rounds : nat) (models : list ModelWithContext) (maxPaginationSize : option Z) :
  (forall model, In model models -> model_type model <> "data") ->
  exists outcome,
    getEntries request depth (S rounds) models maxPaginationSize = Ok outcome /\
    requests outcome = ["query {" +:+ String newline "}"] /\
    (length (warnings outcome) <= 1)%nat.
Proof.
  intros Hnone. unfold getEntries, initialQuery.
  replace (List.filter (fun model => String.eqb (model_type model) "data") models)
    with (@nil ModelWithContext).
  2:{ symmetry. induction models as [|m l IH]; [reflexivity|]. cbn [List.filter].
      destruct (String.eqb_spec (model_type m) "data") as [E|_].
      - exfalso. apply (Hnone m); [now left|exact E].
      - apply IH. intros m' Hm'. apply Hnone. now right. }
  cbn [foldM mbind res_bind bind fetchPages].
  change (convertASTToQuery [("query", JObj [])]) with ("query {" +:+ String newline "}").
  destruct (request 0%nat _) as [error|queryResult]; [eexists; split; [reflexivity|]; cbn; auto|].
  pose proof (merge_nothing_asked queryResult (mkMergeState [] [] []) eq_refl eq_refl) as Hm.
  destruct (foldM mergeModelResult queryResult _) as [st|e|]; [| |contradiction].
  - rewrite Hm. eexists; split; [reflexivity|]. cbn; auto.
  - eexists; split; [reflexivity|]. cbn; auto.
Qed.

(** The theorem for the components of the sample site and a content API out
    of reach. *)
Lemma getEntries_without_data_models_witness :
  exists outcome,
    getEntries (fun _ _ => inl "Error: connect ECONNREFUSED") 3 1 Examples.components None
    = Ok outcome /\
    requests outcome = ["query {" +:+ String newline "}"] /\
    (length (warnings outcome) <= 1)%nat.
Proof.
  apply (getEntries_without_data_models (fun _ _ => inl "Error: connect ECONNREFUSED") 3 0
           Examples.components None).
  intros model [<-|[<-|[]]]; discriminate.
Defined.

(** ** The mutations of the client *)

(** The comparisons of a key that starts with a known word. *)
Ltac eqb_compute :=
  repeat match goal with
         | |- context [String.eqb ?a ?b] =>
             let r := eval vm_compute in (String.eqb a b) in
             change (String.eqb a b) with r
         end.

(** The text of a query whose AST is written out. *)
Ltac query_text :=
  unfold convertASTToQuery; f_equal;
  cbn -[String.append quoteString]; eqb_compute;
  cbn -[String.append quoteString];
  rewrite ?append_assoc; reflexivity.

Lemma deleteEntry_text entryId modelName :
  convertASTToQuery
    [ ("mutation",
        JObj [ ("delete" +:+ modelName,
                 JObj [ ("__arguments", JObj [("where", JObj [("id", JStr entryId)])]);
                        ("id", one) ]) ]) ]
  = String.concat nl
      [ "mutation {";
        "  delete" +:+ modelName +:+ "(where: { id: " +:+ quoteString entryId +:+ " }) {";
        "    id";
        "  }";
        "}" ].
Proof. query_text. Qed.

Lemma updateEntry_text entryId modelName data :
  convertASTToQuery
    [ ("mutation",
        JObj [ ("update" +:+ modelName,
                 JObj [ ("__arguments", JObj [ ("where", JObj [("id", JStr entryId)]);
                                               ("data", data) ]);
                        ("id", one) ]) ]) ]
  = String.concat nl
      [ "mutation {";
        "  update" +:+ modelName +:+ "(where: { id: " +:+ quoteString entryId +:+ " }, data: "
          +:+ toString (serializeQueryArgValue data) +:+ ") {";
        "    id";
        "  }";
        "}" ].
Proof. query_text. Qed.

Lemma publishEntry_text entryId modelName :
  convertASTToQuery
    [ ("mutation",
        JObj [ ("publish" +:+ modelName,
                 JObj [ ("__arguments", JObj [ ("where", JObj [("id", JStr entryId)]);
                                               ("to", JObj [("enum", JStr "PUBLISHED")]) ]);
                        ("id", one) ]) ]) ]
  = String.concat nl
      [ "mutation {";
        "  publish" +:+ modelName +:+ "(where: { id: " +:+ quoteString entryId +:+ " }, to: PUBLISHED) {";
        "    id";
        "  }";
        "}" ].
Proof. query_text. Qed.

Lemma unpublishEntry_text entryId modelName :
  convertASTToQuery
    [ ("mutation",
        JObj [ ("unpublish" +:+ modelName,
                 JObj [ ("__arguments", JObj [ ("where", JObj [("id", JStr entryId)]);
                                               ("from", JObj [("enum", JStr "PUBLISHED")]) ]);
                        ("id", one) ]) ]) ]
  = String.concat nl
      [ "mutation {";
        "  unpublish" +:+ modelName +:+ "(where: { id: " +:+ quoteString entryId
          +:+ " }, from: PUBLISHED) {";
        "    id";
        "  }";
        "}" ].
Proof. query_text. Qed.

Lemma createEntry_text modelName data :
  convertASTToQuery
    [ ("mutation",
        JObj [ ("create" +:+ modelName,
                 JObj [ ("__arguments", JObj [("data", data)]); ("id", one) ]) ]) ]
  = String.concat nl
      [ "mutation {";
        "  create" +:+ modelName +:+ "(data: " +:+ toString (serializeQueryArgValue data)
          +:+ ") {";
        "    id";
        "  }";
        "}" ].
Proof. query_text. Qed.

(** X11.  Each of [createEntry], [updateEntry], [deleteEntry],
    [publishEntry] and [unpublishEntry] sends exactly one request, whatever
    the content API answers: the mutation [<verb><modelName>] that selects
    [id], with the entry id in [where: { id: ... }] written as an escaped
    string literal, the data serialized by [serializeQueryArgValue], and
    the stage [PUBLISHED] bare, as an enum. *)
Theorem mutations_quote_the_entry_id
    (request : string -> JsError + obj) (entryId modelName : string) (data : jsval) :
  let sent {A} (ran : Ran Client.Effect A) := List.filter Client.isRequest (ran_effects ran) in
  let mutation (call : string) :=
    [ Client.Request
        (String.concat nl
           [ "mutation {"; "  " +:+ call +:+ ") {"; "    id"; "  }"; "}" ]) ] in
  sent (Client.createEntry request modelName data)
  = mutation ("create" +:+ modelName +:+ "(data: " +:+ toString (serializeQueryArgValue data)) /\
  sent (Client.updateEntry request entryId modelName data)
  = mutation ("update" +:+ modelName +:+ "(where: { id: " +:+ quoteString entryId
              +:+ " }, data: " +:+ toString (serializeQueryArgValue data)) /\
  sent (Client.deleteEntry request entryId modelName)
  = mutation ("delete" +:+ modelName +:+ "(where: { id: " +:+ quoteString entryId +:+ " }") /\
  sent (Client.publishEntry request entryId modelName)
  = mutation ("publish" +:+ modelName +:+ "(where: { id: " +:+ quoteString entryId
              +:+ " }, to: PUBLISHED") /\
  sent (Client.unpublishEntry request entryId modelName)
  = mutation ("unpublish" +:+ modelName +:+ "(where: { id: " +:+ quoteString entryId
              +:+ " }, from: PUBLISHED").
Proof.
  intros sent mutation. unfold sent, mutation. repeat split.
  - unfold Client.createEntry. rewrite createEntry_text.
    destruct (request _) as [error|result]; [|destruct (truthy _)];
      cbn [ran_effects List.filter Client.isRequest app]; do 3 f_equal;
      rewrite ?append_assoc; reflexivity.
  - unfold Client.updateEntry. rewrite updateEntry_text.
    destruct (request _) as [error|result];
      cbn [ran_effects List.filter Client.isRequest app]; do 3 f_equal;
      rewrite ?append_assoc; reflexivity.
  - unfold Client.deleteEntry. rewrite deleteEntry_text.
    destruct (request _) as [error|result];
      cbn [ran_effects List.filter Client.isRequest app]; do 3 f_equal;
      rewrite ?append_assoc; reflexivity.
  - unfold Client.publishEntry. rewrite publishEntry_text.
    destruct (request _) as [error|result];
      cbn [ran_effects List.filter Client.isRequest app]; do 3 f_equal;
      rewrite ?append_assoc; reflexivity.
  - unfold Client.unpublishEntry. rewrite unpublishEntry_text.
    destruct (request _) as [error|result];
      cbn [ran_effects List.filter Client.isRequest app]; do 3 f_equal;
      rewrite ?append_assoc; reflexivity.
Qed.

(** X12.  When the content API rejects the request, [publishEntry] and
    [unpublishEntry] still resolve, while [deleteEntry], [updateEntry] and
    [createEntry] reject with a new [Error] whose message ends with the
    message of the rejection; each of the five logs exactly one warning. *)
Theorem rejected_mutations (error : JsError) (entryId modelName : string) (data : jsval) :
  let request : string -> JsError + obj := fun _ => inl error in
  let warned {A} (ran : Ran Client.Effect A) :=
    length (List.filter Client.isWarn (ran_effects ran)) in
  ran_result (Client.publishEntry request entryId modelName) = Ok tt /\
  ran_result (Client.unpublishEntry request entryId modelName) = Ok tt /\
  ran_result (Client.deleteEntry request entryId modelName)
  = Throw ("Error: Error deleting an entry " +:+ entryId +:+ ": " +:+ error_message error) /\
  ran_result (Client.updateEntry request entryId modelName data)
  = Throw ("Error: Error updating an entry " +:+ entryId +:+ ": " +:+ error_message error) /\
  ran_result (Client.createEntry request modelName data)
  = Throw ("Error: Error creating an entry " +:+ error_message error) /\
  warned (Client.publishEntry request entryId modelName) = 1%nat /\
  warned (Client.unpublishEntry request entryId modelName) = 1%nat /\
  warned (Client.deleteEntry request entryId modelName) = 1%nat /\
  warned (Client.updateEntry request entryId modelName data) = 1%nat /\
  warned (Client.createEntry request modelName data) = 1%nat.
Proof. repeat split. Qed.

(** X13.  When the response to [createEntry] has nothing under
    [create<modelName>], the error thrown for it inside the [try] block is
    caught by the same block: a warning is logged, and the call rejects
    with the message [Error creating an entry Error creating an entry]. *)
Theorem createEntry_without_entry (result : obj) (modelName : string) (data : jsval) :
  truthy (default JUndefined (Obj.get ("create" +:+ modelName) result)) = false ->
  let query :=
    String.concat nl
      [ "mutation {";
        "  create" +:+ modelName +:+ "(data: " +:+ toString (serializeQueryArgValue data)
          +:+ ") {";
        "    id"; "  }"; "}" ] in
  Client.createEntry (fun _ => inr result) modelName data
  = mkRan
      [ Client.Debug ("Create entry: " +:+ removeNewLinesAndCollapseSpaces query);
        Client.Request query;
        Client.Warn ("Error creating entry:" +:+ nl +:+ "Error: Error creating an entry"
                     +:+ nl +:+ "Query:" +:+ nl +:+ removeNewLinesAndCollapseSpaces query) ]
      (Throw "Error: Error creating an entry Error creating an entry").
Proof.
  intros Hentry query. unfold Client.createEntry. rewrite Hentry, createEntry_text.
  reflexivity.
Qed.

(** The theorem at an empty response. *)
Lemma createEntry_without_entry_witness :
  let query :=
    String.concat nl
      [ "mutation {";
        "  create" +:+ "Page" +:+ "(data: "
          +:+ toString (serializeQueryArgValue (JObj [("title", JStr "Hello")])) +:+ ") {";
        "    id"; "  }"; "}" ] in
  Client.createEntry (fun _ => inr []) "Page" (JObj [("title", JStr "Hello")])
  = mkRan
      [ Client.Debug ("Create entry: " +:+ removeNewLinesAndCollapseSpaces query);
        Client.Request query;
        Client.Warn ("Error creating entry:" +:+ nl +:+ "Error: Error creating an entry"
                     +:+ nl +:+ "Query:" +:+ nl +:+ removeNewLinesAndCollapseSpaces query) ]
      (Throw "Error: Error creating an entry Error creating an entry").
Proof.
  apply (createEntry_without_entry [] "Page" (JObj [("title", JStr "Hello")])).
  reflexivity.
Defined.

(** ** [getEntryById] *)

Lemma assign_cons_fresh h (t src : obj) :
  ~ In (fst h) (Obj.keys src) -> Obj.assign (h :: t) src = h :: Obj.assign t src.
Proof.
  unfold Obj.assign. revert t. induction src as [|[k v] src IH]; intros t Hh; [reflexivity|].
  cbn [fold_left fst snd Obj.define]. destruct h as [k' v'].
  destruct (String.eqb_spec k k') as [->|_]; [exfalso; apply Hh; now left|].
  apply IH. intros Hin. apply Hh. now right.
Qed.

Lemma assign_fresh (src : obj) : forall t,
  List.NoDup (Obj.keys src) -> (forall k, In k (Obj.keys src) -> ~ In k (Obj.keys t)) ->
  Obj.assign t src = t ++ src.
Proof.
  unfold Obj.assign. induction src as [|[k v] src IH]; intros t Hnd Hfresh.
  - cbn. now rewrite app_nil_r.
  - cbn [fold_left fst snd]. cbn [Obj.keys List.map fst] in Hnd.
    apply List.NoDup_cons_iff in Hnd as [Hk Hnd].
    rewrite (define_fresh k v t) by (apply Hfresh; now left).
    rewrite IH; [now rewrite <- app_assoc| exact Hnd|].
    intros k0 Hk0 Hin. unfold Obj.keys in Hin. rewrite List.map_app in Hin.
    apply in_app_or in Hin as [Hin|[<-|[]]]; [|contradiction].
    apply (Hfresh k0); [now right|exact Hin].
Qed.

Lemma assign_keys_NoDup (src : obj) : forall t,
  List.NoDup (Obj.keys t) -> List.NoDup (Obj.keys (Obj.assign t src)).
Proof.
  unfold Obj.assign. induction src as [|[k v] src IH]; intros t Ht; [exact Ht|].
  cbn [fold_left]. apply IH. now apply define_keys_NoDup.
Qed.

Lemma assign_keys_In k (src t : obj) :
  In k (Obj.keys (Obj.assign t src)) -> In k (Obj.keys t) \/ In k (Obj.keys src).
Proof.
  intros H. apply keys_In in H as [v H]. apply In_assign in H as [H|H].
  - right. apply keys_In. eauto.
  - left. apply keys_In. eauto.
Qed.

Lemma defaultDocumentQueryFields_keys getModelByName fuel model fields :
  defaultDocumentQueryFields getModelByName fuel model = Ok fields ->
  List.NoDup (Obj.keys fields) /\
  forall k, In k (Obj.keys fields) ->
    In k (Obj.keys systemFields) \/ In k (List.map field_name (fieldsOf model)).
Proof.
  rewrite defaultDocumentQueryFields_assign. intros H.
  apply bind_Ok in H as (fieldAst & Hast & [= <-]).
  destruct (convert_keys _ _ _ _ _ Hast) as (_ & Hsub & _). split.
  - apply assign_keys_NoDup. repeat constructor; not_among.
  - intros k Hk. apply assign_keys_In in Hk as [?|Hk]; [auto|].
    right. now apply Hsub.
Qed.

Lemma plainFieldNames_names model k :
  plainFieldNames model = true -> In k (List.map field_name (fieldsOf model)) ->
  k <> "__on" /\ k <> "__alias" /\ k <> "__arguments".
Proof.
  unfold plainFieldNames. rewrite forallb_forall. intros Hplain Hk.
  apply in_map_iff in Hk as (field & <- & Hfield).
  specialize (Hplain field Hfield). apply negb_true_iff in Hplain.
  apply orb_false_elim in Hplain as [Hplain H3].
  apply orb_false_elim in Hplain as [H1 H2].
  apply String.eqb_neq in H1, H2, H3. auto.
Qed.

Lemma queryLines_skip level a (entries : obj) :
  queryLines level true (JObj (("__arguments", a) :: entries))
  = queryLines level true (JObj entries).
Proof. reflexivity. Qed.

Lemma queryLines_nested level rest key (value : obj) :
  rest && (String.eqb key "__alias" || String.eqb key "__arguments") = false ->
  String.eqb key "__on" = false ->
  queryLines level rest (JObj [(key, JObj value)])
  = openObject (spaces (2 * level)) key value
      :: queryLines (S level) true (JObj value) ++ [spaces (2 * level) +:+ "}"].
Proof.
  intros H1 H2. cbn [queryLines flat_map fst snd]. rewrite H1, H2.
  rewrite app_nil_r. reflexivity.
Qed.

Lemma openObject_arguments indention key args (value : obj) :
  ~ In "__alias" (Obj.keys value) -> truthy args = true ->
  openObject indention key (("__arguments", args) :: value)
  = indention +:+ key +:+ "(" +:+ serializeArguments args +:+ ") {".
Proof.
  intros Halias Hargs. unfold openObject. cbn [Obj.get String.eqb Ascii.eqb Bool.eqb].
  rewrite (get_None "__alias" value Halias), Hargs. reflexivity.
Qed.

Section GetEntryById.

Variable request : string -> JsError + obj.
Variable getModelByName : string -> option ModelWithContext.

(** X10.  For a model that the schema knows, whose fields do not carry one
    of the keys [__on], [__alias], [__arguments] and whose lower-cased name
    is none of them, [getEntryById] sends one query: the root field is the
    model name with its first letter in lower case, its arguments are the
    stage [DRAFT] and [where: { id: ... }] with the entry id as an escaped
    string literal, and its selection is the default selection of the
    model.  A response is answered with the entry under that root field,
    its aliases removed; a rejection with one warning and [undefined]. *)
Theorem getEntryById_query (fuel : nat) (entryId modelName : string)
    (model : ModelWithContext) (fields : obj) :
  getModelByName modelName = Some model ->
  defaultDocumentQueryFields getModelByName fuel model = Ok fields ->
  plainFieldNames model = true ->
  let name := toLowerCaseFirst (model_name model) in
  ~ In name ["__alias"; "__arguments"; "__on"] ->
  let query :=
    String.concat nl
      ([ "query {";
         "  " +:+ name +:+ "(stage: DRAFT, where: { id: " +:+ quoteString entryId +:+ " }) {" ]
       ++ queryLines 2 true (JObj fields) ++ [ "  }"; "}" ]) in
  Client.getEntryById request getModelByName fuel entryId modelName
  = match request query with
    | inr result =>
        mkRan [Client.Request query]
          (Ok (removeAliasFieldNames (default JUndefined (Obj.get name result))))
    | inl error =>
        mkRan [ Client.Request query;
                Client.Warn (Client.queryWarning "Error fetching entry by id" error query) ]
          (Ok JUndefined)
    end.
Proof.
  intros Hmodel Hfields Hplain name Hname query.
  destruct (defaultDocumentQueryFields_keys _ _ _ _ Hfields) as [Hnd Hkeys].
  assert (Hfree : forall k, In k ["__alias"; "__arguments"; "__on"] -> ~ In k (Obj.keys fields)).
  { intros k Hk Hin. destruct (Hkeys k Hin) as [Hsys|Hown].
    - revert Hsys. destruct Hk as [<-|[<-|[<-|[]]]]; not_among.
    - destruct (plainFieldNames_names model k Hplain Hown) as (? & ? & ?).
      destruct Hk as [<-|[<-|[<-|[]]]]; congruence. }
  unfold Client.getEntryById. rewrite Hmodel, Hfields. fold name.
  rewrite assign_cons_fresh by (apply Hfree; cbn; auto).
  rewrite (assign_fresh fields []) by (auto; intros ? ? []). cbn [app].
  set (body := ("__arguments", _) :: fields).
  assert (Htext : convertASTToQuery [("query", JObj [(name, JObj body)])] = query).
  { unfold convertASTToQuery, query. f_equal.
    assert (H1 : String.eqb name "__alias" = false)
      by (apply String.eqb_neq; intros E; apply Hname; rewrite E; cbn; auto).
    assert (H2 : String.eqb name "__arguments" = false)
      by (apply String.eqb_neq; intros E; apply Hname; rewrite E; cbn; auto).
    assert (H3 : String.eqb name "__on" = false)
      by (apply String.eqb_neq; intros E; apply Hname; rewrite E; cbn; auto).
    rewrite (queryLines_nested 0 false "query") by reflexivity.
    rewrite (queryLines_nested 1 true name) by (try rewrite H1, H2; auto).
    unfold body. rewrite queryLines_skip.
    rewrite openObject_arguments by (try apply Hfree; cbn; auto).
    unfold openObject. cbn [Obj.get]. rewrite (String.eqb_sym "__alias"), H1.
    rewrite (String.eqb_sym "__arguments"), H2.
    cbn -[String.append quoteString queryLines].
    rewrite <- List.app_assoc. cbn [app]. f_equal. f_equal.
    unfold appendArgEntry. cbn -[String.append quoteString queryLines].
    rewrite ?append_assoc. reflexivity. }
  rewrite Htext. reflexivity.
Qed.

End GetEntryById.

(** The theorem for a page of the sample site and a content API out of
    reach. *)
Lemma getEntryById_query_witness :
  let fields :=
    Sample.fieldsOrNone (defaultDocumentQueryFields (fun n => Sample.site !! n) 3 Sample.page) in
  let query :=
    String.concat nl
      ([ "query {";
         "  " +:+ "page" +:+ "(stage: DRAFT, where: { id: " +:+ quoteString "p1" +:+ " }) {" ]
       ++ queryLines 2 true (JObj fields) ++ [ "  }"; "}" ]) in
  Client.getEntryById (fun _ => inl Examples.offline) (fun n => Sample.site !! n) 3 "p1" "Page"
  = mkRan [ Client.Request query;
            Client.Warn (Client.queryWarning "Error fetching entry by id" Examples.offline
                           query) ]
      (Ok JUndefined).
Proof.
  apply (getEntryById_query (fun _ => inl Examples.offline) (fun n => Sample.site !! n) 3
           "p1" "Page" Sample.page).
  - reflexivity.
  - reflexivity.
  - reflexivity.
  - not_among.
Defined.

(** ** The pages of [getAssets] *)

Section AssetPages.

Variable requestAssets : nat -> Z -> Z -> JsError + ModelResult.
Variable first : Z.

Lemma fetchAssets_unfold fuel round skip result sent :
  Client.fetchAssets requestAssets (S fuel) round first skip result sent
  = match requestAssets round first skip with
    | inl error =>
        mkRan (sent ++ [Client.RequestAssets first skip]
               ++ [Client.Warn ("Error fetching assets:" +:+ nl +:+ errorToString error)])
          (Ok [])
    | inr assetsConnection =>
        if hasNextPage (pageInfo assetsConnection)
        then Client.fetchAssets requestAssets fuel (S round) first
               (skip + pageSize (pageInfo assetsConnection))
               (result ++ edges assetsConnection)
               (sent ++ [Client.RequestAssets first skip])
        else mkRan (sent ++ [Client.RequestAssets first skip])
               (Ok (result ++ edges assetsConnection))
    end.
Proof.
  cbn [Client.fetchAssets]. destruct (requestAssets round first skip); [|reflexivity].
  now rewrite <- app_assoc.
Qed.

Variable pages : nat.
Variable page : nat -> Page.

Hypothesis answers : forall r, (r < pages)%nat ->
  requestAssets r first (assetsSkipAt page r)
  = inr (mkModelResult (page_nodes (page r))
           (mkPageInfo (S r <? pages)%nat (page_size (page r)))).

Lemma fetchAssets_pages d : forall r fuel result sent,
  (r + S d = pages)%nat -> (d < fuel)%nat ->
  Client.fetchAssets requestAssets fuel r first (assetsSkipAt page r) result sent
  = mkRan
      (sent ++ List.map (fun i => Client.RequestAssets first (assetsSkipAt page i)) (seq r (S d)))
      (Ok (result ++ flat_map (fun i => page_nodes (page i)) (seq r (S d)))).
Proof.
  induction d as [|d IH]; intros r fuel result sent Hr Hfuel;
    (destruct fuel as [|fuel]; [lia|]);
    rewrite fetchAssets_unfold, answers by lia;
    cbn [pageInfo hasNextPage pageSize edges].
  - replace (S r <? pages)%nat with false by (symmetry; apply Nat.ltb_ge; lia).
    cbn [seq List.map flat_map]. now rewrite app_nil_r.
  - replace (S r <? pages)%nat with true by (symmetry; apply Nat.ltb_lt; lia).
    change (assetsSkipAt page r + page_size (page r)) with (assetsSkipAt page (S r)).
    rewrite IH by lia. cbn [seq List.map flat_map]. now rewrite <- !app_assoc.
Qed.

End AssetPages.

(** X14.  When the content API has [pages >= 1] pages of assets and
    reports [hasNextPage] on all but the last, [getAssets] sends exactly
    [pages] requests, each for [maxPaginationSize ?? 100] assets at the
    offset made of the page sizes reported so far, and returns the assets
    of all pages in order, without a warning. *)
Theorem getAssets_follows_the_pages
    (requestAssets : nat -> Z -> Z -> JsError + ModelResult)
    (maxPaginationSize : option Z) (pages : nat) (page : nat -> Page) :
  let first := default 100 maxPaginationSize in
  (0 < pages)%nat ->
  (forall r, (r < pages)%nat ->
     requestAssets r first (assetsSkipAt page r)
     = inr (mkModelResult (page_nodes (page r))
              (mkPageInfo (S r <? pages)%nat (page_size (page r))))) ->
  forall fuel, (pages <= fuel)%nat ->
    Client.getAssets requestAssets fuel maxPaginationSize
    = mkRan
        (List.map (fun r => Client.RequestAssets first (assetsSkipAt page r)) (seq 0 pages))
        (Ok (flat_map (fun r => page_nodes (page r)) (seq 0 pages))).
Proof.
  intros first Hpages Hanswers fuel Hfuel. unfold Client.getAssets. fold first.
  destruct pages as [|d]; [lia|].
  change 0 with (assetsSkipAt page 0) at 1.
  now rewrite (fetchAssets_pages requestAssets first (S d) page Hanswers d 0 fuel [] [])
    by lia.
Qed.

(** The theorem at three assets in two pages. *)
Lemma getAssets_follows_the_pages_witness :
  Client.getAssets Examples.assetPages 5 (Some 2)
  = mkRan
      (List.map (fun r => Client.RequestAssets 2 (assetsSkipAt Examples.assetPage r)) (seq 0 2))
      (Ok (flat_map (fun r => page_nodes (Examples.assetPage r)) (seq 0 2))).
Proof.
  apply (getAssets_follows_the_pages Examples.assetPages (Some 2) 2 Examples.assetPage).
  - lia.
  - intros r Hr. reflexivity.
  - lia.
Defined.

Lemma fetchAssets_rejected requestAssets first page error k : forall r fuel result sent,
  (forall i, (r <= i < r + k)%nat ->
     requestAssets i first (assetsSkipAt page i)
     = inr (mkModelResult (page_nodes (page i)) (mkPageInfo true (page_size (page i))))) ->
  requestAssets (r + k)%nat first (assetsSkipAt page (r + k)) = inl error ->
  (k < fuel)%nat ->
  Client.fetchAssets requestAssets fuel r first (assetsSkipAt page r) result sent
  = mkRan
      (sent ++ List.map (fun i => Client.RequestAssets first (assetsSkipAt page i)) (seq r (S k))
       ++ [Client.Warn ("Error fetching assets:" +:+ nl +:+ errorToString error)])
      (Ok []).
Proof.
  induction k as [|k IH]; intros r fuel result sent Hpages Hrejected Hfuel;
    (destruct fuel as [|fuel]; [lia|]); rewrite fetchAssets_unfold.
  - rewrite Nat.add_0_r in Hrejected. rewrite Hrejected. reflexivity.
  - rewrite Hpages by lia. cbn [pageInfo hasNextPage pageSize edges].
    change (assetsSkipAt page r + page_size (page r)) with (assetsSkipAt page (S r)).
    rewrite IH; [| |now replace (S r + k)%nat with (r + S k)%nat by lia|lia].
    + cbn [seq List.map]. now rewrite <- !app_assoc.
    + intros i Hi. apply Hpages. lia.
Qed.

(** X15.  When a request of [getAssets] is rejected, after any number of
    pages that were fetched, the call logs one warning and resolves with an
    empty array: the assets of the earlier pages are dropped, and no
    further request is sent. *)
Theorem getAssets_rejected_round
    (requestAssets : nat -> Z -> Z -> JsError + ModelResult)
    (maxPaginationSize : option Z) (page : nat -> Page) (error : JsError) (k : nat) :
  let first := default 100 maxPaginationSize in
  (forall r, (r < k)%nat ->
     requestAssets r first (assetsSkipAt page r)
     = inr (mkModelResult (page_nodes (page r)) (mkPageInfo true (page_size (page r))))) ->
  requestAssets k first (assetsSkipAt page k) = inl error ->
  forall fuel, (k < fuel)%nat ->
    Client.getAssets requestAssets fuel maxPaginationSize
    = mkRan
        (List.map (fun r => Client.RequestAssets first (assetsSkipAt page r)) (seq 0 (S k))
         ++ [Client.Warn ("Error fetching assets:" +:+ nl +:+ errorToString error)])
        (Ok []).
Proof.
  intros first Hpages Hrejected fuel Hfuel. unfold Client.getAssets. fold first.
  change 0 with (assetsSkipAt page 0) at 1.
  now rewrite (fetchAssets_rejected requestAssets first page error k 0 fuel [] [])
    by (auto; intros; apply Hpages; lia).
Qed.

(** The theorem at a content API that is out of reach for the second
    page. *)
Lemma getAssets_rejected_round_witness :
  Client.getAssets Examples.assetsThenOffline 5 (Some 2)
  = mkRan
      (List.map (fun r => Client.RequestAssets 2 (assetsSkipAt Examples.assetPage r)) (seq 0 2)
       ++ [Client.Warn ("Error fetching assets:" +:+ nl +:+ errorToString Examples.offline)])
      (Ok []).
Proof.
  apply (getAssets_rejected_round Examples.assetsThenOffline (Some 2) Examples.assetPage
           Examples.offline 1).
  - intros r Hr. assert (r = 0%nat) as -> by lia. reflexivity.
  - reflexivity.
  - lia.
Defined.

(** ** [uploadAsset] of the client *)

(** X16.  [uploadAsset] of the client never rejects, whatever the content
    API, [Buffer.from] and the upload do: it resolves with the id of the
    asset without having logged a warning, or with [undefined] after one
    or two warnings.  It sends at most two requests, and with a non-empty
    [url] only the [createAsset] mutation for that URL: nothing is
    posted. *)
Theorem client_uploadAsset_returns_an_id_or_warns
    (requestCreateAssetWithURL : string -> string -> JsError + Client.CreatedWithURL)
    (requestCreateAssetWithPostData : string -> JsError + Client.CreatedWithPostData)
    (bufferFrom : option string -> JsError + string)
    (post : string -> list (string * string) -> string -> JsError + (bool * string))
    (options : Client.UploadOptions) :
  let ran :=
    Client.uploadAsset requestCreateAssetWithURL requestCreateAssetWithPostData
      bufferFrom post options in
  let warnings := length (List.filter Client.isWarn (ran_effects ran)) in
  ((exists id, ran_result ran = Ok (Some id)) /\ warnings = 0%nat \/
   ran_result ran = Ok None /\ (1 <= warnings <= 2)%nat) /\
  (forall uploadUrl, Client.url options = Some uploadUrl -> uploadUrl <> EmptyString ->
     List.filter Client.isRequest (ran_effects ran)
     = [Client.RequestCreateAssetWithURL (Client.fileName options) uploadUrl]) /\
  (length (List.filter Client.isRequest (ran_effects ran)) <= 2)%nat.
Proof.
  intros ran warnings. unfold warnings, ran, Client.uploadAsset.
  destruct (Client.url options) as [[|c uploadUrl]|].
  2:{ unfold Client.createAssetWithURL.
      destruct (requestCreateAssetWithURL _ _) as [error|created];
        cbn [ran_result ran_effects]; [|destruct (Client.url_error created)];
        unfold Client.uploadFailed; cbn; (split; [|split]);
        intros; try congruence; try lia; eauto;
        try (right; split; [reflexivity|lia]); try (left; split; [eauto|reflexivity]). }
  all: unfold Client.createAssetWithPostData;
    destruct (requestCreateAssetWithPostData _) as [error|created];
    cbn [ran_result ran_effects];
    [|destruct (Client.data_error created);
      [|destruct (bufferFrom _) as [e|buffer];
        [|destruct (post _ _ _) as [e|[[|] statusText]]]]];
    unfold Client.uploadFailed; cbn; (split; [|split]);
    intros; try congruence; try lia; eauto;
    try (right; split; [reflexivity|lia]); try (left; split; [eauto|reflexivity]).
Qed.

(** ** The bounds of [onWebhook] *)

Section RetryBounds.

Variables Document Asset : Type.
Variable operation : Operation.
Variable cachedItem : option CachedItem.
Variable fetch : nat -> option HygraphItem.
Variable fetched : Effect Document Asset.
Variable kind : string.

Let run := retry Document Asset operation cachedItem fetch fetched kind.
Let attempts := attemptsEffects Document Asset fetched kind.

(** With fuel for the attempts that are left, the loop ends, after at most
    ten attempts in all; the flag is off only after the tenth. *)
Lemma retry_ends fuel : forall tries trace,
  (tries < 10)%nat -> (10 <= tries + fuel)%nat ->
  exists count, (1 <= count)%nat /\ (tries + count <= 10)%nat /\
    (run fuel tries trace = Some (Absent (trace ++ attempts tries count)) \/
     exists item got n,
       run fuel tries trace = Some (Settled item got n (trace ++ attempts tries count)) /\
       fetch (tries + count - 1)%nat = Some item /\
       got = isNewerVersion operation item cachedItem /\
       (got = false -> (tries + count)%nat = 10%nat)).
Proof.
  induction fuel as [|fuel IH]; intros tries trace Hlt Hfuel; [lia|].
  unfold run. rewrite retry_unfold.
  destruct (fetch tries) as [item|] eqn:Ef.
  - destruct (negb (isNewerVersion operation item cachedItem) && (tries + 1 <? 10)%nat) eqn:Ec.
    + apply andb_true_iff in Ec as [_ Ec]. apply Nat.ltb_lt in Ec.
      destruct (IH (tries + 1)%nat
                  (trace ++ attemptEffects Document Asset fetched kind tries)
                  ltac:(lia) ltac:(lia)) as (count & H1 & H2 & H).
      exists (S count). split; [lia|]. split; [lia|].
      unfold attempts. rewrite (attempts_cons Document Asset fetched kind tries count).
      rewrite app_assoc. replace (S tries) with (tries + 1)%nat by lia.
      destruct H as [H|(item' & got & n & H & Hf & Hg & Hten)]; [now left|right].
      exists item', got, n. split; [exact H|].
      replace (tries + S count - 1)%nat with (tries + 1 + count - 1)%nat by lia.
      repeat split; auto. intros Hgot. specialize (Hten Hgot). lia.
    + exists 1%nat. split; [lia|]. split; [lia|]. right.
      exists item, (isNewerVersion operation item cachedItem),
        (if isNewerVersion operation item cachedItem then tries else (tries + 1)%nat).
      unfold attempts, attemptsEffects. cbn [seq flat_map]. rewrite app_nil_r.
      split; [reflexivity|].
      replace (tries + 1 - 1)%nat with tries by lia.
      repeat split; auto. intros Hgot. rewrite Hgot in Ec. cbn [negb andb] in Ec.
      apply Nat.ltb_ge in Ec. lia.
  - exists 1%nat. split; [lia|]. split; [lia|]. left.
    unfold attempts, attemptsEffects. cbn [seq flat_map]. now rewrite app_nil_r.
Qed.

End RetryBounds.

Section WebhookBounds.

Variables Document Asset : Type.
Variable convertDocument : HygraphItem -> option Document.
Variable convertAsset : HygraphItem -> Asset.
Variable cachedDocumentById : string -> option CachedItem.
Variable cachedAssetById : string -> option CachedItem.
Variable getEntryById : nat -> string -> string -> option HygraphItem.
Variable getAssetById : nat -> string -> option HygraphItem.

Let handle :=
  onWebhook Document Asset convertDocument convertAsset
    cachedDocumentById cachedAssetById getEntryById getAssetById.

(** The shape of every run that is not a delete: the opening debug line,
    between one and ten attempts, a warning only after the tenth, and at
    most one cache update at the end. *)
Lemma onWebhook_shape (payload : HygraphWebhook) :
  operation payload <> delete ->
  exists fetched kind count warned written,
    handle payload
    = Some ([LogDebug ("got webhook request, " +:+ item_typename (data payload) +:+ ":"
                       +:+ operationName (operation payload))]
            ++ attemptsEffects Document Asset fetched kind 0 count ++ warned ++ written) /\
    isFetch fetched = true /\ isWarning fetched = false /\
    isSleep fetched = false /\ isCacheUpdate fetched = false /\
    (1 <= count <= 10)%nat /\
    (warned = [] \/ (count = 10%nat /\ exists message, warned = [LogWarn message])) /\
    (written = [] \/ exists e, written = [e] /\ isCacheUpdate e = true /\ isFetch e = false
                            /\ isSleep e = false /\ isWarning e = false).
Proof.
  intros Hop. unfold handle, onWebhook.
  set (start := [LogDebug _]).
  destruct (String.eqb (item_typename (data payload)) "Asset").
  - destruct (retry_ends Document Asset (operation payload)
                (cachedAssetById (item_id (data payload)))
                (fun n => getAssetById n (item_id (data payload)))
                (FetchAsset (item_id (data payload))) "asset" 10 0 start
                ltac:(lia) ltac:(lia)) as (count & H1 & H2 & H).
    exists (FetchAsset (item_id (data payload))), "asset", count.
    destruct H as [H|(item & got & n & H & _ & _ & Hten)].
    + exists [], []. destruct (operation payload); try congruence;
        rewrite H; rewrite !app_nil_r; repeat split; auto; lia.
    + destruct got.
      * exists [], [UpdateAssets [convertAsset item]].
        destruct (operation payload); try congruence;
          rewrite H; cbn [app]; rewrite <- !app_assoc;
          (repeat split; auto; try lia); right; eexists; repeat split.
      * exists [LogWarn (staleWarning "asset" (operation payload))],
          [UpdateAssets [convertAsset item]].
        specialize (Hten eq_refl).
        destruct (operation payload); try congruence;
          rewrite H; cbn [app]; rewrite <- !app_assoc;
          (repeat split; auto; try lia); right; try (split; [lia|]); eexists; repeat split.
  - destruct (retry_ends Document Asset (operation payload)
                (cachedDocumentById (item_id (data payload)))
                (fun n => getEntryById n (item_id (data payload)) (item_typename (data payload)))
                (FetchEntry (item_id (data payload)) (item_typename (data payload)))
                "entry" 10 0 start
                ltac:(lia) ltac:(lia)) as (count & H1 & H2 & H).
    exists (FetchEntry (item_id (data payload)) (item_typename (data payload))), "entry", count.
    destruct H as [H|(item & got & n & H & _ & _ & Hten)].
    + exists [], []. destruct (operation payload); try congruence;
        rewrite H; rewrite !app_nil_r; repeat split; auto; lia.
    + exists (if got then []
              else [@LogWarn Document Asset (staleWarning "entry" (operation payload))]),
        (match convertDocument item with
         | Some document => [@UpdateDocuments Document Asset [document]]
         | None => []
         end).
      assert (Hw : (if got then []
                    else [@LogWarn Document Asset (staleWarning "entry" (operation payload))])
                   = [] \/
                   count = 10%nat /\
                   exists message,
                     (if got then []
                      else [@LogWarn Document Asset
                              (staleWarning "entry" (operation payload))])
                     = [LogWarn message]).
      { destruct got; [now left|right]. split; [specialize (Hten eq_refl); lia|eauto]. }
      assert (Hc : (match convertDocument item with
                    | Some document => [@UpdateDocuments Document Asset [document]]
                    | None => []
                    end) = [] \/
                   exists e, (match convertDocument item with
                              | Some document => [@UpdateDocuments Document Asset [document]]
                              | None => []
                              end) = [e] /\ isCacheUpdate e = true /\ isFetch e = false
                             /\ isSleep e = false /\ isWarning e = false).
      { destruct (convertDocument item); [right|now left]. eexists; repeat split. }
      destruct (operation payload); try congruence;
        rewrite H; (split; [|repeat split; auto; lia]);
        destruct got, (convertDocument item); cbn [app]; rewrite <- ?app_assoc;
        rewrite ?app_nil_r; reflexivity.
Qed.

(** X17.  Whatever the webhook, the cache and the content API, [onWebhook]
    ends, after at most ten fetches, with a wait of 500ms before every
    fetch but the first and no other wait; it logs at most one warning, and
    only after ten fetches; it updates the cache at most once; and for a
    delete it fetches nothing. *)
Theorem onWebhook_is_bounded (payload : HygraphWebhook) :
  exists trace,
    handle payload = Some trace /\
    (length (List.filter isFetch trace) <= 10)%nat /\
    List.filter isSleep trace
    = repeat (Sleep 500) (length (List.filter isFetch trace) - 1) /\
    (length (List.filter isWarning trace) <= 1)%nat /\
    (length (List.filter isCacheUpdate trace) <= 1)%nat /\
    (operation payload = delete -> List.filter isFetch trace = []) /\
    (List.filter isWarning trace <> [] -> length (List.filter isFetch trace) = 10%nat).
Proof.
  assert (Hcases : operation payload = delete \/ operation payload <> delete)
    by (destruct (operation payload); auto; right; discriminate).
  destruct Hcases as [Hdel|Hop].
  - unfold handle, onWebhook. rewrite Hdel. eexists. split; [reflexivity|].
    destruct (String.eqb (item_typename (data payload)) "Asset");
      cbn [app List.filter isFetch isSleep isWarning isCacheUpdate length repeat Nat.sub];
      repeat split; intros; try lia; congruence.
  - destruct (onWebhook_shape payload Hop)
      as (fetched & kind & count & warned & written & -> & Hf & Hw & Hs & Hc & Hcount
          & Hwarned & Hwritten).
    eexists. split; [reflexivity|].
    destruct (attemptsEffects_counts Document Asset fetched kind count Hf Hw Hs Hc)
      as (H1 & H2 & H3 & H4).
    rewrite !List.filter_app, !List.length_app, H1, H2, H3, H4. cbn [List.filter isFetch isSleep isWarning isCacheUpdate length app].
    destruct Hwarned as [->|(Hten & message & ->)];
      destruct Hwritten as [->|(e & -> & He1 & He2 & He3 & He4)];
      cbn [List.filter isFetch isSleep isWarning isCacheUpdate length app];
      rewrite ?He1, ?He2, ?He3, ?He4; cbn [length app]; rewrite ?app_nil_r, ?Nat.add_0_r;
      repeat split; try lia; try congruence.
Qed.

End WebhookBounds.

(** ** Webhooks that are accepted at once *)

(** X19.  For an unpublish webhook [isNewerVersion] accepts a fetched item
    exactly when its [documentInStages] has no entry of stage [PUBLISHED]
    (or is missing), whatever the cache holds. *)
Theorem unpublish_is_fresh_without_published_stage
    (hygraphItem : HygraphItem) (cachedItem : option CachedItem) :
  isNewerVersion unpublish hygraphItem cachedItem = true <->
  forall docs doc,
    documentInStages hygraphItem = Some docs -> In doc docs -> stage doc <> "PUBLISHED".
Proof.
  unfold isNewerVersion, publishedItem.
  destruct (documentInStages hygraphItem) as [docs|]; [|split; [discriminate|reflexivity]].
  destruct (List.find _ docs) as [doc|] eqn:Efind; split.
  - discriminate.
  - intros H. apply find_some in Efind as [Hin Hstage]. apply String.eqb_eq in Hstage.
    now destruct (H docs doc eq_refl Hin).
  - intros _ docs' doc [= <-] Hin Hstage.
    apply (find_none _ _ Efind) in Hin. apply String.eqb_neq in Hin. contradiction.
  - reflexivity.
Qed.

Section AcceptedAtOnce.

Variables Document Asset : Type.
Variable convertDocument : HygraphItem -> option Document.
Variable convertAsset : HygraphItem -> Asset.
Variable cachedDocumentById : string -> option CachedItem.
Variable cachedAssetById : string -> option CachedItem.
Variable getEntryById : nat -> string -> string -> option HygraphItem.
Variable getAssetById : nat -> string -> option HygraphItem.

Let handle :=
  onWebhook Document Asset convertDocument convertAsset
    cachedDocumentById cachedAssetById getEntryById getAssetById.

(** X18.  For a create webhook [onWebhook] fetches the item exactly once,
    without a wait and without a warning, and writes what that fetch
    returned to the cache: the converted asset, or the converted entry when
    the converter returns a document. *)
Theorem create_webhook_fetches_once (payload : HygraphWebhook) :
  operation payload = create ->
  exists trace,
    handle payload = Some trace /\
    length (List.filter isFetch trace) = 1%nat /\
    List.filter isSleep trace = [] /\
    List.filter isWarning trace = [] /\
    (forall hygraphItem,
       (if String.eqb (item_typename (data payload)) "Asset"
        then getAssetById 0 (item_id (data payload))
        else getEntryById 0 (item_id (data payload)) (item_typename (data payload)))
       = Some hygraphItem ->
       List.filter isCacheUpdate trace
       = if String.eqb (item_typename (data payload)) "Asset"
         then [UpdateAssets [convertAsset hygraphItem]]
         else match convertDocument hygraphItem with
              | Some document => [UpdateDocuments [document]]
              | None => []
              end).
Proof.
  intros Hop. unfold handle, onWebhook. rewrite Hop.
  destruct (String.eqb (item_typename (data payload)) "Asset").
  - rewrite (retry_unfold Document Asset).
    destruct (getAssetById 0 (item_id (data payload))) as [item|].
    + cbn [isNewerVersion negb andb]. eexists. split; [reflexivity|].
      cbn. repeat split. now intros ? [= <-].
    + eexists. split; [reflexivity|]. cbn. repeat split. discriminate.
  - rewrite (retry_unfold Document Asset).
    destruct (getEntryById 0 _ _) as [item|].
    + cbn [isNewerVersion negb andb].
      destruct (convertDocument item) eqn:Ec; (eexists; split; [reflexivity|]);
        cbn; repeat split; intros ? [= <-]; now rewrite Ec.
    + eexists. split; [reflexivity|]. cbn. repeat split. discriminate.
Qed.

End AcceptedAtOnce.

(** The theorem at a page that was just created. *)
Lemma create_webhook_fetches_once_witness :
  exists trace,
    onWebhook string string (fun item => Some (item_id item)) item_id
      (fun _ => None) (fun _ => None) (fun _ _ _ => Some Sample.stalePage) (fun _ _ => None)
      (mkWebhook create Sample.stalePage)
    = Some trace /\
    length (List.filter isFetch trace) = 1%nat /\
    List.filter isSleep trace = [] /\
    List.filter isWarning trace = [] /\
    (forall hygraphItem,
       Some Sample.stalePage = Some hygraphItem ->
       List.filter isCacheUpdate trace = [UpdateDocuments [item_id hygraphItem]]).
Proof.
  apply (create_webhook_fetches_once string string (fun item => Some (item_id item)) item_id
           (fun _ => None) (fun _ => None) (fun _ _ _ => Some Sample.stalePage)
           (fun _ _ => None) (mkWebhook create Sample.stalePage)).
  reflexivity.
Defined.

(** ** The webhook of the content source *)

Section EnsureWebhook.

Variable getWebhooks : JsError + (string * list ContentSource.Webhook).
Variable updateWebhook : string -> JsError + unit.
Variable createWebhook : string -> string -> JsError + string.

Let ensure := ContentSource.createWebhookIfNeeded getWebhooks updateWebhook createWebhook.

Lemma unset_false webhookUrl :
  ContentSource.unset webhookUrl = false ->
  exists c url, webhookUrl = Some (String c url).
Proof. destruct webhookUrl as [[|c url]|]; try discriminate. eauto. Qed.

(** X20.  [createWebhookIfNeeded] changes at most one webhook in Hygraph.
    It creates one only for a URL that is set and that no webhook of the
    environment has, and it activates one only if that webhook is listed,
    has the URL and is not active; so it never creates a second webhook for
    a URL and never touches an active one. *)
Theorem createWebhookIfNeeded_changes_at_most_one_webhook (webhookUrl : option string) :
  let mutations := List.filter ContentSource.isMutation (ran_effects (ensure webhookUrl)) in
  (length mutations <= 1)%nat /\
  (forall url environmentId,
     In (ContentSource.CreateWebhook url environmentId) mutations ->
     webhookUrl = Some url /\
     exists webhooks,
       getWebhooks = inr (environmentId, webhooks) /\
       forall webhook, In webhook webhooks -> ContentSource.hook_url webhook <> url) /\
  (forall webhookId,
     In (ContentSource.UpdateWebhook webhookId) mutations ->
     exists environmentId webhooks webhook,
       getWebhooks = inr (environmentId, webhooks) /\ In webhook webhooks /\
       ContentSource.hook_id webhook = webhookId /\
       webhookUrl = Some (ContentSource.hook_url webhook) /\
       ContentSource.hook_isActive webhook = false).
Proof.
  intros mutations. unfold mutations, ensure, ContentSource.createWebhookIfNeeded.
  destruct webhookUrl as [[|c url]|]; try (cbn; (split; [|split]); (lia || (intros; intuition discriminate))).
  destruct getWebhooks as [error|[environmentId webhooks]] eqn:Eget;
    [cbn; (split; [|split]); (lia || (intros; intuition discriminate))|].
  destruct (List.find _ webhooks) as [existingWebhook|] eqn:Efind.
  - apply find_some in Efind as [Hin Hurl]. apply String.eqb_eq in Hurl.
    destruct (ContentSource.hook_isActive existingWebhook) eqn:Eactive; cbn [negb].
    + cbn; (split; [|split]); (lia || (intros; intuition discriminate)).
    + destruct (updateWebhook _); cbn; (split; [lia|split; [intros; intuition discriminate|]]);
        intros webhookId [[= <-]|[]]; exists environmentId, webhooks, existingWebhook;
        repeat split; auto; now rewrite Hurl.
  - destruct (createWebhook _ _); cbn; (split; [lia|split; [|intros; intuition discriminate]]);
      intros url0 env0 [[= <- <-]|[]]; (split; [reflexivity|]);
      exists webhooks; (split; [reflexivity|]);
      intros webhook Hin Hurl;
      apply (find_none _ _ Efind) in Hin; apply String.eqb_neq in Hin; contradiction.
Qed.

(** X21.  Without a webhook URL, [init] calls nothing in Hygraph: after its
    first log line it logs the notice about ngrok in local development,
    and the warning of [createWebhookIfNeeded] to the user otherwise, and
    resolves. *)
Theorem init_without_webhook_url_calls_nothing (localDev : bool) (webhookUrl : option string) :
  ContentSource.unset webhookUrl = true ->
  ContentSource.init getWebhooks updateWebhook createWebhook localDev webhookUrl
  = mkRan
      [ ContentSource.Info "initializing...";
        if localDev then ContentSource.Info ContentSource.localDevelopmentNotice
        else ContentSource.UserWarn
               "webhookURL is not set, the visual editor may not work properly!" ]
      (Ok tt).
Proof.
  intros Hunset. unfold ContentSource.init. rewrite Hunset.
  destruct localDev; [reflexivity|]. cbn [andb].
  unfold ContentSource.createWebhookIfNeeded.
  destruct webhookUrl as [[|c url]|]; try discriminate; reflexivity.
Qed.

End EnsureWebhook.

(** The theorem in local development, whatever the client would answer. *)
Lemma init_without_webhook_url_calls_nothing_witness :
  ContentSource.init (inl Examples.offline) (fun _ => inl Examples.offline)
    (fun _ _ => inl Examples.offline) true None
  = mkRan
      [ ContentSource.Info "initializing...";
        ContentSource.Info ContentSource.localDevelopmentNotice ]
      (Ok tt).
Proof.
  apply (init_without_webhook_url_calls_nothing (inl Examples.offline)
           (fun _ => inl Examples.offline) (fun _ _ => inl Examples.offline) true None).
  reflexivity.
Defined.

(** ** Publishing documents *)

Section PublishingFacts.

Variable getModelByName : string -> option ModelWithContext.

Let add := ContentSource.addToEntryMap getModelByName.
Let group := ContentSource.ofPluralId getModelByName.

(** The ids that a group adds to what the accumulator holds for it. *)
Let joined (old : option (list string)) (new : list string) : option (list string) :=
  match old, new with
  | Some ids, _ => Some (ids ++ new)
  | None, [] => None
  | None, _ :: _ => Some new
  end.

Lemma addToEntryMap_groups (documents : list ContentSource.Document) : forall accum entryMap,
  foldM add documents accum = Ok entryMap ->
  forall pluralModelName,
    entryMap !! pluralModelName
    = joined (accum !! pluralModelName)
        (List.map ContentSource.doc_id (group pluralModelName documents)).
Proof.
  induction documents as [|doc documents IH]; intros accum entryMap H p.
  - injection H as <-. cbn. destruct (accum !! p); cbn; now rewrite ?app_nil_r.
  - cbn [foldM] in H. apply bind_Ok in H as (accum1 & H1 & H2).
    rewrite (IH _ _ H2 p). clear IH H2.
    unfold add, ContentSource.addToEntryMap in H1.
    unfold group, ContentSource.ofPluralId. cbn [List.filter].
    destruct (getModelByName (ContentSource.doc_modelName doc)) as [model|]; [|discriminate].
    cbv zeta in H1. set (q := pluralId (context model)) in *.
    assert (Hstep : accum1 = <[q := default [] (accum !! q) ++ [ContentSource.doc_id doc]]> accum).
    { revert H1. destruct (accum !! q) as [ids|]; [intros H; now injection H|].
      destruct (existsb _ _); [discriminate|]. intros H. now injection H. }
    subst accum1. destruct (String.eqb_spec q p) as [->|Hne].
    + rewrite lookup_insert_eq. cbn [List.map].
      destruct (accum !! p) as [ids|]; cbn; [now rewrite <- app_assoc|reflexivity].
    + now rewrite lookup_insert_ne.
Qed.

Lemma addToEntryMap_unknown (documents : list ContentSource.Document) doc :
  In doc documents -> getModelByName (ContentSource.doc_modelName doc) = None ->
  forall accum, exists e, foldM add documents accum = Throw e.
Proof.
  intros Hin Hnone. induction documents as [|d documents IH]; [destruct Hin|].
  intros accum. cbn [foldM]. destruct Hin as [->|Hin].
  - unfold add at 2, ContentSource.addToEntryMap. rewrite Hnone. cbn. eauto.
  - destruct (add accum d) as [accum1|e|] eqn:E; cbn; eauto.
    exfalso. revert E. unfold add, ContentSource.addToEntryMap.
    destruct (getModelByName (ContentSource.doc_modelName d)) as [model|]; [|discriminate].
    cbv zeta. destruct (accum !! pluralId (context model)); [discriminate|].
    destruct (existsb _ _); discriminate.
Qed.

Variable publishEntries : gmap string (list string) -> option JsError.
Variable publishAssets : list string -> option JsError.
Variable unpublishEntries : gmap string (list string) -> option JsError.
Variable unpublishAssets : list string -> option JsError.

Let publishing :=
  ContentSource.publishDocuments getModelByName publishEntries publishAssets.
Let unpublishing :=
  ContentSource.unpublishDocuments getModelByName unpublishEntries unpublishAssets.

(** X22.  When the entry map of [publishDocuments] and
    [unpublishDocuments] can be built, it holds under each plural id the
    ids of exactly the documents whose model has that plural id, in the
    order of the documents, and no entry for a plural id without a
    document; for a non-empty list of documents both methods call the
    client with that map first. *)
Theorem publishDocuments_groups_by_plural_id
    (documents : list ContentSource.Document) (assets : list ContentSource.Asset)
    (entryMap : gmap string (list string)) :
  foldM add documents ∅ = Ok entryMap ->
  (forall pluralModelName,
     entryMap !! pluralModelName
     = match List.map ContentSource.doc_id (group pluralModelName documents) with
       | [] => None
       | ids => Some ids
       end) /\
  (documents <> [] ->
   exists afterPublish afterUnpublish,
     List.filter ContentSource.isCall (ran_effects (publishing documents assets))
     = ContentSource.PublishEntries entryMap :: afterPublish /\
     List.filter ContentSource.isCall (ran_effects (unpublishing documents assets))
     = ContentSource.UnpublishEntries entryMap :: afterUnpublish).
Proof.
  intros Hmap. split.
  - intros p. rewrite (addToEntryMap_groups _ _ _ Hmap p), lookup_empty.
    now destruct (List.map _ _).
  - intros Hne. unfold publishing, unpublishing, ContentSource.publishDocuments,
      ContentSource.unpublishDocuments.
    destruct documents as [|doc documents]; [congruence|].
    fold add. rewrite Hmap.
    destruct (publishEntries entryMap), (unpublishEntries entryMap);
      unfold ContentSource.withAssets;
      destruct assets as [|a assets]; try destruct (publishAssets _);
      try destruct (unpublishAssets _); cbn; eauto.
Qed.

(** X23.  If the cache does not know the model of one of the documents,
    [publishDocuments] and [unpublishDocuments] reject before they call the
    client: none of the documents and none of the assets is published or
    unpublished. *)
Theorem publishDocuments_is_all_or_nothing
    (documents : list ContentSource.Document) (assets : list ContentSource.Asset)
    (doc : ContentSource.Document) :
  In doc documents -> getModelByName (ContentSource.doc_modelName doc) = None ->
  (exists e, ran_result (publishing documents assets) = Throw e) /\
  List.filter ContentSource.isCall (ran_effects (publishing documents assets)) = [] /\
  (exists e, ran_result (unpublishing documents assets) = Throw e) /\
  List.filter ContentSource.isCall (ran_effects (unpublishing documents assets)) = [].
Proof.
  intros Hin Hnone.
  destruct (addToEntryMap_unknown documents doc Hin Hnone ∅) as [e He].
  unfold publishing, unpublishing, ContentSource.publishDocuments,
    ContentSource.unpublishDocuments.
  destruct documents as [|d documents]; [destruct Hin|].
  fold add. rewrite He. cbn. repeat split; eauto.
Qed.

End PublishingFacts.

(** The theorem at two pages and a post of the sample site. *)
Lemma publishDocuments_groups_by_plural_id_witness :
  let entryMap :=
    Examples.entryMapOr
      (foldM (ContentSource.addToEntryMap (fun n => Sample.site !! n)) Examples.drafts ∅) in
  (forall pluralModelName,
     entryMap !! pluralModelName
     = match List.map ContentSource.doc_id
               (ContentSource.ofPluralId (fun n => Sample.site !! n) pluralModelName
                  Examples.drafts) with
       | [] => None
       | ids => Some ids
       end) /\
  (Examples.drafts <> [] ->
   exists afterPublish afterUnpublish,
     List.filter ContentSource.isCall
       (ran_effects
          (ContentSource.publishDocuments (fun n => Sample.site !! n) (fun _ => None)
             (fun _ => None) Examples.drafts []))
     = ContentSource.PublishEntries entryMap :: afterPublish /\
     List.filter ContentSource.isCall
       (ran_effects
          (ContentSource.unpublishDocuments (fun n => Sample.site !! n) (fun _ => None)
             (fun _ => None) Examples.drafts []))
     = ContentSource.UnpublishEntries entryMap :: afterUnpublish).
Proof.
  apply (publishDocuments_groups_by_plural_id (fun n => Sample.site !! n) (fun _ => None)
           (fun _ => None) (fun _ => None) (fun _ => None) Examples.drafts []).
  reflexivity.
Defined.

(** The theorem at the same documents and one of an unknown model. *)
Lemma publishDocuments_is_all_or_nothing_witness :
  let documents := Examples.drafts ++ [Examples.ghost] in
  let publishing :=
    ContentSource.publishDocuments (fun n => Sample.site !! n) (fun _ => None)
      (fun _ => None) documents [] in
  let unpublishing :=
    ContentSource.unpublishDocuments (fun n => Sample.site !! n) (fun _ => None)
      (fun _ => None) documents [] in
  (exists e, ran_result publishing = Throw e) /\
  List.filter ContentSource.isCall (ran_effects publishing) = [] /\
  (exists e, ran_result unpublishing = Throw e) /\
  List.filter ContentSource.isCall (ran_effects unpublishing) = [].
Proof.
  apply (publishDocuments_is_all_or_nothing (fun n => Sample.site !! n) (fun _ => None)
           (fun _ => None) (fun _ => None) (fun _ => None)
           (Examples.drafts ++ [Examples.ghost]) [] Examples.ghost).
  - cbn. auto.
  - reflexivity.
Defined.


(** ** [uploadAsset] of the content source *)

Section UploadFacts.

Variable ConvertedAsset : Type.
Variable convertAsset : HygraphItem -> ConvertedAsset.
Variable clientUploadAsset : Client.UploadOptions -> option string.
Variable getAssetById : nat -> string -> option HygraphItem.

Let await := ContentSource.awaitCreated getAssetById.
Let polls (assetId : string) (from count : nat) : list ContentSource.Effect :=
  flat_map (ContentSource.pollEffects assetId) (seq from count).

Lemma awaitCreated_unfold assetId fuel tries done :
  await assetId (S fuel) tries done
  = match getAssetById tries assetId with
    | None =>
        mkRan (done ++ ContentSource.pollEffects assetId tries)
          (Throw "Error: Error finding uploaded asset")
    | Some hygraphAsset =>
        if ContentSource.createPending hygraphAsset && (tries + 1 <? 10)%nat
        then await assetId fuel (tries + 1)%nat (done ++ ContentSource.pollEffects assetId tries)
        else mkRan (done ++ ContentSource.pollEffects assetId tries) (Ok hygraphAsset)
    end.
Proof.
  unfold await, ContentSource.pollEffects. cbn [ContentSource.awaitCreated].
  destruct (0 <? tries)%nat; cbn [app]; rewrite <- ?app_assoc; reflexivity.
Qed.

Lemma awaitCreated_pending assetId count : forall fuel tries done,
  (forall j, (tries <= j < tries + count)%nat ->
     exists pending, getAssetById j assetId = Some pending /\
       ContentSource.createPending pending = true) ->
  (tries + count < 10)%nat ->
  await assetId (count + fuel) tries done
  = await assetId fuel (tries + count)%nat (done ++ polls assetId tries count).
Proof.
  induction count as [|count IH]; intros fuel tries done Hpending Hlt.
  - cbn [Nat.add]. rewrite Nat.add_0_r. unfold polls. cbn. now rewrite app_nil_r.
  - change (S count + fuel)%nat with (S (count + fuel)). rewrite awaitCreated_unfold.
    destruct (Hpending tries ltac:(lia)) as (pending & -> & ->).
    replace (tries + 1 <? 10)%nat with true by (symmetry; apply Nat.ltb_lt; lia).
    cbn [andb]. rewrite IH by (try (intros j Hj; apply Hpending); lia).
    replace (tries + 1 + count)%nat with (tries + S count)%nat by lia.
    unfold polls. cbn [seq flat_map]. rewrite <- app_assoc.
    now replace (tries + 1)%nat with (S tries) by lia.
Qed.

Lemma polls_snoc assetId count :
  polls assetId 0 (S count) = polls assetId 0 count ++ ContentSource.pollEffects assetId count.
Proof. unfold polls. rewrite seq_S, flat_map_app. cbn. now rewrite app_nil_r. Qed.

Lemma polls_counts assetId count :
  length (List.filter ContentSource.isFetch (polls assetId 0 count)) = count /\
  List.filter ContentSource.isSleep (polls assetId 0 count)
  = repeat (ContentSource.Sleep 500) (count - 1).
Proof.
  induction count as [|count [IH1 IH2]]; [split; reflexivity|].
  rewrite polls_snoc, !List.filter_app, List.length_app, IH1, IH2.
  unfold ContentSource.pollEffects. destruct count as [|count]; [split; reflexivity|].
  cbn. rewrite Nat.sub_0_r. split; [lia|]. 
  change (repeat (ContentSource.Sleep 500) count ++ [ContentSource.Sleep 500])
    with (repeat (ContentSource.Sleep 500) count ++ repeat (ContentSource.Sleep 500) 1).
  rewrite <- repeat_app. now replace (count + 1)%nat with (S count) by lia.
Qed.

(** X24.  [uploadAsset] of the content source polls the uploaded asset
    until the first fetch that finds it no longer [ASSET_CREATE_PENDING],
    waiting 500ms before every fetch but the first, and gives up waiting
    after the tenth fetch: it then resolves with the converted asset of
    that fetch, pending or not, without a warning and without an error. *)
Theorem uploadAsset_waits_for_creation (options : Client.UploadOptions)
    (assetId : string) (k : nat) (hygraphAsset : HygraphItem) :
  clientUploadAsset options = Some assetId -> assetId <> EmptyString ->
  (k < 10)%nat ->
  (forall j, (j < k)%nat ->
     exists pending, getAssetById j assetId = Some pending /\
       ContentSource.createPending pending = true) ->
  getAssetById k assetId = Some hygraphAsset ->
  ContentSource.createPending hygraphAsset = false \/ k = 9%nat ->
  let ran :=
    ContentSource.uploadAsset ConvertedAsset convertAsset clientUploadAsset getAssetById
      10 options in
  ran = mkRan (ContentSource.UploadAsset options :: polls assetId 0 (S k))
          (Ok (convertAsset hygraphAsset)) /\
  length (List.filter ContentSource.isFetch (ran_effects ran)) = S k /\
  List.filter ContentSource.isSleep (ran_effects ran) = repeat (ContentSource.Sleep 500) k.
Proof.
  intros Hid Hne Hk Hpending Hasset Hlast ran.
  assert (Hran : ran = mkRan (ContentSource.UploadAsset options :: polls assetId 0 (S k))
                         (Ok (convertAsset hygraphAsset))).
  { unfold ran, ContentSource.uploadAsset. rewrite Hid.
    destruct assetId as [|c rest]; [congruence|].
    fold (await (String c rest)). replace 10%nat with (k + S (9 - k))%nat by lia.
    rewrite awaitCreated_pending by (try (intros j Hj; apply Hpending); lia).
    rewrite Nat.add_0_l, awaitCreated_unfold, Hasset.
    replace (ContentSource.createPending hygraphAsset && (k + 1 <? 10)%nat) with false.
    2:{ symmetry. destruct Hlast as [->| ->]; [reflexivity|]. apply andb_false_r. }
    cbn [ran_effects ran_result mbind res_bind bind mret res_ret].
    now rewrite polls_snoc, <- app_assoc. }
  split; [exact Hran|]. rewrite Hran. cbn [ran_effects List.filter ContentSource.isFetch
    ContentSource.isSleep]. destruct (polls_counts assetId (S k)) as [-> ->].
  cbn [Nat.sub]. rewrite ?Nat.sub_0_r. split; reflexivity.
Qed.

(** X25.  [uploadAsset] of the content source rejects with
    [Error uploading asset], before any fetch, when the client returns no
    id or an empty one, and with [Error finding uploaded asset] as soon as
    a fetch returns nothing, without a further fetch. *)
Theorem uploadAsset_fails_without_an_asset (options : Client.UploadOptions) :
  let ran :=
    ContentSource.uploadAsset ConvertedAsset convertAsset clientUploadAsset getAssetById
      10 options in
  (clientUploadAsset options = None \/ clientUploadAsset options = Some EmptyString ->
   ran = mkRan [ContentSource.UploadAsset options] (Throw "Error: Error uploading asset")) /\
  (forall assetId k,
     clientUploadAsset options = Some assetId -> assetId <> EmptyString ->
     (k < 10)%nat ->
     (forall j, (j < k)%nat ->
        exists pending, getAssetById j assetId = Some pending /\
          ContentSource.createPending pending = true) ->
     getAssetById k assetId = None ->
     ran = mkRan (ContentSource.UploadAsset options :: polls assetId 0 (S k))
             (Throw "Error: Error finding uploaded asset")).
Proof.
  intros ran. split.
  - intros [H|H]; unfold ran, ContentSource.uploadAsset; now rewrite H.
  - intros assetId k Hid Hne Hk Hpending Hnone.
    unfold ran, ContentSource.uploadAsset. rewrite Hid.
    destruct assetId as [|c rest]; [congruence|].
    fold (await (String c rest)). replace 10%nat with (k + S (9 - k))%nat by lia.
    rewrite awaitCreated_pending by (try (intros j Hj; apply Hpending); lia).
    rewrite Nat.add_0_l, awaitCreated_unfold, Hnone.
    cbn [ran_effects ran_result mbind res_bind bind].
    now rewrite polls_snoc, <- app_assoc.
Qed.

End UploadFacts.

(** The theorem at an asset that the third fetch finds created. *)
Lemma uploadAsset_waits_for_creation_witness :
  let ran :=
    ContentSource.uploadAsset string item_updatedAt (fun _ => Some "a1") Examples.beingCreated
      10 Examples.picture in
  ran = mkRan (ContentSource.UploadAsset Examples.picture
               :: flat_map (ContentSource.pollEffects "a1") (seq 0 3))
          (Ok "2024-05-01T10:00:02Z") /\
  length (List.filter ContentSource.isFetch (ran_effects ran)) = 3%nat /\
  List.filter ContentSource.isSleep (ran_effects ran) = repeat (ContentSource.Sleep 500) 2.
Proof.
  apply (uploadAsset_waits_for_creation string item_updatedAt (fun _ => Some "a1")
           Examples.beingCreated Examples.picture "a1" 2 Examples.createdAsset).
  - reflexivity.
  - discriminate.
  - lia.
  - intros j Hj. exists Examples.pendingAsset. split; [|reflexivity].
    destruct j as [|[|j]]; [reflexivity|reflexivity|lia].
  - reflexivity.
  - now left.
Defined.

(** ** Aliases that could collide *)

(** One more character of a model name against the separator. *)
Ltac separator_step H m :=
  rewrite ?append_cons in H; injection H as ? H; subst;
  try (destruct m as [|? m]; [rewrite append_nil_l in H; discriminate H|]).

(** Two texts behind the alias separator that agree after model names:
    the names are the same, or one goes on with the first seven
    characters of the separator. *)
Lemma alias_separator_apart (f1 f2 : string) (m1 : string) : forall m2,
  m1 +:+ "_alias__" +:+ f1 = m2 +:+ "_alias__" +:+ f2 ->
  (m1 = m2 /\ f1 = f2) \/
  String.prefix (m1 +:+ "_alias_") m2 = true \/
  String.prefix (m2 +:+ "_alias_") m1 = true.
Proof.
  induction m1 as [|c m1 IH]; intros m2 H.
  - rewrite append_nil_l in H.
    destruct m2 as [|c1 m2].
    { left. rewrite append_nil_l in H. injection H as H. auto. }
    right. left. rewrite append_nil_l.
    do 7 separator_step H m2.
    cbn. now destruct m2.
  - destruct m2 as [|c2 m2].
    + right. right. rewrite append_nil_l in *. clear IH.
      do 7 separator_step H m1.
      cbn. now destruct m1.
    + rewrite !append_cons in H. injection H as -> H.
      destruct (IH m2 H) as [[-> ->]|[Hp|Hp]]; [now left|right; left|right; right];
        rewrite append_cons; cbn [String.prefix];
        (destruct (ascii_dec c2 c2) as [_|Hne]; [exact Hp|congruence]).
Qed.

Lemma prefix_longer (m : string) : String.prefix (m +:+ "_alias_") m = false.
Proof.
  induction m as [|c m IH]; [reflexivity|].
  rewrite append_cons. cbn [String.prefix].
  destruct (ascii_dec c c) as [_|Hne]; [exact IH|congruence].
Qed.

(** X26.  Two calls of [aliasForFieldName] return the same alias only for
    the same model and field, or for two models of which one is named like
    the other followed by [_alias_]: for a model the aliases of its fields
    are distinct, and the aliases in the branches of two models do not
    collide unless a model name continues another one that way. *)
Theorem aliases_collide_only_for_continued_model_names
    (fieldName1 modelName1 fieldName2 modelName2 : string) :
  aliasForFieldName fieldName1 modelName1 = aliasForFieldName fieldName2 modelName2 ->
  (modelName1 = modelName2 -> fieldName1 = fieldName2) /\
  ((modelName1 = modelName2 /\ fieldName1 = fieldName2) \/
   String.prefix (modelName1 +:+ "_alias_") modelName2 = true \/
   String.prefix (modelName2 +:+ "_alias_") modelName1 = true).
Proof.
  unfold aliasForFieldName, aliasPrefix. intros H.
  rewrite !append_assoc, !append_cons, !append_nil_l in H. injection H as H.
  apply alias_separator_apart in H. split; [|exact H].
  intros ->. destruct H as [[_ H]|[H|H]]; [exact H| |];
    rewrite prefix_longer in H; discriminate.
Qed.

(** The theorem at the title of a hero. *)
Lemma aliases_collide_only_for_continued_model_names_witness :
  ("Hero" = "Hero" -> "title" = "title") /\
  (("Hero" = "Hero" /\ "title" = "title") \/
   String.prefix ("Hero" +:+ "_alias_") "Hero" = true \/
   String.prefix ("Hero" +:+ "_alias_") "Hero" = true).
Proof.
  apply (aliases_collide_only_for_continued_model_names "title" "Hero" "title" "Hero").
  reflexivity.
Defined.

(** The exception is real: the two aliases below are the same text. *)
Example continued_model_names_collide (fieldName modelName : string) :
  aliasForFieldName ("alias__" +:+ fieldName) modelName
  = aliasForFieldName fieldName (modelName +:+ "_alias_").
Proof.
  unfold aliasForFieldName, aliasPrefix. now rewrite !append_assoc.
Qed.

(** ** What [onWebhook] writes to the cache *)

Section WrittenItem.

Variables Document Asset : Type.
Variable convertDocument : HygraphItem -> option Document.
Variable convertAsset : HygraphItem -> Asset.
Variable cachedDocumentById : string -> option CachedItem.
Variable cachedAssetById : string -> option CachedItem.
Variable getEntryById : nat -> string -> string -> option HygraphItem.
Variable getAssetById : nat -> string -> option HygraphItem.

Let handle :=
  onWebhook Document Asset convertDocument convertAsset
    cachedDocumentById cachedAssetById getEntryById getAssetById.

(** A cache update of the trace is the one that the counts find. *)
Lemma cache_update_found (trace : list (Effect Document Asset)) e u :
  List.filter isCacheUpdate trace = [u] -> In e trace -> isCacheUpdate e = true -> e = u.
Proof.
  intros Hfilter Hin He.
  assert (H : In e (List.filter isCacheUpdate trace)) by (apply filter_In; auto).
  rewrite Hfilter in H. destruct H as [H|[]]. now symmetry.
Qed.

Lemma cache_update_none (trace : list (Effect Document Asset)) e :
  List.filter isCacheUpdate trace = [] -> In e trace -> isCacheUpdate e = true -> False.
Proof.
  intros Hfilter Hin He.
  assert (H : In e (List.filter isCacheUpdate trace)) by (apply filter_In; auto).
  now rewrite Hfilter in H.
Qed.

(** X27.  Whatever [onWebhook] writes to the cache is what its last fetch
    returned: an asset update holds exactly the converted asset of the last
    fetch, and a document update exactly the document that [convertDocument]
    made of the entry of the last fetch; the data of the webhook and the
    cached item are never written. *)
Theorem onWebhook_writes_the_last_fetched_item
    (payload : HygraphWebhook) (trace : list (Effect Document Asset)) :
  handle payload = Some trace ->
  let id := item_id (data payload) in
  let modelName := item_typename (data payload) in
  let last := (length (List.filter isFetch trace) - 1)%nat in
  (forall assets, In (UpdateAssets assets) trace ->
     exists hygraphAsset,
       getAssetById last id = Some hygraphAsset /\ assets = [convertAsset hygraphAsset]) /\
  (forall documents, In (UpdateDocuments documents) trace ->
     exists hygraphEntry document,
       getEntryById last id modelName = Some hygraphEntry /\
       convertDocument hygraphEntry = Some document /\ documents = [document]).
Proof.
  intros Hrun id modelName last. subst last. unfold handle, onWebhook in Hrun.
  cbv zeta in Hrun. fold id modelName in Hrun.
  set (start := [LogDebug ("got webhook request, " +:+ modelName +:+ ":"
                           +:+ operationName (operation payload))]
               : list (Effect Document Asset)) in *.
  assert (Hdelete : forall e : Effect Document Asset,
            trace = start ++ [e] -> isFetch e = false ->
            (forall assets, e <> UpdateAssets assets) ->
            (forall documents, e <> UpdateDocuments documents) ->
            (forall assets, In (UpdateAssets assets) trace -> False) /\
            (forall documents, In (UpdateDocuments documents) trace -> False)).
  { intros e -> _ Ha Hd. split; intros x [H|[H|[]]]; try discriminate H;
      [now apply (Ha x)|now apply (Hd x)]. }
  destruct (operation payload) eqn:Eop.
  5:{ destruct (String.eqb modelName "Asset"); injection Hrun as <-;
        (destruct (Hdelete _ eq_refl eq_refl) as [Ha Hd]; [discriminate..|]);
        split; intros x Hx; exfalso; eauto. }
  all: clear Hdelete; destruct (String.eqb modelName "Asset").
  all: match type of Hrun with
       | context [retry _ _ ?op ?cached ?fetch ?fetched ?kind 10 0 ?done] =>
           destruct (retry_ends Document Asset op cached fetch fetched kind 10 0 done
                       ltac:(lia) ltac:(lia)) as (count & H1 & H2 & Hend);
           destruct (attemptsEffects_counts Document Asset fetched kind count
                       eq_refl eq_refl eq_refl eq_refl) as (Hfetches & _ & _ & Hupdates)
       end.
  all: destruct Hend as [Hend|(item & got & n & Hend & Hitem & _ & _)];
    rewrite Hend in Hrun; [|cbn [Nat.add] in Hitem].
  all: try (injection Hrun as <-; split; intros x Hx; exfalso;
            (eapply cache_update_none; [|exact Hx|reflexivity]);
            cbn [app List.filter isCacheUpdate];
            rewrite ?List.filter_app, ?Hupdates; reflexivity).
  all: try destruct (convertDocument item) as [document|] eqn:Econv.
  all: injection Hrun as <-.
  all: match goal with
       | |- context [(length (List.filter isFetch ?t) - 1)%nat] =>
           replace (length (List.filter isFetch t) - 1)%nat with (count - 1)%nat
             by (destruct got; cbn [app List.filter isFetch length];
                 rewrite ?List.filter_app, ?List.length_app, ?Hfetches; cbn; lia)
       end.
  all: split; intros x Hx.
  all: try (exfalso; (eapply cache_update_none; [|exact Hx|reflexivity]);
            destruct got; cbn [app List.filter isCacheUpdate];
            rewrite ?List.filter_app, ?Hupdates; reflexivity).
  all: try (eapply cache_update_found in Hx;
            [|destruct got; cbn [app List.filter isCacheUpdate];
              rewrite ?List.filter_app, ?Hupdates; reflexivity|reflexivity]).
  all: try discriminate Hx.
  all: injection Hx as ->; eauto.
Qed.

End WrittenItem.

(** The theorem at a page that was just created. *)
Lemma onWebhook_writes_the_last_fetched_item_witness :
  let trace : list (Effect string string) :=
    [ LogDebug "got webhook request, Page:create"; FetchEntry "p1" "Page";
      UpdateDocuments ["p1"] ] in
  (forall assets, In (UpdateAssets assets) trace ->
     exists hygraphAsset : HygraphItem,
       None = Some hygraphAsset /\ assets = [item_id hygraphAsset]) /\
  (forall documents, In (UpdateDocuments documents) trace ->
     exists hygraphEntry document,
       Some Sample.stalePage = Some hygraphEntry /\
       Some (item_id hygraphEntry) = Some document /\ documents = [document]).
Proof.
  apply (onWebhook_writes_the_last_fetched_item string string
           (fun item => Some (item_id item)) item_id
           (fun _ => None) (fun _ => None) (fun _ _ _ => Some Sample.stalePage)
           (fun _ _ => None) (mkWebhook create Sample.stalePage)).
  reflexivity.
Defined.

(** ** The braces of a query *)

Lemma endsWith_append c (a b : string) :
  b <> EmptyString -> endsWith c (a +:+ b) = endsWith c b.
Proof.
  intros Hb. induction a as [|x a IH]; [reflexivity|].
  rewrite append_cons. cbn [endsWith]. rewrite IH.
  destruct (a +:+ b) eqn:E; [|reflexivity].
  destruct a; [rewrite append_nil_l in E; contradiction|discriminate].
Qed.

Lemma endsWith_spaces c n : c <> " "%char -> endsWith c (spaces n) = false.
Proof.
  intros Hc. induction n as [|n IH]; [reflexivity|].
  cbn [spaces endsWith]. rewrite IH. destruct (spaces n); [|reflexivity].
  apply Ascii.eqb_neq. congruence.
Qed.

(** A line that ends with a key ends like the key, or with a blank. *)
Lemma endsWith_key c (front key : string) :
  c <> " "%char -> endsWith c front = false -> endsWith c key = false ->
  endsWith c (front +:+ key) = false.
Proof.
  intros Hc Hfront Hkey. destruct key as [|k key].
  - now rewrite append_nil_r.
  - now rewrite endsWith_append.
Qed.

Lemma openBlocks_app lines1 : forall depth lines2,
  openBlocks depth (lines1 ++ lines2)
  = match openBlocks depth lines1 with
    | Some depth' => openBlocks depth' lines2
    | None => None
    end.
Proof.
  induction lines1 as [|line lines1 IH]; intros depth lines2; [reflexivity|].
  cbn [app openBlocks]. destruct (readLine depth line); [apply IH|reflexivity].
Qed.

(** A block: a line that opens it, balanced lines, the line that closes
    it. *)
Lemma openBlocks_block depth (opening : string) inner (indention : string) :
  endsWith "{" opening = true ->
  (forall d, openBlocks d inner = Some d) ->
  openBlocks depth (opening :: inner ++ [indention +:+ "}"]) = Some depth.
Proof.
  intros Hopen Hinner. cbn [openBlocks]. unfold readLine at 1. rewrite Hopen.
  rewrite openBlocks_app, Hinner. cbn [openBlocks]. unfold readLine.
  rewrite !endsWith_append by discriminate. reflexivity.
Qed.

Lemma openBlocks_flat_map {A} (f : A -> list string) (l : list A) :
  (forall x, In x l -> forall d, openBlocks d (f x) = Some d) ->
  forall d, openBlocks d (flat_map f l) = Some d.
Proof.
  induction l as [|x l IH]; intros H d; [reflexivity|].
  cbn [flat_map]. rewrite openBlocks_app, H by (now left).
  apply IH. intros y Hy. apply H. now right.
Qed.

Lemma openObject_opens indention key value : endsWith "{" (openObject indention key value) = true.
Proof.
  unfold openObject.
  destruct (Obj.get "__arguments" value) as [args|]; [destruct (truthy args)|];
    repeat rewrite <- append_assoc; now rewrite endsWith_append.
Qed.

(** A line without a brace at its end leaves the blocks as they are. *)
Lemma openBlocks_leaf depth (line : string) :
  endsWith "{" line = false -> endsWith "}" line = false ->
  openBlocks depth [line] = Some depth.
Proof. intros H1 H2. cbn [openBlocks]. unfold readLine. now rewrite H1, H2. Qed.

Lemma queryLines_blocks (v : jsval) :
  keysWithoutBrace v = true ->
  (forall level rest d, openBlocks d (queryLines level rest v) = Some d) /\
  (forall branches, v = JObj branches ->
     forall branch, In branch branches ->
       forall level rest d, openBlocks d (queryLines level rest (snd branch)) = Some d).
Proof.
  induction v as [| | | | | |entries IH] using jsval_ind;
    try (intros _; split; [reflexivity|discriminate]).
  intros Hkeys. cbn [keysWithoutBrace] in Hkeys.
  rewrite forallb_forall in Hkeys. rewrite List.Forall_forall in IH.
  assert (Hentry : forall kv, In kv entries ->
            endsWith "{" (fst kv) = false /\ endsWith "}" (fst kv) = false /\
            keysWithoutBrace (snd kv) = true).
  { intros kv Hkv. specialize (Hkeys kv Hkv).
    apply andb_prop in Hkeys as [Hkeys H3]. apply andb_prop in Hkeys as [H1 H2].
    apply negb_true_iff in H1, H2. auto. }
  assert (Hbranches : forall branch, In branch entries ->
            forall level rest d, openBlocks d (queryLines level rest (snd branch)) = Some d).
  { intros branch Hin. destruct (Hentry branch Hin) as (_ & _ & H3).
    exact (proj1 (IH branch Hin H3)). }
  split; [|intros branches [= <-]; exact Hbranches].
  intros level rest. cbn [queryLines]. apply openBlocks_flat_map. intros kv Hkv d.
  destruct (Hentry kv Hkv) as (H1 & H2 & H3).
  destruct (IH kv Hkv H3) as [Hvalue Hinside]. clear H3.
  destruct (rest && _); [reflexivity|].
  destruct (String.eqb (fst kv) "__on").
  - destruct (snd kv) as [| | | | | |branches] eqn:Ev; try reflexivity.
    apply openBlocks_flat_map. intros branch Hbranch d'.
    apply openBlocks_block.
    + repeat rewrite <- append_assoc. now rewrite endsWith_append.
    + intros d''. apply (Hinside branches eq_refl branch Hbranch).
  - assert (Hleaf : forall c, c = "{"%char \/ c = "}"%char ->
              endsWith c (spaces (2 * level) +:+ fst kv) = false).
    { intros c Hc. apply endsWith_key.
      - destruct Hc as [-> | ->]; discriminate.
      - apply endsWith_spaces. destruct Hc as [-> | ->]; discriminate.
      - destruct Hc as [-> | ->]; assumption. }
    destruct (snd kv) as [| | | |alias|items|value] eqn:Ev;
      try (apply openBlocks_leaf; apply Hleaf; auto).
    + apply openBlocks_leaf; repeat rewrite <- append_assoc.
      * apply endsWith_key; [discriminate| |exact H1]. now rewrite endsWith_append.
      * apply endsWith_key; [discriminate| |exact H2]. now rewrite endsWith_append.
    + apply openBlocks_block; [apply openObject_opens|].
      intros d'. apply Hvalue.
Qed.

(** X28.  In the lines that [convertASTToQuery] writes for an AST none of
    whose keys ends with a brace, the braces are balanced: read line by
    line, every line that ends with a closing brace closes a block that a
    line ending with an opening brace has opened, and at the end no block
    is left open; the arguments may hold any text. *)
Theorem convertASTToQuery_balances_its_braces (queryAST : jsval) (level : nat) (rest : bool)
    (depth : nat) :
  keysWithoutBrace queryAST = true ->
  openBlocks depth (queryLines level rest queryAST) = Some depth.
Proof. intros Hkeys. now apply queryLines_blocks. Qed.

(** The theorem at the default selection of the sample page. *)
Lemma convertASTToQuery_balances_its_braces_witness :
  openBlocks 0
    (queryLines 0 false
       (JObj (Sample.fieldsOrNone
                (defaultDocumentQueryFields (fun n => Sample.site !! n) 3 Sample.page))))
  = Some 0%nat.
Proof.
  apply (convertASTToQuery_balances_its_braces
           (JObj (Sample.fieldsOrNone
                    (defaultDocumentQueryFields (fun n => Sample.site !! n) 3 Sample.page)))
           0 false 0).
  reflexivity.
Defined.
